(** * run_test_from_archive.py: the isolate cache, the materializer and the runner

    A shallow embedding of [src/tools/isolate/run_test_from_archive.py].

    The file system is a finite map from POSIX path strings to nodes; the
    functions of [os], [os.path] and [shutil] that the script calls are
    defined over it.  Python exceptions are values of [exn]; a computation
    is a function from a state to a state and a [result], so that the state
    reached when an exception is raised is still there for [finally] blocks
    and for [__exit__].  Everything the script asks of the outside (the
    remote, the free disk space, the child process, the temporary names) is
    a field of [Env].

    A path is its string: permission bits are not part of a node, a
    symbolic link is not followed, [.] and [..] are names like any other,
    and a file can be written where its directory is not in the map.  The
    statements that would depend on any of this carry the hypotheses under
    which the map is the file system that the script sees: a directory
    that is there, a plain name, no symbolic link, a file that can be
    opened ([plain_name], [plain_cache], [no_symlinks], [can_open]). *)

From Stdlib Require Import ZArith NArith Ascii String List Lia.
From stdpp Require Import base option list gmap strings.

Local Open Scope string_scope.
Local Open Scope list_scope.

(** ** Exceptions and results *)

Inductive exn : Type :=
| AssertionError
| IndexError
| ValueError
| IOError
| OSError
| MappingError
| AttributeError
| SystemExit (code : Z).

Inductive result (A : Type) : Type :=
| Ok (a : A)
| Raise (e : exn).
Arguments Ok {A} a.
Arguments Raise {A} e.

(** A computation over a state [S]: the state is kept on both outcomes. *)
Definition M (S A : Type) : Type := S -> S * result A.

Definition ret {S A} (a : A) : M S A := fun s => (s, Ok a).
Definition raise {S A} (e : exn) : M S A := fun s => (s, Raise e).
Definition bind {S A B} (m : M S A) (k : A -> M S B) : M S B :=
  fun s => match m s with
           | (s', Ok a) => k a s'
           | (s', Raise e) => (s', Raise e)
           end.
Definition get {S} : M S S := fun s => (s, Ok s).
Definition modify {S} (f : S -> S) : M S unit := fun s => (f s, Ok tt).

(** [try: body finally: cleanup].  When [cleanup] raises, its exception
    replaces the outcome of [body], as in Python. *)
Definition try_finally {S A} (body : M S A) (cleanup : M S unit) : M S A :=
  fun s => match body s with
           | (s1, r) => match cleanup s1 with
                        | (s2, Ok _) => (s2, r)
                        | (s2, Raise e) => (s2, Raise e)
                        end
           end.

(** [try: body except ...: handler], the handler chosen by [catches]. *)
Definition try_except {S A} (body : M S A) (catches : exn -> bool)
    (handler : exn -> M S A) : M S A :=
  fun s => match body s with
           | (s1, Ok a) => (s1, Ok a)
           | (s1, Raise e) => if catches e then handler e s1 else (s1, Raise e)
           end.

Declare Scope m_scope.
Delimit Scope m_scope with m.
Notation "x <-- m ;; k" := (bind m (fun x => k))
  (at level 100, m at next level, right associativity) : m_scope.
Notation "m ;;; k" := (bind m (fun _ => k))
  (at level 100, right associativity) : m_scope.
Local Open Scope m_scope.

(** ** Strings and paths *)

Definition slash : ascii := "/"%char.

(** ['/' in s] *)
Fixpoint has_slash (s : string) : bool :=
  match s with
  | EmptyString => false
  | String a s' => if Ascii.eqb a slash then true else has_slash s'
  end.

Definition startswith_slash (s : string) : bool :=
  match s with
  | String a _ => Ascii.eqb a slash
  | EmptyString => false
  end.

Fixpoint endswith_slash (s : string) : bool :=
  match s with
  | EmptyString => false
  | String a EmptyString => Ascii.eqb a slash
  | String _ s' => endswith_slash s'
  end.

(** [s.rstrip('/')] *)
Fixpoint rstrip_slash (s : string) : string :=
  match s with
  | EmptyString => EmptyString
  | String a s' =>
      match rstrip_slash s' with
      | EmptyString => if Ascii.eqb a slash then EmptyString else String a EmptyString
      | t => String a t
      end
  end.

(** [s.replace('/', sep)] *)
Fixpoint replace_slash (sep : string) (s : string) : string :=
  match s with
  | EmptyString => EmptyString
  | String a s' =>
      if Ascii.eqb a slash then sep ++ replace_slash sep s'
      else String a (replace_slash sep s')
  end.

(** [k[len(p):]] when [k.startswith(p)] *)
Fixpoint strip_prefix (p k : string) : option string :=
  match p, k with
  | EmptyString, _ => Some k
  | String a p', String b k' => if Ascii.eqb a b then strip_prefix p' k' else None
  | String _ _, EmptyString => None
  end.

Definition startswith (p s : string) : bool :=
  match strip_prefix p s with Some _ => true | None => false end.

Definition endswith (suffix s : string) : bool :=
  let n := String.length s in
  let m := String.length suffix in
  if Nat.leb m n then String.eqb (substring (n - m) m s) suffix else false.

(** [posixpath.join(a, b)] *)
Definition os_path_join (a b : string) : string :=
  if startswith_slash b then b
  else if String.eqb a "" || endswith_slash a then a ++ b
  else a ++ "/" ++ b.

(** The part of a path after its last slash, and the part before it. *)
Fixpoint split_last_slash (s : string) : string * string :=
  match s with
  | EmptyString => (EmptyString, EmptyString)
  | String a s' =>
      let '(h, t) := split_last_slash s' in
      if has_slash s' then (String a h, t)
      else if Ascii.eqb a slash then (String a EmptyString, s')
      else (EmptyString, String a s')
  end.

Definition os_path_basename (p : string) : string := snd (split_last_slash p).

(** [posixpath.dirname]: the head, without its trailing slashes unless it is
    made of slashes only. *)
Definition os_path_dirname (p : string) : string :=
  let h := fst (split_last_slash p) in
  match rstrip_slash h with
  | EmptyString => h
  | h' => h'
  end.

Definition backslash : ascii := Ascii.ascii_of_nat 92.

Definition is_letter (a : ascii) : bool :=
  let n := Ascii.nat_of_ascii a in
  (Nat.leb 65 n && Nat.leb n 90) || (Nat.leb 97 n && Nat.leb n 122).

(** [a.lower()] of one character. *)
Definition lower (a : ascii) : ascii :=
  let n := Ascii.nat_of_ascii a in
  if Nat.leb 65 n && Nat.leb n 90 then Ascii.ascii_of_nat (n + 32) else a.

(** [re.match(r'^[a-zA-Z]\:\\.*', p)] *)
Definition has_drive (p : string) : bool :=
  match p with
  | String a (String b (String c _)) =>
      is_letter a && Ascii.eqb b ":"%char && Ascii.eqb c backslash
  | _ => false
  end.

(** [re.match(r'^https?://.+$', s)]: the scheme, then at least one character
    and no newline before the end, a single final newline apart. *)
Definition newline : ascii := Ascii.ascii_of_nat 10.

Fixpoint dot_plus_dollar (s : string) : bool :=
  match s with
  | EmptyString => false
  | String a EmptyString => negb (Ascii.eqb a newline)
  | String a (String b EmptyString) =>
      negb (Ascii.eqb a newline)
  | String a s' => negb (Ascii.eqb a newline) && dot_plus_dollar s'
  end.

Definition is_http_url (s : string) : bool :=
  match strip_prefix "http://" s with
  | Some rest => dot_plus_dollar rest
  | None =>
      match strip_prefix "https://" s with
      | Some rest => dot_plus_dollar rest
      | None => false
      end
  end.

(** ** The file system *)

(** What [json.load(open(f))] makes of a regular file: an array of strings
    (the format [Cache.save] writes), a [ValueError] on text that is not
    JSON, an [IOError] on a file that cannot be read. *)
Inductive json_doc : Type :=
| Parsed (ids : list string)
| Malformed
| Unreadable.

(** A symbolic link is a leaf: its target is not followed, so [exists],
    [isfile], [isdir] and [stat] see it as a dangling link. *)
Inductive node : Type :=
| File (size : N) (doc : json_doc)
| Dir (size : N)
| Symlink (target : string).

(** A path names the same file with or without trailing slashes. *)
Definition norm (p : string) : string :=
  match rstrip_slash p with
  | EmptyString => p
  | q => q
  end.

Definition lookup_path (fs : gmap string node) (p : string) : option node :=
  fs !! norm p.

Definition os_path_exists (fs : gmap string node) (p : string) : bool :=
  match lookup_path fs p with
  | Some (File _ _) | Some (Dir _) => true
  | _ => false
  end.

Definition os_path_isfile (fs : gmap string node) (p : string) : bool :=
  match lookup_path fs p with
  | Some (File _ _) => true
  | _ => false
  end.

Definition os_path_isdir (fs : gmap string node) (p : string) : bool :=
  match lookup_path fs p with
  | Some (Dir _) => true
  | _ => false
  end.

(** [os.stat(p).st_size]; [None] is [OSError]. *)
Definition os_stat_size (fs : gmap string node) (p : string) : option N :=
  match lookup_path fs p with
  | Some (File n _) => Some n
  | Some (Dir n) => Some n
  | _ => None
  end.

(** [os.remove(p)]; [None] is [OSError] (no such file, or a directory). *)
Definition os_remove (p : string) (fs : gmap string node) : option (gmap string node) :=
  match lookup_path fs p with
  | Some (File _ _) | Some (Symlink _) => Some (delete (norm p) fs)
  | _ => None
  end.

(** The prefix that the entries of directory [d] share. *)
Definition dir_prefix (d : string) : string :=
  if String.eqb d "" || endswith_slash d then d else d ++ "/".

Definition child_name (d k : string) : option string :=
  match strip_prefix (dir_prefix (norm d)) k with
  | Some n => if String.eqb n "" || has_slash n then None else Some n
  | None => None
  end.

(** [os.listdir(d)], in the order of the map's keys. *)
Definition os_listdir (fs : gmap string node) (d : string) : list string :=
  omap (child_name d) (map fst (map_to_list fs)).

(** [os.makedirs(d)]; [None] is [OSError] (the path is taken).  A directory
    entry stands for the path and the ancestors it needs. *)
Definition os_makedirs (dir_size : N) (d : string) (fs : gmap string node)
    : option (gmap string node) :=
  match lookup_path fs d with
  | None => Some (<[norm d := Dir dir_size]> fs)
  | Some _ => None
  end.

(** [open(p, 'wb')] then a write; [None] is [IOError] (a directory).  A
    write through a symbolic link leaves a regular file to be seen at [p]. *)
Definition write_file (p : string) (n : node) (fs : gmap string node)
    : option (gmap string node) :=
  match lookup_path fs p with
  | Some (Dir _) => None
  | _ => Some (<[norm p := n]> fs)
  end.

(** [shutil.copy(src, dst)]: into [dst] when it is a directory; [None] is
    [IOError]. *)
Definition shutil_copy (src dst : string) (fs : gmap string node)
    : option (gmap string node) :=
  match lookup_path fs src with
  | Some (File n d) =>
      if os_path_isdir fs dst
      then write_file (os_path_join dst (os_path_basename src)) (File n d) fs
      else write_file dst (File n d) fs
  | _ => None
  end.

(** [os.symlink(target, dst)]; [None] is [OSError]. *)
Definition os_symlink (target dst : string) (fs : gmap string node)
    : option (gmap string node) :=
  match lookup_path fs dst with
  | None => Some (<[norm dst := Symlink target]> fs)
  | Some _ => None
  end.

(** The paths [shutil.rmtree(root)] deletes: [root] and all below it. *)
Definition under (root p : string) : bool :=
  String.eqb p (norm root) || startswith (dir_prefix (norm root)) p.

Definition remove_tree (root : string) (fs : gmap string node) : gmap string node :=
  filter (fun kv => under root (fst kv) = false) fs.

(** ** The environment and the world *)

Inductive level : Type := DEBUG | INFO | WARN | ERROR.

(** The messages of the script, without their formatting. *)
Inductive message : Type :=
| Mapping (infile outfile : string)
| FailedToHardlink (infile outfile : string)
| SubprocessOutliving (delay : Z)
| FailedToDownload (url : string)
| BrokenStateFile
| Statistics (added removed : list (string * N))
| Trimming (filename : string) (size : N)
| ErrorDeleting
| RemovingLostFile (filename : string)
| UnknownFile (filename : string)
| FileMissing (state : list string)
| NotPlaced (item : string)
| Profiling (name : string)
| NoFileToMap
| NoCommandToRun
| Running (cmd : list string) (cwd : string)
| FailedToRun (cmd : list string) (cwd : string).

Inductive event : Type :=
| Log (lvl : level) (m : message)
| Stderr (m : message)
| DownloadOrCopy (url dest : string)
| HardLinked (src dst : string)
| SymLinked (target dst : string)
| Copied (src dst : string)
| Chmod (path : string) (mode : Z)
| MakeWritable (root : string) (read_only : bool)
| Slept (seconds : Z)
| Spawned (cmd : list string) (cwd : string).

Inductive call_outcome : Type :=
| Exited (code : Z)
| SpawnFailed.

Record Properties : Type := {
  sha_1 : option string;
  link : option string;
  mode : option Z
}.

Record Manifest : Type := {
  files : option (list (string * Properties));
  command : option (list string);
  relative_cwd : option string;
  read_only : bool
}.

Inductive manifest_outcome : Type :=
| Loaded (m : Manifest)
| LoadIOError
| LoadValueError.

(** What the script takes from outside. *)
Record Env : Type := {
  (** [sys.platform == 'win32'] *)
  win32 : bool;
  (** [sys.executable] *)
  sys_executable : string;
  (** [get_free_space(path)], the free bytes, on the present file system *)
  get_free_space : gmap string node -> string -> Z;
  (** the length of [json.dumps(state, separators=(',',':'))] *)
  json_size : list string -> N;
  (** [st_size] of a directory just made *)
  dir_size : N;
  (** what an HTTP GET of the url yields; [None] is [IOError] *)
  urlretrieve : string -> option (N * json_doc);
  (** whether the platform lets [source] be hard-linked at [link_name] *)
  can_link : string -> string -> bool;
  (** [subprocess.call(cmd, cwd=cwd)] *)
  subprocess_call : list string -> string -> call_outcome;
  (** [tempfile.gettempdir()] *)
  gettempdir : string;
  (** [os.stat(p1).st_dev == os.stat(p2).st_dev] *)
  same_device : string -> string -> bool;
  (** the name [tempfile.mkdtemp(prefix, dir)] picks; [dir] is optional *)
  mkdtemp_name : string -> option string -> string;
  (** [os.path.abspath] *)
  os_path_abspath : string -> string;
  (** [json.load(open_remote(ref))] *)
  load_manifest : string -> manifest_outcome
}.

Record World : Type := {
  fs : gmap string node;
  trace : list event;
  (** how many of the coming [shutil.rmtree] calls fail, a process
      outliving the test holding the files *)
  outliving : nat
}.

Definition set_fs (f : gmap string node) (w : World) : World :=
  {| fs := f; trace := trace w; outliving := outliving w |}.

Definition emit (e : event) : M World unit :=
  modify (fun w => {| fs := fs w; trace := trace w ++ [e]; outliving := outliving w |}).

Definition logging (lvl : level) (m : message) : M World unit := emit (Log lvl m).

(** A file system call: [err] is raised when it fails. *)
Definition syscall (err : exn) (f : gmap string node -> option (gmap string node))
    : M World unit :=
  fun w => match f (fs w) with
           | Some fs' => (set_fs fs' w, Ok tt)
           | None => (w, Raise err)
           end.

Definition is_OSError (e : exn) : bool :=
  match e with OSError | MappingError => true | _ => false end.
Definition is_IOError (e : exn) : bool :=
  match e with IOError => true | _ => false end.
Definition is_ValueError (e : exn) : bool :=
  match e with ValueError => true | _ => false end.

Fixpoint for_each {S A} (l : list A) (body : A -> M S unit) : M S unit :=
  match l with
  | [] => ret tt
  | x :: l' => body x ;;; for_each l' body
  end.

(** [while cond: body], at most [fuel] times; each loop of [trim] pops an
    entry per turn and gets the length of the list, and one more where the
    last turn raises. *)
Fixpoint while_loop {S} (fuel : nat) (cond : S -> bool) (body : M S unit) : M S unit :=
  match fuel with
  | O => ret tt
  | Datatypes.S n =>
      fun s => if cond s then (body ;;; while_loop n cond body) s else (s, Ok tt)
  end.

(** ** Free functions of the script *)

(** Types of action accepted by [link_file]. *)
Definition HARDLINK : Z := 1.
Definition SYMLINK : Z := 2.
Definition COPY : Z := 3.

Section Script.
Context (env : Env).

(** [os_link]: a hard link of a regular file at a free name; [CreateHardLinkW]
    returning zero and [os.link] failing both end in [OSError]. *)
Definition os_link (source link_name : string) : M World unit :=
  syscall OSError (fun fs =>
    match lookup_path fs source, lookup_path fs link_name with
    | Some (File n d), None =>
        if can_link env source link_name
        then Some (<[norm link_name := File n d]> fs)
        else None
    | _, _ => None
    end) ;;;
  emit (HardLinked source link_name).

Definition copy (src dst : string) : M World unit :=
  syscall IOError (shutil_copy src dst) ;;; emit (Copied src dst).

Definition symlink (target dst : string) : M World unit :=
  syscall OSError (os_symlink target dst) ;;; emit (SymLinked target dst).

Definition link_file (outfile infile : string) (action : Z) : M World unit :=
  logging DEBUG (Mapping infile outfile) ;;;
  if negb (Z.eqb action HARDLINK || Z.eqb action SYMLINK || Z.eqb action COPY)
  then raise ValueError
  else
    w <-- get ;;
    if negb (os_path_isfile (fs w) infile) then raise MappingError
    else if os_path_isfile (fs w) outfile then raise MappingError
    else if Z.eqb action COPY then copy infile outfile
    else if Z.eqb action SYMLINK && negb (win32 env) then symlink infile outfile
    else
      try_except (os_link infile outfile) is_OSError (fun _ =>
        logging WARN (FailedToHardlink infile outfile) ;;;
        copy infile outfile).

(** [make_writable]: the permission bits are not part of a node, the call is
    recorded. *)
Definition make_writable (root : string) (read_only : bool) : M World unit :=
  emit (MakeWritable root read_only).

(** One [shutil.rmtree(root)]: it fails while a process outliving the test
    holds the files, and on a root that is not a directory. *)
Definition shutil_rmtree (root : string) : M World unit :=
  fun w =>
    match outliving w with
    | Datatypes.S n => ({| fs := fs w; trace := trace w; outliving := n |}, Raise OSError)
    | O =>
        if os_path_isdir (fs w) root
        then (set_fs (remove_tree root (fs w)) w, Ok tt)
        else (w, Raise OSError)
    end.

(** The three attempts on Windows: [for i in range(3)] from [i]. *)
Fixpoint rmtree_attempts (root : string) (i : Z) (left : nat) : M World unit :=
  match left with
  | O => ret tt
  | Datatypes.S left' =>
      try_except (shutil_rmtree root) is_OSError (fun _ =>
        let delay := ((i + 1) * 2)%Z in
        emit (Stderr (SubprocessOutliving delay)) ;;;
        emit (Slept delay) ;;;
        rmtree_attempts root (i + 1) left')
  end.

Definition rmtree (root : string) : M World unit :=
  make_writable root false ;;;
  if win32 env then rmtree_attempts root 0 3
  else shutil_rmtree root.

(** [os.path.isabs]: [ntpath] drops the drive and takes both slashes. *)
Definition os_path_isabs (p : string) : bool :=
  if win32 env then
    match (match p with
           | String _ (String colon rest) =>
               if Ascii.eqb colon ":"%char then rest else p
           | _ => p
           end) with
    | String a _ => Ascii.eqb a slash || Ascii.eqb a backslash
    | EmptyString => false
    end
  else startswith_slash p.

Definition is_same_filesystem (path1 path2 : string) : M World bool :=
  if negb (os_path_isabs path1) then raise AssertionError
  else if negb (os_path_isabs path2) then raise AssertionError
  else if win32 env then
    (* If the drive letter mismatches, assume it's a separate partition. *)
    if negb (has_drive path1) then raise AssertionError
    else if negb (has_drive path2) then raise AssertionError
    else
      match path1, path2 with
      | String a _, String b _ =>
          if negb (Ascii.eqb (lower a) (lower b)) then ret false
          else ret (same_device env path1 path2)
      | _, _ => raise IndexError
      end
  else ret (same_device env path1 path2).

Definition download_or_copy (file_or_url dest : string) : M World unit :=
  emit (DownloadOrCopy file_or_url dest) ;;;
  if is_http_url file_or_url then
    try_except
      (match urlretrieve env file_or_url with
       | Some (n, d) => syscall IOError (write_file dest (File n d))
       | None => raise IOError
       end)
      is_IOError
      (fun _ => logging ERROR (FailedToDownload file_or_url))
  else copy file_or_url dest.

(** [json.load(open(p, 'r'))] *)
Definition json_load (p : string) : M World (list string) :=
  w <-- get ;;
  match lookup_path (fs w) p with
  | Some (File _ (Parsed ids)) => ret ids
  | Some (File _ Malformed) => raise ValueError
  | _ => raise IOError
  end.

Definition fix_python_path (cmd : list string) : result (list string) :=
  match cmd with
  | [] => Raise IndexError
  | c0 :: rest =>
      if String.eqb c0 "python" then Ok (sys_executable env :: rest)
      else if endswith ".py" c0 then Ok (sys_executable env :: c0 :: rest)
      else Ok (c0 :: rest)
  end.

(** ** The cache *)

Definition STATE_FILE : string := "state.json".

Record Cache : Type := {
  cache_dir : string;
  remote : string;
  max_cache_size : Z;
  min_free_space : Z;
  max_items : Z;
  (** The files, kept as an array in LRU style: [state[0]] is the oldest. *)
  state : list string;
  (** Profiling values; [time_retrieving_files] is a clock reading and is
      left out. *)
  files_added : list (string * N);
  files_removed : list (string * N)
}.

Definition state_file (c : Cache) : string := os_path_join (cache_dir c) STATE_FILE.

(** [Cache.path] *)
Definition path (c : Cache) (item : string) : string := os_path_join (cache_dir c) item.

Definition set_state (l : list string) (c : Cache) : Cache :=
  {| cache_dir := cache_dir c; remote := remote c;
     max_cache_size := max_cache_size c; min_free_space := min_free_space c;
     max_items := max_items c; state := l;
     files_added := files_added c; files_removed := files_removed c |}.

Definition add_file_added (x : string * N) (c : Cache) : Cache :=
  {| cache_dir := cache_dir c; remote := remote c;
     max_cache_size := max_cache_size c; min_free_space := min_free_space c;
     max_items := max_items c; state := state c;
     files_added := files_added c ++ [x]; files_removed := files_removed c |}.

Definition add_file_removed (x : string * N) (c : Cache) : Cache :=
  {| cache_dir := cache_dir c; remote := remote c;
     max_cache_size := max_cache_size c; min_free_space := min_free_space c;
     max_items := max_items c; state := state c;
     files_added := files_added c; files_removed := files_removed c ++ [x] |}.

(** A method runs on the object and the world. *)
Definition self : M (Cache * World) Cache := fun s => (s, Ok (fst s)).
Definition world : M (Cache * World) World := fun s => (s, Ok (snd s)).
Definition update (f : Cache -> Cache) : M (Cache * World) unit :=
  fun s => ((f (fst s), snd s), Ok tt).
Definition io {A} (m : M World A) : M (Cache * World) A :=
  fun s => match m (snd s) with (w', r) => ((fst s, w'), r) end.

(** [l.index(x)]; [None] is [ValueError]. *)
Fixpoint list_index (x : string) (l : list string) : option nat :=
  match l with
  | [] => None
  | y :: l' => if String.eqb y x then Some O
               else option_map Datatypes.S (list_index x l')
  end.

(** [l.pop(i)] for an index in range. *)
Fixpoint list_pop (i : nat) (l : list string) : list string :=
  match l, i with
  | [], _ => []
  | _ :: l', O => l'
  | y :: l', Datatypes.S i' => y :: list_pop i' l'
  end.

(** [l.remove(x)]: the first occurrence; [None] is [ValueError]. *)
Fixpoint list_remove (x : string) (l : list string) : option (list string) :=
  match l with
  | [] => None
  | y :: l' => if String.eqb y x then Some l'
               else option_map (cons y) (list_remove x l')
  end.

(** [x in l] *)
Definition list_mem (x : string) (l : list string) : bool :=
  existsb (String.eqb x) l.

Definition sum_sizes (sizes : list N) : Z :=
  fold_right (fun n acc => (Z.of_N n + acc)%Z) 0%Z sizes.

(** [with Profiler(name): body]; the time taken is not modelled. *)
Definition with_Profiler {S A} (lift : M World unit -> M S unit) (name : string)
    (body : M S A) : M S A :=
  try_finally body (lift (logging INFO (Profiling name))).

Definition save : M (Cache * World) unit :=
  c <-- self ;;
  io (syscall IOError
        (write_file (state_file c) (File (json_size env (state c)) (Parsed (state c))))).

Definition remove_lru_file : M (Cache * World) unit :=
  c <-- self ;;
  match state c with
  | [] => raise IndexError
  | filename :: rest =>
      update (set_state rest) ;;;
      try_except
        (let full_path := path c filename in
         w <-- world ;;
         match os_stat_size (fs w) full_path with
         | None => raise OSError
         | Some size =>
             io (logging INFO (Trimming filename size)) ;;;
             update (add_file_removed (filename, size)) ;;;
             io (syscall OSError (os_remove full_path))
         end)
        is_OSError
        (fun _ => io (logging ERROR ErrorDeleting))
  end.

(** The sizes of the files of [l]; [None] when one is missing. *)
Fixpoint stat_sizes (fs : gmap string node) (c : Cache) (l : list string)
    : option (list N) :=
  match l with
  | [] => Some []
  | f :: l' =>
      match os_stat_size fs (path c f) with
      | None => None
      | Some n => option_map (cons n) (stat_sizes fs c l')
      end
  end.

(** [while sizes and sum(sizes) > max_cache_size] *)
Fixpoint trim_sizes (sizes : list N) : M (Cache * World) unit :=
  match sizes with
  | [] => ret tt
  | _ :: sizes' =>
      c <-- self ;;
      if (sum_sizes sizes >? max_cache_size c)%Z
      then remove_lru_file ;;; trim_sizes sizes'
      else ret tt
  end.

(** The blocks of [Cache.trim], in the order of the source. *)

Definition drop_if_lost (filename : string) : M (Cache * World) unit :=
  c <-- self ;;
  w <-- world ;;
  if negb (os_path_exists (fs w) (path c filename)) then
    io (logging INFO (RemovingLostFile filename)) ;;;
    match list_remove filename (state c) with
    | Some l => update (set_state l)
    | None => raise ValueError
    end
  else ret tt.

(** Ensure that all files listed in the state still exist. *)
Definition drop_lost_files : M (Cache * World) unit :=
  c <-- self ;;
  for_each (state c) drop_if_lost.

Definition absorb_if_unknown (filename : string) : M (Cache * World) unit :=
  c <-- self ;;
  if String.eqb filename STATE_FILE || list_mem filename (state c) then ret tt
  else
    io (logging WARN (UnknownFile filename)) ;;;
    (* Insert as the oldest file. It will be deleted eventually if not
       accessed. *)
    update (set_state (filename :: state c)).

(** The files of the directory that the state does not list. *)
Definition absorb_unknown_files : M (Cache * World) unit :=
  c <-- self ;;
  w <-- world ;;
  for_each (os_listdir (fs w) (cache_dir c)) absorb_if_unknown.

Definition lacks_free_space (s : Cache * World) : bool :=
  negb (Z.eqb (min_free_space (fst s)) 0)
  && negb (Nat.eqb (length (state (fst s))) 0)
  && (get_free_space env (fs (snd s)) (cache_dir (fst s)) <? min_free_space (fst s))%Z.

(** Ensure enough free space. *)
Definition ensure_free_space : M (Cache * World) unit :=
  c <-- self ;;
  while_loop (length (state c)) lacks_free_space remove_lru_file.

(** Ensure maximum cache size. *)
Definition ensure_max_cache_size : M (Cache * World) unit :=
  c <-- self ;;
  if negb (Z.eqb (max_cache_size c) 0) && negb (Nat.eqb (length (state c)) 0) then
    w <-- world ;;
    match stat_sizes (fs w) c (state c) with
    | None => io (logging ERROR (FileMissing (state c))) ;;; raise OSError
    | Some sizes => trim_sizes sizes
    end
  else ret tt.

Definition too_many_items (s : Cache * World) : bool :=
  (Z.of_nat (length (state (fst s))) >? max_items (fst s))%Z.

(** Ensure maximum number of items in the cache. *)
Definition ensure_max_items : M (Cache * World) unit :=
  c <-- self ;;
  if negb (Z.eqb (max_items c) 0) && negb (Nat.eqb (length (state c)) 0) then
    while_loop (Datatypes.S (length (state c))) too_many_items remove_lru_file
  else ret tt.

Definition trim : M (Cache * World) unit :=
  drop_lost_files ;;;
  absorb_unknown_files ;;;
  ensure_free_space ;;;
  ensure_max_cache_size ;;;
  ensure_max_items ;;;
  save.

(** The [try] block of [retrieve]: the id is in the list. *)
Definition touch_resident (item : string) : M (Cache * World) bool :=
  c <-- self ;;
  match list_index item (state c) with
  | None => raise ValueError
  | Some index =>
      (* Was already in cache. Update it's LRU value. *)
      update (set_state (list_pop index (state c))) ;;;
      c <-- self ;;
      update (set_state (state c ++ [item])) ;;;
      ret false
  end.

(** The [except ValueError] block of [retrieve]: the id is not in the list. *)
Definition fetch_missing (item : string) : M (Cache * World) bool :=
  c <-- self ;;
  let out := path c item in
  io (download_or_copy (rstrip_slash (remote c) ++ "/" ++ item) out) ;;;
  w <-- world ;;
  (if os_path_exists (fs w) out then
     c <-- self ;;
     update (set_state (state c ++ [item])) ;;;
     match os_stat_size (fs w) out with
     | Some n => update (add_file_added (out, n))
     | None => raise OSError
     end
   else io (logging ERROR (NotPlaced item))) ;;;
  ret true.

Definition retrieve (item : string) : M (Cache * World) bool :=
  if has_slash item then raise AssertionError
  else
    try_finally
      (try_except (touch_resident item) is_ValueError (fun _ => fetch_missing item))
      save.

(** [Cache.__init__] *)
Definition Cache__init__ (cache_dir remote : string)
    (max_cache_size min_free_space max_items : Z) : M World Cache :=
  fun w0 =>
    let c0 := {| cache_dir := cache_dir; remote := remote;
                 max_cache_size := max_cache_size;
                 min_free_space := min_free_space; max_items := max_items;
                 state := []; files_added := []; files_removed := [] |} in
    let body : M (Cache * World) unit :=
      w <-- world ;;
      (if negb (os_path_isdir (fs w) cache_dir)
       then io (syscall OSError (os_makedirs (dir_size env) cache_dir))
       else ret tt) ;;;
      w <-- world ;;
      (if os_path_isfile (fs w) (state_file c0) then
         try_except
           (ids <-- io (json_load (state_file c0)) ;;
            update (set_state ids))
           (fun e => is_IOError e || is_ValueError e)
           (fun _ =>
              (* Too bad. The file will be overwritten and the cache cleared. *)
              io (logging ERROR BrokenStateFile))
       else ret tt) ;;;
      with_Profiler io "SetupTrimming" trim in
    match body (c0, w0) with
    | ((c, w), Ok _) => (w, Ok c)
    | ((_, w), Raise e) => (w, Raise e)
    end.

(** [Cache.__exit__]; its nine log lines are one [Statistics] event. *)
Definition Cache__exit__ : M (Cache * World) unit :=
  with_Profiler io "CleanupTrimming" trim ;;;
  c <-- self ;;
  io (logging INFO (Statistics (files_added c) (files_removed c))).

(** ** The runner *)

Definition make_temp_dir (prefix root_dir : string) : M World string :=
  same <-- is_same_filesystem root_dir (gettempdir env) ;;
  let base_temp_dir := if same then None else Some (os_path_dirname root_dir) in
  let name := mkdtemp_name env prefix base_temp_dir in
  syscall OSError (os_makedirs (dir_size env) name) ;;;
  ret name.

Definition os_path_sep : string := if win32 env then "\" else "/".

(** One entry of [manifest['files']]. *)
Definition map_entry (outdir : string) (entry : string * Properties)
    : M (Cache * World) unit :=
  let '(filepath, properties) := entry in
  let outfile := os_path_join outdir filepath in
  let outfiledir := os_path_dirname outfile in
  w <-- world ;;
  (if negb (os_path_isdir (fs w) outfiledir)
   then io (syscall OSError (os_makedirs (dir_size env) outfiledir))
   else ret tt) ;;;
  (match sha_1 properties, link properties with
   | Some infile, _ =>
       (* A normal file. *)
       retrieve infile ;;;
       c <-- self ;;
       io (link_file outfile (path c infile) HARDLINK)
   | None, Some target =>
       (* A symlink; [os.symlink] is not there on Windows. *)
       if win32 env then raise AttributeError
       else io (symlink target outfile)
   | None, None => raise ValueError
   end) ;;;
  match mode properties with
  | Some m => io (emit (Chmod outfile m))
  | None => ret tt
  end.

(** [subprocess.call]: the child leaves the file system as it is. *)
Definition call (cmd : list string) (cwd : string) : M World Z :=
  match subprocess_call env cmd cwd with
  | Exited code => emit (Spawned cmd cwd) ;;; ret code
  | SpawnFailed => raise OSError
  end.

Definition run_tha_test (manifest : Manifest) (cache_dir remote : string)
    (max_cache_size min_free_space max_items : Z) : M World Z :=
  fun w0 =>
    match Cache__init__ cache_dir remote max_cache_size min_free_space max_items w0 with
    | (w1, Raise e) => (w1, Raise e)
    | (w1, Ok cache) =>
        let body : M (Cache * World) Z :=
          outdir <-- io (make_temp_dir "run_tha_test" cache_dir) ;;
          match files manifest with
          | None => io (emit (Stderr NoFileToMap)) ;;; ret 1%Z
          | Some manifest_files =>
          match command manifest with
          | None => io (emit (Stderr NoCommandToRun)) ;;; ret 1%Z
          | Some manifest_command =>
              try_finally
                (with_Profiler io "GetFiles"
                   (for_each manifest_files (map_entry outdir)) ;;;
                 let cwd := os_path_join outdir
                              (match relative_cwd manifest with
                               | Some d => d
                               | None => ""
                               end) in
                 w <-- world ;;
                 (if negb (os_path_isdir (fs w) cwd)
                  then io (syscall OSError (os_makedirs (dir_size env) cwd))
                  else ret tt) ;;;
                 (if read_only manifest then io (make_writable outdir true)
                  else ret tt) ;;;
                 match manifest_command with
                 | [] => raise IndexError
                 | c0 :: args =>
                     (* Ensure paths are correctly separated on windows. *)
                     let cmd := replace_slash os_path_sep c0 :: args in
                     match fix_python_path cmd with
                     | Raise e => raise e
                     | Ok cmd =>
                         io (logging INFO (Running cmd cwd)) ;;;
                         try_except
                           (with_Profiler io "RunTest" (io (call cmd cwd)))
                           is_OSError
                           (fun e =>
                              io (emit (Stderr (FailedToRun cmd cwd))) ;;;
                              raise e)
                     end
                 end)
                (io (rmtree outdir))
          end
          end in
        match try_finally body Cache__exit__ (cache, w1) with
        | ((_, w2), r) => (w2, r)
        end
    end.

(** The options [optparse] hands to [main]; an option not given is [None]. *)
Record Options : Type := {
  verbose : nat;
  no_run : bool;
  opt_manifest : option string;
  opt_hash : option string;
  opt_remote : option string;
  opt_cache : string;
  opt_max_cache_size : Z;
  opt_min_free_space : Z;
  opt_max_items : Z
}.

(** [bool(s)] of an optional string. *)
Definition truthy (o : option string) : bool :=
  match o with
  | Some s => negb (String.eqb s "")
  | None => false
  end.

Definition from_option (o : option string) : string :=
  match o with Some s => s | None => "" end.

(** [parser.error]: the message goes to stderr and the process exits with 2. *)
Definition parser_error {A} : M World A := raise (SystemExit 2).

Definition main (options : Options) (args : list string) : M World Z :=
  if Bool.eqb (truthy (opt_manifest options)) (truthy (opt_hash options))
  then parser_error
  else if negb (truthy (opt_remote options)) then parser_error
  else if negb (Nat.eqb (length args) 0) then parser_error
  else
    let remote := from_option (opt_remote options) in
    let manifest_ref :=
      if truthy (opt_hash options)
      then (rstrip_slash remote ++ "/" ++ from_option (opt_hash options))%string
      else from_option (opt_manifest options) in
    match load_manifest env manifest_ref with
    | LoadIOError => parser_error
    | LoadValueError => raise ValueError
    | Loaded manifest =>
        run_tha_test manifest (os_path_abspath env (opt_cache options)) remote
          (opt_max_cache_size options) (opt_min_free_space options)
          (opt_max_items options)
    end.

End Script.

(** ** The write bit *)

(** [stat.S_ISLNK(mode)]: the file type bits are those of a link. *)
Definition S_IFMT : Z := 61440.   (* 0170000 *)
Definition S_IFLNK : Z := 40960.  (* 0120000 *)
Definition S_ISLNK (mode : Z) : bool := Z.eqb (Z.land mode S_IFMT) S_IFLNK.

(** The call in which [_set_write_bit] ends. *)
Inductive chmod_call : Type :=
| os_lchmod (mode : Z)
| skip_symlink
| os_chmod (mode : Z).

(** [_set_write_bit] on a path whose [os.lstat(path).st_mode] is [st_mode];
    [has_lchmod] is [hasattr(os, 'lchmod')].  The masks are 0500 and 0200. *)
Definition _set_write_bit (has_lchmod : bool) (st_mode : Z) (read_only : bool)
    : chmod_call :=
  let mode := if read_only then Z.land st_mode 320 else Z.lor st_mode 128 in
  if has_lchmod then os_lchmod mode
  else if S_ISLNK mode then
    (* Skip symlink without lchmod() support. *)
    skip_symlink
  else os_chmod mode.

(** ** Reference points of the proofs *)

(** The state file as [save] leaves it. *)
Definition saved (env : Env) (c : Cache) (w : World) : World :=
  set_fs (<[norm (state_file c) :=
              File (json_size env (state c)) (Parsed (state c))]> (fs w)) w.

(** The world with more events in its trace. *)
Definition logged (tr : list event) (w : World) : World :=
  {| fs := fs w; trace := trace w ++ tr; outliving := outliving w |}.

(** The arguments of the constructor, which no method changes. *)
Definition config (c : Cache) : string * string * Z * Z * Z :=
  (cache_dir c, remote c, max_cache_size c, min_free_space c, max_items c).

(** What evictions do to a cache: entries leave the list at its front and
    files leave the disk. *)
Definition dropped (s s' : Cache * World) : list string :=
  take (length (state (fst s)) - length (state (fst s'))) (state (fst s)).

Definition evicted (s s' : Cache * World) : Prop :=
  config (fst s') = config (fst s) /\
  state (fst s') `suffix_of` state (fst s) /\
  fs (snd s') ⊆ fs (snd s) /\
  (forall e, e ∈ files_removed (fst s') ->
             e ∈ files_removed (fst s) \/ fst e ∈ state (fst s)) /\
  (forall p v, fs (snd s) !! p = Some v ->
               fs (snd s') !! p = Some v \/
               exists g, g ∈ dropped s s' /\ p = norm (path (fst s) g)) /\
  trace (snd s) `prefix_of` trace (snd s').

(** The resident list once [trim] has dropped the lost files and taken in
    the unknown ones, before any eviction. *)
Definition absorb (names l : list string) : list string :=
  fold_left (fun l n => if String.eqb n STATE_FILE || list_mem n l then l else n :: l)
    names l.

Definition reconciled (c : Cache) (w : World) : list string :=
  absorb (os_listdir (fs w) (cache_dir c))
    (filter (fun f => os_path_exists (fs w) (path c f) = true) (state c)).

(** The size of a resident blob, nothing when the file is not there. *)
Definition blob_size (c : Cache) (w : World) (f : string) : Z :=
  match os_stat_size (fs w) (path c f) with
  | Some n => Z.of_N n
  | None => 0%Z
  end.

Definition sum_blobs (c : Cache) (w : World) (l : list string) : Z :=
  fold_right (fun f acc => (blob_size c w f + acc)%Z) 0%Z l.

Definition total_size (c : Cache) (w : World) : Z := sum_blobs c w (state c).

(** The object that [Cache.__init__] builds, with the list it has loaded. *)
Definition fresh (cache_dir remote : string)
    (max_cache_size min_free_space max_items : Z) (ids : list string) : Cache :=
  {| cache_dir := cache_dir; remote := remote; max_cache_size := max_cache_size;
     min_free_space := min_free_space; max_items := max_items;
     state := ids; files_added := []; files_removed := [] |}.

(** What [Cache.__init__] takes from the file at [p]: the list, and what it
    logs. *)
Definition loaded (w : World) (p : string) : list string * list event :=
  match lookup_path (fs w) p with
  | Some (File _ (Parsed ids)) => (ids, [])
  | Some (File _ _) => ([], [Log ERROR BrokenStateFile])
  | _ => ([], [])
  end.

(** The options with another [--no-run]. *)
Definition set_no_run (b : bool) (o : Options) : Options :=
  {| verbose := verbose o; no_run := b; opt_manifest := opt_manifest o;
     opt_hash := opt_hash o; opt_remote := opt_remote o; opt_cache := opt_cache o;
     opt_max_cache_size := opt_max_cache_size o;
     opt_min_free_space := opt_min_free_space o;
     opt_max_items := opt_max_items o |}.

(** A computation that takes every state to one related by [R], whatever
    its outcome. *)
Definition preserves {S A} (R : S -> S -> Prop) (m : M S A) : Prop :=
  forall s s' r, m s = (s', r) -> R s s'.

(** Directories stay, and the count of failing [rmtree] calls is the same. *)
Definition keeps_dirs (w w' : World) : Prop :=
  (forall k n, fs w !! k = Some (Dir n) -> fs w' !! k = Some (Dir n)) /\
  outliving w' = outliving w.

Definition keeps_dirs_of (s s' : Cache * World) : Prop :=
  keeps_dirs (snd s) (snd s') /\ config (fst s') = config (fst s).

(** What a computation returns, and what it raises. *)
Definition returns {S A} (P : A -> Prop) (m : M S A) : Prop :=
  forall s s' a, m s = (s', Ok a) -> P a.

Definition raises {S A} (Q : exn -> Prop) (m : M S A) : Prop :=
  forall s s' e, m s = (s', Raise e) -> Q e.

(** The exceptions of the script itself, [SystemExit] apart. *)
Definition is_exit (e : exn) : bool :=
  match e with SystemExit _ => true | _ => false end.

Definition no_exit (e : exn) : Prop := is_exit e = false.

(** The reference of the manifest that [main] loads. *)
Definition manifest_ref (options : Options) : string :=
  if truthy (opt_hash options)
  then (rstrip_slash (from_option (opt_remote options)) ++ "/"
        ++ from_option (opt_hash options))%string
  else from_option (opt_manifest options).

(** A file system without symbolic links.  The model takes every link for
    a dangling one; where no link is there, [os.path.exists], [os.stat]
    and [os.path.isfile] see what the model sees. *)
Definition no_symlinks (fs : gmap string node) : bool :=
  forallb (fun kv => match snd kv with Symlink _ => false | _ => true end)
    (map_to_list fs).

(** A path that [open] does not refuse on account of the file: it is not a
    file that cannot be read (as a rule such a file cannot be written
    either). *)
Definition can_open (fs : gmap string node) (p : string) : bool :=
  match lookup_path fs p with
  | Some (File _ Unreadable) => false
  | _ => true
  end.

(** The name of one entry of a directory: not empty, without a slash, and
    neither [.] nor [..], which name the directory and its parent. *)
Definition plain_name (f : string) : bool :=
  negb (String.eqb f "" || String.eqb f "." || String.eqb f ".." || has_slash f).

(** A cache on which the file system of the model is the one that the
    script sees: the cache directory is there (so that [os.listdir] lists
    it), no path is a symbolic link, the state file can be opened, and the
    entries of the list and of the directory are plain names. *)
Definition plain_cache (c : Cache) (w : World) : bool :=
  os_path_isdir (fs w) (cache_dir c)
  && no_symlinks (fs w)
  && can_open (fs w) (state_file c)
  && forallb plain_name (state c)
  && forallb plain_name (os_listdir (fs w) (cache_dir c)).

(** ** A concrete environment and some concrete worlds *)

Module Sample.

(** A manifest with one regular file, which is the script to run. *)
Definition one_script : Manifest :=
  {| files := Some [("x.py", {| sha_1 := Some "x"; link := None; mode := Some 488%Z |})];
     command := Some ["python"; "x.py"];
     relative_cwd := None;
     read_only := false |}.

(** The length of the JSON text of a list of plain names. *)
Definition json_length (l : list string) : N :=
  N.of_nat (2 + list_sum (map (fun s => 2 + String.length s) l) + pred (length l)).

(** A host: Windows or not, and whether it lets files be hard-linked. *)
Definition host (windows hard_links : bool) : Env := {|
  win32 := windows;
  sys_executable := "/usr/bin/python";
  get_free_space := fun _ _ => 1000%Z;
  json_size := json_length;
  dir_size := 4096%N;
  urlretrieve := fun _ => None;
  can_link := fun _ _ => hard_links;
  subprocess_call := fun _ _ => Exited 0;
  gettempdir := "/tmp";
  same_device := fun _ _ => true;
  mkdtemp_name := fun prefix dir =>
    os_path_join (match dir with Some d => d | None => "/tmp" end) (prefix ++ "k3J9")%string;
  os_path_abspath := fun p => p;
  load_manifest := fun ref =>
    if String.eqb ref "/m.json" then Loaded one_script else LoadIOError
|}.

Definition posix : Env := host false true.

Definition mk_world (l : list (string * node)) : World :=
  {| fs := list_to_map l; trace := []; outliving := O |}.

Definition mk_cache (max_cache_size min_free_space max_items : Z)
    (l : list string) : Cache :=
  {| cache_dir := "/c"; remote := "/r"; max_cache_size := max_cache_size;
     min_free_space := min_free_space; max_items := max_items;
     state := l; files_added := []; files_removed := [] |}.

(** A cache directory with two blobs and its state file. *)
Definition two_blobs : World :=
  mk_world [("/c", Dir 4096); ("/c/a", File 10 Malformed);
            ("/c/b", File 20 Malformed);
            ("/c/state.json", File 9 (Parsed ["a"; "b"]))].

(** A cache directory with its state file and nothing else. *)
Definition no_blob : World :=
  mk_world [("/c", Dir 4096); ("/c/state.json", File 2 (Parsed []))].

(** A cache whose remote is a web server that does not answer. *)
Definition web_cache (max_items : Z) (l : list string) : Cache :=
  {| cache_dir := "/c"; remote := "http://host/r"; max_cache_size := 0;
     min_free_space := 0; max_items := max_items;
     state := l; files_added := []; files_removed := [] |}.

(** A cache that lists its own state file, and a file it does not list. *)
Definition state_file_listed : World :=
  mk_world [("/c", Dir 4096); ("/c/x", File 0 Malformed);
            ("/c/state.json", File 14 (Parsed ["state.json"]))].

(** An empty cache directory next to a remote directory with one blob. *)
Definition remote_blob : World :=
  mk_world [("/c", Dir 4096); ("/r", Dir 4096); ("/r/x", File 7 Malformed);
            ("/tmp", Dir 4096)].

(** The command line [--manifest /m.json --remote /r --cache /c --no-run]. *)
Definition no_run_options : Options :=
  {| verbose := 0; no_run := true; opt_manifest := Some "/m.json";
     opt_hash := None; opt_remote := Some "/r"; opt_cache := "/c";
     opt_max_cache_size := 0; opt_min_free_space := 0; opt_max_items := 0 |}.

(** A manifest without its ['files'], and one without its ['command']. *)
Definition no_files : Manifest :=
  {| files := None; command := Some ["python"; "x.py"];
     relative_cwd := None; read_only := false |}.

Definition no_command : Manifest :=
  {| files := Some [("x.py", {| sha_1 := Some "x"; link := None; mode := None |})];
     command := None; relative_cwd := None; read_only := false |}.


(** A state file, edited by hand, that lists a file of a subdirectory. *)
Definition nested : World :=
  mk_world [("/c", Dir 4096); ("/c/a", Dir 4096);
            ("/c/a/b", File 10 Malformed);
            ("/c/state.json", File 7 (Parsed ["a/b"]))].

(** A state file, edited by hand, that lists a blob twice. *)
Definition listed_twice : World :=
  mk_world [("/c", Dir 4096); ("/c/a", File 10 Malformed);
            ("/c/state.json", File 9 (Parsed ["a"; "a"]))].


(** A cache with two blobs, a remote with one, and the temporary
    directory. *)
Definition with_tmp : World :=
  mk_world [("/c", Dir 4096); ("/c/a", File 10 Malformed);
            ("/c/b", File 20 Malformed);
            ("/c/state.json", File 9 (Parsed ["a"; "b"]));
            ("/r", Dir 4096); ("/r/x", File 7 Malformed);
            ("/tmp", Dir 4096)].


End Sample.

(** * Properties *)

(** ** Strings *)



Lemma append_nil_r (a : string) : (a ++ "" = a)%string.
Proof.
  induction a as [|x a IH]; [reflexivity|].
  change (String x (a ++ "") = String x a)%string. by rewrite IH.
Qed.


Lemma strip_prefix_Some (p k n : string) :
  strip_prefix p k = Some n -> k = (p ++ n)%string.
Proof.
  revert k. induction p as [|a p IH]; intros k H; simpl in H.
  - by injection H as ->.
  - destruct k as [|b k]; [discriminate|].
    destruct (Ascii.eqb a b) eqn:E; [|discriminate].
    apply Ascii.eqb_eq in E. subst b.
    change (String a k = String a (p ++ n))%string. by rewrite (IH k H).
Qed.





(** ** Python lists *)

Lemma list_mem_spec (x : string) (l : list string) :
  list_mem x l = true <-> x ∈ l.
Proof.
  unfold list_mem. rewrite existsb_exists. split.
  - intros (y & Hy & E). apply String.eqb_eq in E. subst.
    by apply list_elem_of_In.
  - intros H. exists x. split; [by apply list_elem_of_In | apply String.eqb_refl].
Qed.

Lemma list_mem_false (x : string) (l : list string) :
  list_mem x l = false <-> x ∉ l.
Proof.
  rewrite <- list_mem_spec. destruct (list_mem x l); split; congruence.
Qed.

(** [index] finds the first occurrence and [pop] takes it out. *)
Lemma list_index_pop (x : string) (l : list string) :
  x ∈ l ->
  exists l1 l2 i, l = l1 ++ x :: l2 /\ (x ∉ l1) /\
                  list_index x l = Some i /\ list_pop i l = l1 ++ l2.
Proof.
  induction l as [|y l IH]; intros Hin.
  - by apply elem_of_nil in Hin.
  - simpl. destruct (String.eqb y x) eqn:E.
    + apply String.eqb_eq in E. subst y.
      exists [], l, O. repeat split; auto. apply not_elem_of_nil.
    + apply String.eqb_neq in E.
      apply elem_of_cons in Hin. destruct Hin as [->|Hin]; [congruence|].
      destruct (IH Hin) as (l1 & l2 & i & -> & Hn & Hi & Hp).
      exists (y :: l1), l2, (Datatypes.S i). rewrite Hi. simpl. rewrite Hp.
      repeat split; auto.
      intros H. apply elem_of_cons in H. destruct H; [congruence | tauto].
Qed.

Lemma list_index_None (x : string) (l : list string) :
  list_index x l = None <-> x ∉ l.
Proof.
  induction l as [|y l IH]; simpl.
  - split; [intros _; apply not_elem_of_nil | done].
  - destruct (String.eqb y x) eqn:E.
    + apply String.eqb_eq in E. subst. split; [discriminate|].
      intros H. exfalso. apply H. left.
    + apply String.eqb_neq in E. rewrite not_elem_of_cons.
      destruct (list_index x l); simpl.
      * split; [discriminate|]. intros [_ H]. by apply IH in H.
      * split; [|done]. intros _. split; [congruence | by apply IH].
Qed.

Section Retrieve.
Context (env : Env).

Lemma save_ok (c : Cache) (w : World) :
  os_path_isdir (fs w) (state_file c) = false ->
  save env (c, w) = ((c, saved env c w), Ok tt).
Proof.
  intros H. unfold save, bind, self, io, syscall, write_file. simpl.
  unfold os_path_isdir in H.
  destruct (lookup_path (fs w) (state_file c)) as [[| |]|]; try discriminate; reflexivity.
Qed.

Lemma saved_isdir (c c' : Cache) (w : World) :
  cache_dir c' = cache_dir c ->
  os_path_isdir (fs (saved env c w)) (state_file c') = false.
Proof.
  intros E. unfold os_path_isdir, lookup_path, saved, state_file. simpl.
  rewrite E. by rewrite lookup_insert_eq.
Qed.

Lemma saved_lookup (c : Cache) (w : World) :
  lookup_path (fs (saved env c w)) (state_file c)
  = Some (File (json_size env (state c)) (Parsed (state c))).
Proof. unfold lookup_path, saved. simpl. by rewrite lookup_insert_eq. Qed.

(** One retrieval of a resident id. *)
Lemma retrieve_hit_step (c : Cache) (w : World) (item : string) :
  has_slash item = false ->
  item ∈ state c ->
  os_path_isdir (fs w) (state_file c) = false ->
  exists l1 l2,
    state c = l1 ++ item :: l2 /\ (item ∉ l1) /\
    retrieve env item (c, w)
    = ((set_state (l1 ++ l2 ++ [item]) c,
        saved env (set_state (l1 ++ l2 ++ [item]) c) w), Ok false).
Proof.
  intros Hs Hin Hd.
  destruct (list_index_pop item (state c) Hin) as (l1 & l2 & i & E & Hn & Hi & Hp).
  exists l1, l2. split; [exact E|]. split; [exact Hn|].
  unfold retrieve. rewrite Hs.
  unfold try_finally, try_except, touch_resident, bind, self, update. simpl.
  rewrite Hi. simpl. rewrite Hp.
  replace ((l1 ++ l2) ++ [item]) with (l1 ++ l2 ++ [item]) by (by rewrite app_assoc).
  rewrite save_ok; [reflexivity|]. exact Hd.
Qed.

(** C1, amended.  For a resident [item] without a slash, in a cache whose
    state file can be written, [retrieve] takes the first occurrence of
    [item] out of the list and appends it, returns [False], leaves the
    world as it was but for the state file, which now holds the new list
    (so the trace has no [DownloadOrCopy] and no other event), and a second
    call does the same: [item] is again the last of the list. *)
Theorem retrieve_resident (c : Cache) (w : World) (item : string) :
  has_slash item = false ->
  item ∈ state c ->
  os_path_isdir (fs w) (state_file c) = false ->
  exists c1 c2,
    retrieve env item (c, w) = ((c1, saved env c1 w), Ok false) /\
    (exists l1 l2, state c = l1 ++ item :: l2 /\ (item ∉ l1) /\
                   state c1 = l1 ++ l2 ++ [item]) /\
    trace (saved env c1 w) = trace w /\
    lookup_path (fs (saved env c1 w)) (state_file c1)
    = Some (File (json_size env (state c1)) (Parsed (state c1))) /\
    retrieve env item (c1, saved env c1 w)
    = ((c2, saved env c2 (saved env c1 w)), Ok false) /\
    last (state c2) = Some item /\
    trace (saved env c2 (saved env c1 w)) = trace w /\
    lookup_path (fs (saved env c2 (saved env c1 w))) (state_file c2)
    = Some (File (json_size env (state c2)) (Parsed (state c2))).
Proof.
  intros Hs Hin Hd.
  destruct (retrieve_hit_step c w item Hs Hin Hd) as (l1 & l2 & E & Hn & R1).
  set (c1 := set_state (l1 ++ l2 ++ [item]) c) in *.
  assert (Hin1 : item ∈ state c1).
  { simpl. rewrite !elem_of_app. right. right. by apply list_elem_of_singleton. }
  assert (Hd1 : os_path_isdir (fs (saved env c1 w)) (state_file c1) = false)
    by (by apply saved_isdir).
  destruct (retrieve_hit_step c1 (saved env c1 w) item Hs Hin1 Hd1)
    as (k1 & k2 & E1 & Hn1 & R2).
  exists c1, (set_state (k1 ++ k2 ++ [item]) c1).
  split; [exact R1|]. split; [by exists l1, l2|]. split; [reflexivity|].
  split; [apply saved_lookup|]. split; [exact R2|].
  split; [|split; [reflexivity | apply saved_lookup]].
  simpl. by rewrite !app_assoc, last_snoc.
Qed.


End Retrieve.

Lemma retrieve_resident_witness :
  exists c1 c2,
    retrieve Sample.posix "a" (Sample.mk_cache 0 0 0 ["a"; "b"], Sample.two_blobs)
    = ((c1, saved Sample.posix c1 Sample.two_blobs), Ok false) /\
    retrieve Sample.posix "a" (c1, saved Sample.posix c1 Sample.two_blobs)
    = ((c2, saved Sample.posix c2 (saved Sample.posix c1 Sample.two_blobs)), Ok false) /\
    last (state c2) = Some "a".
Proof.
  destruct (retrieve_resident Sample.posix (Sample.mk_cache 0 0 0 ["a"; "b"])
              Sample.two_blobs "a")
    as (c1 & c2 & R1 & _ & _ & _ & R2 & L & _).
  - reflexivity.
  - simpl. apply elem_of_cons. by left.
  - reflexivity.
  - exists c1, c2. split; [exact R1|]. split; [exact R2 | exact L].
Defined.

(** C1 as it is written fails on a resident id with a slash: a state file
    can list one, [Cache.__init__] keeps it while the file is there, and
    [retrieve] then stops at its assertion, the list and the disk as they
    were. *)
Lemma retrieve_resident_with_slash :
  exists c w,
    Cache__init__ Sample.posix "/c" "/r" 0 0 0 Sample.nested = (w, Ok c) /\
    "a/b" ∈ state c /\
    retrieve Sample.posix "a/b" (c, w) = ((c, w), Raise AssertionError).
Proof.
  eexists _, _. split; [vm_compute; reflexivity|].
  split; [|reflexivity].
  simpl. apply elem_of_cons. right. apply elem_of_cons. by left.
Qed.




(** ** The blocks of trim *)

Lemma logged_nil (w : World) : logged [] w = w.
Proof. destruct w. unfold logged. simpl. by rewrite app_nil_r. Qed.

Lemma logged_logged (t1 t2 : list event) (w : World) :
  logged t2 (logged t1 w) = logged (t1 ++ t2) w.
Proof. unfold logged. simpl. by rewrite app_assoc. Qed.

Lemma config_cache_dir (c c' : Cache) : config c' = config c -> cache_dir c' = cache_dir c.
Proof. unfold config. congruence. Qed.

Lemma config_max_items (c c' : Cache) : config c' = config c -> max_items c' = max_items c.
Proof. unfold config. congruence. Qed.

Lemma config_max_cache_size (c c' : Cache) :
  config c' = config c -> max_cache_size c' = max_cache_size c.
Proof. unfold config. congruence. Qed.

Lemma path_config (c c' : Cache) (f : string) :
  config c' = config c -> path c' f = path c f.
Proof. intros H. unfold path. by rewrite (config_cache_dir _ _ H). Qed.

Lemma state_file_config (c c' : Cache) :
  config c' = config c -> state_file c' = state_file c.
Proof. intros H. unfold state_file. by rewrite (config_cache_dir _ _ H). Qed.

Lemma dropped_suffix (s s' : Cache * World) (k : list string) :
  state (fst s) = k ++ state (fst s') -> dropped s s' = k.
Proof.
  intros E. unfold dropped. rewrite E, length_app.
  replace (length k + length (state (fst s')) - length (state (fst s')))%nat
    with (length k) by lia.
  by rewrite take_app_length.
Qed.

Lemma evicted_refl (s : Cache * World) : evicted s s.
Proof. repeat split; auto. Qed.

Lemma evicted_trans (s1 s2 s3 : Cache * World) :
  evicted s1 s2 -> evicted s2 s3 -> evicted s1 s3.
Proof.
  intros (C1 & S1 & F1 & E1 & D1 & T1) (C2 & S2 & F2 & E2 & D2 & T2).
  split; [by rewrite C2|]. split; [by etrans|]. split; [by etrans|].
  split; [|split; [|by etrans]].
  - intros e He. destruct (E2 e He) as [H|H]; [by apply E1|].
    right. destruct S1 as [k ->]. apply elem_of_app. by right.
  - intros p v Hp. destruct S1 as [k1 S1], S2 as [k2 S2].
    assert (S13 : state (fst s1) = (k1 ++ k2) ++ state (fst s3))
      by (by rewrite S1, S2, app_assoc).
    rewrite (dropped_suffix _ _ _ S13).
    rewrite (dropped_suffix _ _ _ S1) in D1. rewrite (dropped_suffix _ _ _ S2) in D2.
    destruct (D1 p v Hp) as [H|(g & Hg & ->)].
    + destruct (D2 p v H) as [H'|(g & Hg & ->)]; [by left|].
      right. exists g. split; [apply elem_of_app; by right|].
      by rewrite (path_config _ _ g C1).
    + right. exists g. split; [apply elem_of_app; by left | done].
Qed.

Section Trim.
Context (env : Env).

(** [remove_lru_file] on a list that is not empty: the head leaves the
    list, its file leaves the disk when it is there and is not a
    directory, and the call returns. *)
Lemma remove_lru_file_cons (c : Cache) (w : World) (f : string) (rest : list string) :
  state c = f :: rest ->
  exists c' w',
    remove_lru_file (c, w) = ((c', w'), Ok tt) /\
    config c' = config c /\ state c' = rest /\
    (fs w' = fs w \/ fs w' = delete (norm (path c f)) (fs w)) /\
    (files_removed c' = files_removed c \/
     exists n, files_removed c' = files_removed c ++ [(f, n)]) /\
    trace w `prefix_of` trace w'.
Proof.
  intros E. unfold remove_lru_file, bind, self. simpl. rewrite E.
  unfold try_except, update, world, io, logging, emit, modify, syscall, raise. simpl.
  destruct (os_stat_size (fs w) (path c f)) as [n|] eqn:Hst; simpl.
  - unfold os_remove.
    destruct (lookup_path (fs w) (path c f)) as [[? ?|?|?]|] eqn:Hl; simpl;
      eexists _, _; (split; [reflexivity|]); simpl; split_and!; eauto;
      repeat apply prefix_app_r; reflexivity.
  - eexists _, _. split; [reflexivity|]. simpl. split_and!; auto.
    by apply prefix_app_r.
Qed.

Lemma remove_lru_file_nil (c : Cache) (w : World) :
  state c = [] ->
  remove_lru_file (c, w) = ((c, w), Raise IndexError).
Proof. intros E. unfold remove_lru_file, bind, self. simpl. by rewrite E. Qed.

Lemma remove_lru_file_evicted (s s' : Cache * World) (r : result unit) :
  remove_lru_file s = (s', r) -> evicted s s'.
Proof.
  destruct s as [c w]. intros R.
  destruct (state c) as [|f rest] eqn:E.
  - rewrite (remove_lru_file_nil _ _ E) in R. injection R as <- _. apply evicted_refl.
  - destruct (remove_lru_file_cons c w f rest E) as (c' & w' & R' & Hc & Hs & Hf & Hr & Ht).
    rewrite R' in R. injection R as <- _. split_and!; simpl; [| | | | |exact Ht].
    + by rewrite Hc.
    + rewrite Hs, E. by exists [f].
    + destruct Hf as [-> | ->]; [done | apply delete_subseteq].
    + intros e He. destruct Hr as [Hr | [n Hr]]; rewrite Hr in He; [by left|].
      apply elem_of_app in He. destruct He as [He|He]; [by left|].
      apply list_elem_of_singleton in He. subst e. right. rewrite E. simpl. left.
    + intros p v Hp.
      assert (Hd : dropped (c, w) (c', w') = [f]).
      { apply dropped_suffix. simpl. by rewrite Hs, E. }
      rewrite Hd. destruct Hf as [-> | ->]; [by left|].
      destruct (decide (norm (path c f) = p)) as [<-|Hne].
      * right. exists f. split; [left | done].
      * left. by rewrite lookup_delete_ne.
Qed.

(** A loop of evictions: it ends on a false condition, or with its fuel
    spent on as many entries, or at the [IndexError] of an empty list. *)
Lemma while_remove_lru (cond : Cache * World -> bool) (n : nat) :
  forall (s s' : Cache * World) (r : result unit),
    while_loop n cond (remove_lru_file) s = (s', r) ->
    evicted s s' /\
    (r = Ok tt /\
       (cond s' = false \/ length (state (fst s)) = (n + length (state (fst s')))%nat)
     \/ r = Raise IndexError /\ state (fst s') = [] /\ cond s' = true).
Proof.
  induction n as [|n IH]; intros s s' r R; simpl in R.
  - injection R as <- <-. split; [apply evicted_refl|]. left. auto.
  - destruct (cond s) eqn:Hc.
    + unfold bind in R. destruct s as [c w].
      destruct (state c) as [|f rest] eqn:E.
      * rewrite (remove_lru_file_nil _ _ E) in R. injection R as <- <-.
        split; [apply evicted_refl|]. right. auto.
      * destruct (remove_lru_file_cons c w f rest E) as (c1 & w1 & R1 & Hcf & Hs & Hf & _ & _).
        assert (Hev : evicted (c, w) (c1, w1))
          by (eapply remove_lru_file_evicted; exact R1).
        rewrite R1 in R. destruct (IH _ _ _ R) as (Hev' & Hr).
        split; [by eapply evicted_trans|].
        destruct Hr as [(-> & Hr)|Hr]; [left|by right].
        split; [done|]. destruct Hr as [Hr|Hr]; [by left|right].
        simpl in *. rewrite E, Hs in *. simpl. lia.
    + injection R as <- <-. split; [apply evicted_refl|]. left. auto.
Qed.

Lemma list_remove_app (x : string) (l1 l2 : list string) :
  x ∉ l1 -> list_remove x (l1 ++ x :: l2) = Some (l1 ++ l2).
Proof.
  induction l1 as [|y l1 IH]; intros Hn; simpl.
  - by rewrite String.eqb_refl.
  - apply not_elem_of_cons in Hn. destruct Hn as [Hne Hn].
    destruct (String.eqb y x) eqn:E.
    + apply String.eqb_eq in E. congruence.
    + by rewrite (IH Hn).
Qed.

Lemma set_state_id (c : Cache) : set_state (state c) c = c.
Proof. by destruct c. Qed.

(** The first block leaves the ids whose file is there, in their order. *)
Lemma drop_lost_loop (c0 : Cache) (fs0 : gmap string node) :
  forall (todo done : list string) (w : World),
    fs w = fs0 ->
    exists tr,
      for_each todo drop_if_lost
        (set_state (filter (fun f => os_path_exists fs0 (path c0 f) = true) done ++ todo) c0, w)
      = ((set_state (filter (fun f => os_path_exists fs0 (path c0 f) = true) (done ++ todo)) c0,
          logged tr w), Ok tt).
Proof.
  induction todo as [|f todo IH]; intros done w Hw.
  - exists []. simpl. by rewrite logged_nil, !app_nil_r.
  - simpl. unfold bind at 1. unfold drop_if_lost at 1.
    unfold bind, self, world. simpl. rewrite Hw.
    change (path (set_state _ c0) f) with (path c0 f).
    destruct (os_path_exists fs0 (path c0 f)) eqn:Hf; simpl.
    + destruct (IH (done ++ [f]) w Hw) as (tr & R).
      rewrite filter_app, filter_cons_True, filter_nil in R by exact Hf.
      rewrite <- !app_assoc in R. simpl in R. exists tr. exact R.
    + unfold io, logging, emit, modify, update. simpl.
      rewrite list_remove_app.
      2:{ intros Hin. apply list_elem_of_filter in Hin. destruct Hin as [Hin _]. congruence. }
      simpl.
      destruct (IH (done ++ [f]) (logged [Log INFO (RemovingLostFile f)] w) Hw) as (tr & R).
      rewrite filter_app, filter_cons_False, filter_nil, app_nil_r in R by congruence.
      rewrite <- !app_assoc in R. simpl in R.
      exists (Log INFO (RemovingLostFile f) :: tr).
      rewrite logged_logged in R. exact R.
Qed.

Lemma drop_lost_files_spec (c : Cache) (w : World) :
  exists tr,
    drop_lost_files (c, w)
    = ((set_state (filter (fun f => os_path_exists (fs w) (path c f) = true) (state c)) c,
        logged tr w), Ok tt).
Proof.
  destruct (drop_lost_loop c (fs w) (state c) [] w eq_refl) as (tr & R).
  exists tr. unfold drop_lost_files, bind, self. simpl.
  simpl in R. rewrite set_state_id in R. exact R.
Qed.

(** The second block puts the unknown names in front, one by one. *)
Lemma absorb_loop :
  forall (names : list string) (c : Cache) (w : World),
    exists tr,
      for_each names absorb_if_unknown (c, w)
      = ((set_state (absorb names (state c)) c, logged tr w), Ok tt).
Proof.
  induction names as [|n names IH]; intros c w.
  - exists []. simpl. by rewrite logged_nil, set_state_id.
  - simpl. unfold bind at 1. unfold absorb_if_unknown at 1.
    unfold bind, self. simpl. unfold absorb. simpl. fold (absorb names).
    destruct (String.eqb n STATE_FILE || list_mem n (state c)); simpl.
    + apply IH.
    + unfold io, logging, emit, modify, update. simpl.
      destruct (IH (set_state (n :: state c) c) (logged [Log WARN (UnknownFile n)] w))
        as (tr & R).
      exists (Log WARN (UnknownFile n) :: tr).
      rewrite logged_logged in R. exact R.
Qed.

(** *** Sizes *)

Arguments remove_lru_file : simpl never.

Lemma os_stat_size_weaken (fs1 fs2 : gmap string node) (p : string) (n : N) :
  fs1 ⊆ fs2 -> os_stat_size fs1 p = Some n -> os_stat_size fs2 p = Some n.
Proof.
  intros Hsub. unfold os_stat_size, lookup_path.
  destruct (fs1 !! norm p) as [x|] eqn:E; [|discriminate].
  by rewrite (lookup_weaken _ _ _ _ E Hsub).
Qed.

Lemma blob_size_nonneg (c : Cache) (w : World) (f : string) : (0 <= blob_size c w f)%Z.
Proof. unfold blob_size. destruct (os_stat_size _ _); lia. Qed.

Lemma blob_size_mono (c c' : Cache) (w w' : World) (f : string) :
  config c' = config c -> fs w' ⊆ fs w ->
  (blob_size c' w' f <= blob_size c w f)%Z.
Proof.
  intros Hc Hsub. unfold blob_size. rewrite (path_config _ _ f Hc).
  destruct (os_stat_size (fs w') (path c f)) as [n|] eqn:E.
  - by rewrite (os_stat_size_weaken _ _ _ _ Hsub E).
  - destruct (os_stat_size (fs w) (path c f)); lia.
Qed.

Lemma sum_blobs_nonneg (c : Cache) (w : World) (l : list string) : (0 <= sum_blobs c w l)%Z.
Proof.
  induction l as [|f l IH]; simpl; [lia|].
  pose proof (blob_size_nonneg c w f). lia.
Qed.

Lemma sum_blobs_app (c : Cache) (w : World) (l1 l2 : list string) :
  sum_blobs c w (l1 ++ l2) = (sum_blobs c w l1 + sum_blobs c w l2)%Z.
Proof. induction l1 as [|f l1 IH]; simpl; [lia | rewrite IH; lia]. Qed.

Lemma sum_blobs_mono (c c' : Cache) (w w' : World) (l : list string) :
  config c' = config c -> fs w' ⊆ fs w ->
  (sum_blobs c' w' l <= sum_blobs c w l)%Z.
Proof.
  intros Hc Hsub. induction l as [|f l IH]; simpl; [lia|].
  pose proof (blob_size_mono c c' w w' f Hc Hsub). lia.
Qed.

(** Evictions do not make the resident blobs larger. *)
Lemma total_size_evicted (s s' : Cache * World) :
  evicted s s' -> (total_size (fst s') (snd s') <= total_size (fst s) (snd s))%Z.
Proof.
  intros (Hc & [k Hs] & Hf & _). unfold total_size. rewrite Hs, sum_blobs_app.
  pose proof (sum_blobs_nonneg (fst s) (snd s) k).
  pose proof (sum_blobs_mono _ _ _ _ (state (fst s')) Hc Hf). lia.
Qed.

Lemma stat_sizes_bound (c : Cache) (w : World) :
  forall (l : list string) (sizes : list N),
    stat_sizes (fs w) c l = Some sizes ->
    Forall2 (fun f n => (blob_size c w f <= Z.of_N n)%Z) l sizes.
Proof.
  induction l as [|f l IH]; intros sizes H; simpl in H.
  - injection H as <-. constructor.
  - destruct (os_stat_size (fs w) (path c f)) as [n|] eqn:E; [|discriminate].
    destruct (stat_sizes (fs w) c l) as [sz|]; [|discriminate].
    injection H as <-. constructor; [|by apply IH].
    unfold blob_size. rewrite E. lia.
Qed.

Lemma sum_blobs_bound (c : Cache) (w : World) (l : list string) (sizes : list N) :
  Forall2 (fun f n => (blob_size c w f <= Z.of_N n)%Z) l sizes ->
  (sum_blobs c w l <= sum_sizes sizes)%Z.
Proof. induction 1; simpl; lia. Qed.

(** The loop on [sizes]: it returns, and the sizes left are within the
    budget unless nothing is left. *)
Lemma trim_sizes_spec :
  forall (sizes : list N) (s s' : Cache * World) (r : result unit),
    Forall2 (fun f n => (blob_size (fst s) (snd s) f <= Z.of_N n)%Z)
      (state (fst s)) sizes ->
    trim_sizes sizes s = (s', r) ->
    r = Ok tt /\ evicted s s' /\
    (state (fst s') = [] \/
     (total_size (fst s') (snd s') <= max_cache_size (fst s))%Z).
Proof.
  induction sizes as [|n sizes IH]; intros [c w] s' r HF R; simpl in *.
  - injection R as <- <-. apply Forall2_nil_inv_r in HF.
    split; [done|]. split; [apply evicted_refl|]. by left.
  - unfold bind, self in R. simpl in R.
    destruct (Z.of_N n + sum_sizes sizes >? max_cache_size c)%Z eqn:Hgt.
    + apply Forall2_cons_inv_r in HF. destruct HF as (f & rest & Hf & Hrest & E).
      destruct (remove_lru_file_cons c w f rest E) as (c1 & w1 & R1 & Hc1 & Hs1 & Hf1 & _ & _).
      assert (Hev : evicted (c, w) (c1, w1))
        by (eapply remove_lru_file_evicted; exact R1).
      rewrite R1 in R.
      assert (HF1 : Forall2 (fun f n => (blob_size c1 w1 f <= Z.of_N n)%Z)
                      (state c1) sizes).
      { rewrite Hs1. eapply Forall2_impl; [exact Hrest|]. intros g m Hg. simpl in Hg.
        destruct Hev as (Hc & _ & Hsub & _).
        pose proof (blob_size_mono c c1 w w1 g Hc Hsub). lia. }
      destruct (IH (c1, w1) s' r HF1 R) as (Hr & Hev' & Hb).
      split; [exact Hr|]. split; [by eapply evicted_trans|].
      simpl in Hb. by rewrite (config_max_cache_size _ _ Hc1) in Hb.
    + injection R as <- <-. split; [done|]. split; [apply evicted_refl|]. right.
      simpl. rewrite Z.gtb_ltb in Hgt. apply Z.ltb_ge in Hgt.
      pose proof (sum_blobs_bound c w (state c) (n :: sizes) HF).
      unfold total_size. simpl in *. lia.
Qed.

(** *** The three budgets *)

Arguments while_loop : simpl never.

Lemma ensure_free_space_spec (s s' : Cache * World) (r : result unit) :
  ensure_free_space env s = (s', r) ->
  r = Ok tt /\ evicted s s' /\ lacks_free_space env s' = false.
Proof.
  unfold ensure_free_space, bind, self. simpl. intros R.
  destruct (while_remove_lru _ _ _ _ _ R) as (Hev & [(-> & H)|(-> & Hnil & Hc)]).
  - split; [done|]. split; [exact Hev|]. destruct H as [H|H]; [exact H|].
    assert (Hl : length (state (fst s')) = O) by lia.
    unfold lacks_free_space. rewrite Hl. simpl. by rewrite andb_false_r.
  - exfalso. unfold lacks_free_space in Hc. rewrite Hnil in Hc. simpl in Hc.
    by rewrite andb_false_r in Hc.
Qed.

Lemma ensure_max_cache_size_spec (s s' : Cache * World) (r : result unit) :
  ensure_max_cache_size s = (s', r) ->
  evicted s s' /\
  (r = Ok tt \/
   r = Raise OSError /\ stat_sizes (fs (snd s)) (fst s) (state (fst s)) = None) /\
  (r = Ok tt -> (0 < max_cache_size (fst s))%Z ->
   (total_size (fst s') (snd s') <= max_cache_size (fst s))%Z).
Proof.
  destruct s as [c w]. unfold ensure_max_cache_size, bind, self, world. simpl.
  destruct (negb (max_cache_size c =? 0)%Z && negb (length (state c) =? 0)%nat) eqn:G.
  - intros R. simpl in R.
    destruct (stat_sizes (fs w) c (state c)) as [sizes|] eqn:Hst.
    + destruct (trim_sizes_spec sizes (c, w) s' r (stat_sizes_bound c w _ _ Hst) R)
        as (-> & Hev & Hb).
      split; [exact Hev|]. split; [by left|]. intros _ Hpos.
      destruct Hb as [Hnil|Hb]; [|exact Hb].
      unfold total_size. rewrite Hnil. simpl in *. lia.
    + unfold io, logging, emit, modify, raise, bind in R. simpl in R.
      injection R as <- <-.
      split; [split_and!; simpl; auto; by apply prefix_app_r|].
      split; [right; by split | discriminate].
  - intros R. injection R as <- <-. split; [apply evicted_refl|]. split; [by left|].
    intros _ Hpos. simpl.
    apply andb_false_iff in G. destruct G as [G|G]; apply negb_false_iff in G.
    + apply Z.eqb_eq in G. lia.
    + apply Nat.eqb_eq in G. apply length_zero_iff_nil in G.
      unfold total_size. rewrite G. simpl. lia.
Qed.

Lemma ensure_max_items_spec (s s' : Cache * World) (r : result unit) :
  ensure_max_items s = (s', r) ->
  evicted s s' /\
  (r = Ok tt \/ r = Raise IndexError) /\
  (r = Ok tt -> (0 < max_items (fst s))%Z ->
   (Z.of_nat (length (state (fst s'))) <= max_items (fst s))%Z) /\
  ((0 <= max_items (fst s))%Z -> r = Ok tt).
Proof.
  destruct s as [c w]. unfold ensure_max_items, bind, self. simpl.
  destruct (negb (max_items c =? 0)%Z && negb (length (state c) =? 0)%nat) eqn:G.
  - intros R.
    destruct (while_remove_lru _ _ _ _ _ R) as (Hev & [(-> & H)|(-> & Hnil & Hc)]).
    + split; [exact Hev|]. split; [by left|]. split; [|done]. intros _ Hpos.
      destruct H as [H|H].
      * unfold too_many_items in H. rewrite Z.gtb_ltb in H. apply Z.ltb_ge in H.
        destruct Hev as (Hcf & _). simpl in Hcf.
        by rewrite (config_max_items _ _ Hcf) in H.
      * destruct Hev as (_ & [k Hk] & _). simpl in *.
        rewrite Hk, length_app in H. lia.
    + split; [exact Hev|]. split; [by right|]. split; [discriminate|].
      intros Hpos. exfalso. unfold too_many_items in Hc. rewrite Hnil in Hc.
      destruct Hev as (Hcf & _). simpl in Hcf.
      rewrite (config_max_items _ _ Hcf) in Hc. simpl in Hc.
      rewrite Z.gtb_ltb in Hc. apply Z.ltb_lt in Hc. lia.
  - intros R. injection R as <- <-. split; [apply evicted_refl|]. split; [by left|].
    split; [|done]. intros _ Hpos. simpl.
    apply andb_false_iff in G. destruct G as [G|G]; apply negb_false_iff in G.
    + apply Z.eqb_eq in G. lia.
    + apply Nat.eqb_eq in G. apply length_zero_iff_nil in G. rewrite G. simpl. lia.
Qed.

(** The fuel of the last loop is enough: when it returns, its condition
    is false. *)
Lemma ensure_max_items_exit (s s' : Cache * World) :
  ensure_max_items s = (s', Ok tt) ->
  max_items (fst s) = 0%Z \/ state (fst s) = [] \/ too_many_items s' = false.
Proof.
  destruct s as [c w]. unfold ensure_max_items, bind, self. simpl.
  destruct (negb (max_items c =? 0)%Z && negb (length (state c) =? 0)%nat) eqn:G.
  - intros R. right. right.
    destruct (while_remove_lru _ _ _ _ _ R) as (Hev & [(_ & [H|H])|(H & _)]).
    + exact H.
    + destruct Hev as (_ & [k Hk] & _). simpl in *. rewrite Hk, length_app in H. lia.
    + discriminate.
  - intros _. apply andb_false_iff in G. destruct G as [G|G]; apply negb_false_iff in G.
    + left. by apply Z.eqb_eq.
    + right. left. apply Nat.eqb_eq in G. by apply length_zero_iff_nil.
Qed.

(** *** The whole of trim *)

Lemma absorb_unknown_files_spec (c : Cache) (w : World) :
  exists tr,
    absorb_unknown_files (c, w)
    = ((set_state (absorb (os_listdir (fs w) (cache_dir c)) (state c)) c, logged tr w),
       Ok tt).
Proof.
  unfold absorb_unknown_files, bind, self, world. simpl. apply absorb_loop.
Qed.

Lemma save_run (c : Cache) (w : World) :
  (os_path_isdir (fs w) (state_file c) = false /\
   save env (c, w) = ((c, saved env c w), Ok tt))
  \/ save env (c, w) = ((c, w), Raise IOError).
Proof.
  destruct (os_path_isdir (fs w) (state_file c)) eqn:Hd.
  - right. unfold save, bind, self, io, syscall, write_file. simpl.
    unfold os_path_isdir in Hd.
    by destruct (lookup_path (fs w) (state_file c)) as [[| |]|].
  - left. split; [done|]. by apply save_ok.
Qed.

(** [trim] as a whole: the list is reconciled with the directory, then
    entries leave it at the front; when [trim] returns, the budgets hold
    and the state file has the list. *)
Lemma trim_run (c : Cache) (w : World) (s' : Cache * World) (r : result unit) :
  trim env (c, w) = (s', r) ->
  exists tr c5 w5,
    evicted (set_state (reconciled c w) c, logged tr w) (c5, w5) /\
    fst s' = c5 /\
    (r = Ok tt \/ r = Raise OSError \/ r = Raise IndexError \/ r = Raise IOError) /\
    (r = Raise IndexError -> (max_items c < 0)%Z) /\
    (r = Raise OSError ->
       exists s3, evicted (set_state (reconciled c w) c, logged tr w) s3 /\
                  stat_sizes (fs (snd s3)) (fst s3) (state (fst s3)) = None) /\
    (r = Raise IOError -> os_path_isdir (fs w5) (state_file c5) = true) /\
    (r = Ok tt ->
       snd s' = saved env c5 w5 /\
       ((0 < max_items c)%Z -> (Z.of_nat (length (state c5)) <= max_items c)%Z) /\
       ((0 < max_cache_size c)%Z -> (total_size c5 w5 <= max_cache_size c)%Z)) /\
    (r <> Ok tt -> s' = (c5, w5)).
Proof.
  intros R. unfold trim in R.
  destruct (drop_lost_files_spec c w) as (t1 & R1).
  unfold bind at 1 in R. rewrite R1 in R.
  match type of R1 with _ = ((?c1, ?w1), _) =>
    destruct (absorb_unknown_files_spec c1 w1) as (t2 & R2) end.
  unfold bind at 1 in R. rewrite R2 in R. simpl in R.
  rewrite logged_logged in R. fold (reconciled c w) in R.
  change (set_state (reconciled c w) (set_state _ c))
    with (set_state (reconciled c w) c) in R.
  set (s2 := (set_state (reconciled c w) c, logged (t1 ++ t2) w)) in *.
  exists (t1 ++ t2).
  unfold bind at 1 in R.
  destruct (ensure_free_space env s2) as [s3 r3] eqn:R3.
  destruct (ensure_free_space_spec _ _ _ R3) as (-> & Ev3 & _).
  unfold bind at 1 in R.
  destruct (ensure_max_cache_size s3) as [s4 r4] eqn:R4.
  destruct (ensure_max_cache_size_spec _ _ _ R4) as (Ev4 & Hr4 & B4).
  assert (Ev24 : evicted s2 s4) by (by eapply evicted_trans).
  assert (C3 : config (fst s3) = config c) by (by destruct Ev3 as (-> & _)).
  assert (C4 : config (fst s4) = config c) by (by destruct Ev24 as (-> & _)).
  destruct Hr4 as [-> | [-> Hst]].
  2:{ injection R as <- <-. exists (fst s4), (snd s4).
      rewrite <- surjective_pairing. split; [exact Ev24|]. split; [done|].
      split; [auto|]. split; [discriminate|]. split; [by exists s3|].
      split; [discriminate|]. split; [discriminate|]. intros _.
      reflexivity. }
  unfold bind at 1 in R.
  destruct (ensure_max_items s4) as [s5 r5] eqn:R5.
  destruct (ensure_max_items_spec _ _ _ R5) as (Ev5 & Hr5 & B5 & T5).
  assert (Ev25 : evicted s2 s5) by (by eapply evicted_trans).
  rewrite (config_max_items _ _ C4) in B5, T5.
  destruct Hr5 as [-> | ->].
  2:{ injection R as <- <-. exists (fst s5), (snd s5).
      rewrite <- surjective_pairing. split; [exact Ev25|]. split; [done|].
      split; [auto|]. split; [|split; [|split; [|split]]; try discriminate].
      - intros _. destruct (Z.lt_ge_cases (max_items c) 0) as [H|H]; [exact H|].
        by specialize (T5 H).
      - intros _. reflexivity. }
  destruct s5 as [c5 w5]. exists c5, w5. split; [exact Ev25|].
  destruct (save_run c5 w5) as [(Hd & Rs)|Rs]; rewrite Rs in R; injection R as <- <-.
  - split; [done|]. split; [auto|]. split; [discriminate|].
    split; [discriminate|]. split; [discriminate|].
    split; [|done]. intros _. split; [done|].
    split; [by apply B5|]. intros Hpos.
    rewrite (config_max_cache_size _ _ C3) in B4.
    pose proof (total_size_evicted _ _ Ev5) as Hle. simpl in Hle.
    specialize (B4 eq_refl Hpos). lia.
  - split; [done|]. split; [auto 6|]. split; [discriminate|]. split; [discriminate|].
    split; [|split; [discriminate | done]]. intros _.
    destruct (os_path_isdir (fs w5) (state_file c5)) eqn:Hd; [done|].
    rewrite (save_ok env c5 w5 Hd) in Rs. discriminate.
Qed.

Lemma blob_size_saved (c : Cache) (w : World) (f : string) :
  norm (path c f) <> norm (state_file c) ->
  blob_size c (saved env c w) f = blob_size c w f.
Proof.
  intros Hne. unfold blob_size, os_stat_size, lookup_path, saved. simpl.
  by rewrite lookup_insert_ne.
Qed.

Lemma total_size_saved (c : Cache) (w : World) :
  Forall (fun f => norm (path c f) <> norm (state_file c)) (state c) ->
  total_size c (saved env c w) = total_size c w.
Proof.
  unfold total_size. induction 1 as [|f l Hf _ IH]; simpl; [done|].
  by rewrite IH, blob_size_saved.
Qed.


(** C2, amended.  When [trim] returns: what is left of the list is the
    reconciled list without some of its first entries, so every eviction
    took the entry at index 0 and one run of evictions serves all the
    budgets; with a positive [max_items] the list has at most that many
    entries; with a positive [max_cache_size] the sizes of the resident
    blobs, the state file not being one of them, sum to at most that
    much; and the state file holds the list. *)
Theorem trim_budgets (c c' : Cache) (w w' : World) :
  trim env (c, w) = ((c', w'), Ok tt) ->
  state c' `suffix_of` reconciled c w /\
  ((0 < max_items c)%Z -> (Z.of_nat (length (state c')) <= max_items c)%Z) /\
  ((0 < max_cache_size c)%Z ->
   Forall (fun f => norm (path c' f) <> norm (state_file c')) (state c') ->
   (total_size c' w' <= max_cache_size c)%Z) /\
  lookup_path (fs w') (state_file c')
  = Some (File (json_size env (state c')) (Parsed (state c'))).
Proof.
  intros R. destruct (trim_run c w _ _ R) as (tr & c5 & w5 & Ev & Hc & _ & _ & _ & _ & H & _).
  simpl in Hc. subst c5. destruct (H eq_refl) as (Hw & Hi & Hs). simpl in Hw. subst w'.
  destruct Ev as (_ & Hsuf & _). simpl in Hsuf.
  split; [exact Hsuf|]. split; [exact Hi|]. split; [|apply saved_lookup].
  intros Hpos Hall. rewrite total_size_saved by exact Hall. by apply Hs.
Qed.

End Trim.

Lemma trim_budgets_witness :
  exists c' w',
    trim Sample.posix (Sample.mk_cache 25 0 1 ["a"; "b"], Sample.two_blobs)
    = ((c', w'), Ok tt) /\
    state c' = ["b"] /\
    (Z.of_nat (length (state c')) <= 1)%Z /\
    (total_size c' w' <= 25)%Z.
Proof.
  destruct (trim Sample.posix (Sample.mk_cache 25 0 1 ["a"; "b"], Sample.two_blobs))
    as [[c' w'] r] eqn:R.
  assert (Hr : r = Ok tt /\ state c' = ["b"]).
  { vm_compute in R. injection R as <- _ <-. split; reflexivity. }
  destruct Hr as [-> Hst]. exists c', w'. split; [reflexivity|]. split; [exact Hst|].
  destruct (trim_budgets Sample.posix _ _ _ _ R) as (_ & Hi & Hs & _).
  split; [apply Hi; reflexivity|]. apply Hs; [reflexivity|].
  rewrite Hst. vm_compute in R. injection R as <- _. repeat constructor. discriminate.
Defined.

(** C2 as it is written fails for a negative budget, which is not zero:
    on an empty cache [trim] returns with nothing to evict, and no list
    has at most -1 entries or at most -1 bytes.  It also fails for the
    bytes where the list names the state file: [trim] measures 0 and 14
    bytes, within a budget of 14, and then [save] writes the longer list
    into the state file, which makes 18. *)
Lemma trim_budgets_fail :
  (exists c' w',
     trim Sample.posix (Sample.mk_cache (-1) 0 (-1) [], Sample.no_blob)
     = ((c', w'), Ok tt) /\
     max_items c' <> 0%Z /\ max_cache_size c' <> 0%Z /\
     ~ (Z.of_nat (length (state c')) <= max_items c')%Z /\
     ~ (total_size c' w' <= max_cache_size c')%Z) /\
  (exists c' w',
     trim Sample.posix (Sample.mk_cache 14 0 0 [STATE_FILE], Sample.state_file_listed)
     = ((c', w'), Ok tt) /\
     state c' = ["x"; STATE_FILE] /\
     total_size c' w' = 18%Z /\ max_cache_size c' = 14%Z).
Proof.
  split.
  - eexists _, _. split; [vm_compute; reflexivity|].
    vm_compute. repeat split; intros H; try discriminate; by apply H.
  - eexists _, _. split; [vm_compute; reflexivity|].
    vm_compute. repeat split.
Qed.

(** ** What the operations do to the resident list *)

Lemma absorb_NoDup (names l : list string) : NoDup l -> NoDup (absorb names l).
Proof.
  revert l. induction names as [|n names IH]; intros l Hl; [exact Hl|].
  unfold absorb. simpl. fold (absorb names).
  destruct (String.eqb n STATE_FILE); simpl; [by apply IH|].
  destruct (list_mem n l) eqn:Hm; [by apply IH|].
  apply IH. apply NoDup_cons. split; [by apply list_mem_false | exact Hl].
Qed.

Lemma absorb_state_file (names l : list string) :
  STATE_FILE ∉ l -> STATE_FILE ∉ absorb names l.
Proof.
  revert l. induction names as [|n names IH]; intros l Hl; [exact Hl|].
  unfold absorb. simpl. fold (absorb names).
  destruct (String.eqb n STATE_FILE) eqn:E; simpl; [by apply IH|].
  destruct (list_mem n l); [by apply IH|].
  apply IH. apply not_elem_of_cons. split; [|exact Hl].
  apply String.eqb_neq in E. congruence.
Qed.

Lemma reconciled_NoDup (c : Cache) (w : World) :
  NoDup (state c) -> NoDup (reconciled c w).
Proof. intros H. apply absorb_NoDup. by apply NoDup_filter. Qed.

Lemma reconciled_state_file (c : Cache) (w : World) :
  STATE_FILE ∉ state c -> STATE_FILE ∉ reconciled c w.
Proof.
  intros H. apply absorb_state_file. intros Hin.
  apply list_elem_of_filter in Hin. tauto.
Qed.

Section Operations.
Context (env : Env).

Lemma io_fst {A} (m : M World A) (c : Cache) (w : World) (s' : Cache * World)
    (r : result A) :
  io m (c, w) = (s', r) -> fst s' = c.
Proof. unfold io. simpl. destruct (m w). by intros [= <- _]. Qed.

Lemma save_fst (c : Cache) (w : World) (s' : Cache * World) (r : result unit) :
  save env (c, w) = (s', r) -> fst s' = c.
Proof. destruct (save_run env c w) as [(_ & ->)| ->]; by intros [= <- _]. Qed.

Lemma touch_resident_run (item : string) (c : Cache) (w : World) :
  ((item ∉ state c) /\ touch_resident item (c, w) = ((c, w), Raise ValueError))
  \/ exists l1 l2,
       state c = l1 ++ item :: l2 /\ (item ∉ l1) /\
       touch_resident item (c, w) = ((set_state (l1 ++ l2 ++ [item]) c, w), Ok false).
Proof.
  unfold touch_resident, bind, self. simpl.
  destruct (list_index item (state c)) as [i|] eqn:Hi.
  - right. assert (Hin : item ∈ state c).
    { destruct (decide (item ∈ state c)) as [H|H]; [exact H|].
      apply list_index_None in H. congruence. }
    destruct (list_index_pop item (state c) Hin) as (l1 & l2 & j & E & Hn & Hj & Hp).
    rewrite Hi in Hj. injection Hj as ->. exists l1, l2.
    split; [exact E|]. split; [exact Hn|].
    unfold update. simpl. rewrite Hp. by rewrite <- app_assoc.
  - left. split; [by apply list_index_None | reflexivity].
Qed.

Lemma fetch_missing_state (item : string) (c : Cache) (w : World)
    (s' : Cache * World) (r : result bool) :
  fetch_missing env item (c, w) = (s', r) ->
  config (fst s') = config c /\
  (state (fst s') = state c \/ state (fst s') = state c ++ [item]).
Proof.
  unfold fetch_missing, bind at 1, self. simpl.
  unfold bind at 1.
  destruct (io (download_or_copy env _ _) (c, w)) as [s1 r1] eqn:R1.
  pose proof (io_fst _ _ _ _ _ R1) as H1. destruct s1 as [c1 w1]. simpl in H1. subst c1.
  destruct r1 as [[]|e]; [|intros [= <- _]; auto].
  unfold bind, world, self, update. simpl.
  destruct (os_path_exists (fs w1) (path c item)).
  - destruct (os_stat_size (fs w1) (path c item)); simpl; intros [= <- _]; auto.
  - unfold io, logging, emit, modify. simpl. intros [= <- _]. auto.
Qed.

(** What [retrieve] makes of the list, whatever its outcome. *)
Lemma retrieve_state (item : string) (c : Cache) (w : World)
    (s' : Cache * World) (r : result bool) :
  retrieve env item (c, w) = (s', r) ->
  config (fst s') = config c /\
  (state (fst s') = state c
   \/ (exists l1 l2, state c = l1 ++ item :: l2 /\ state (fst s') = l1 ++ l2 ++ [item])
   \/ ((item ∉ state c) /\ state (fst s') = state c ++ [item])).
Proof.
  unfold retrieve. destruct (has_slash item); [intros [= <- _]; auto|].
  unfold try_finally, try_except.
  destruct (touch_resident_run item c w) as [(Hn & ->)|(l1 & l2 & E & _ & ->)]; simpl.
  - destruct (fetch_missing env item (c, w)) as [[c1 w1] r1] eqn:R1.
    destruct (fetch_missing_state _ _ _ _ _ R1) as (Hc & Hs). simpl in *.
    destruct (save env (c1, w1)) as [s2 r2] eqn:R2.
    pose proof (save_fst _ _ _ _ R2) as H2. intros R.
    assert (s' = s2) as -> by (destruct r2 as [[]|e]; by injection R).
    rewrite H2. split; [exact Hc|]. destruct Hs as [Hs|Hs]; auto.
  - destruct (save env (set_state (l1 ++ l2 ++ [item]) c, w)) as [s2 r2] eqn:R2.
    pose proof (save_fst _ _ _ _ R2) as H2. intros R.
    assert (s' = s2) as -> by (destruct r2 as [[]|e]; by injection R).
    rewrite H2. split; [done|]. right. left. by exists l1, l2.
Qed.

Lemma trim_state (c : Cache) (w : World) (s' : Cache * World) (r : result unit) :
  trim env (c, w) = (s', r) ->
  config (fst s') = config c /\
  state (fst s') `suffix_of` reconciled c w /\
  forall e, e ∈ files_removed (fst s') ->
            e ∈ files_removed c \/ fst e ∈ reconciled c w.
Proof.
  intros R. destruct (trim_run env c w _ _ R) as (tr & c5 & w5 & Ev & -> & _).
  destruct Ev as (Hc & Hs & _ & He & _). simpl in *. auto.
Qed.



Lemma with_Profiler_io {A} (name : string) (body : M (Cache * World) A)
    (s : Cache * World) :
  with_Profiler (@io unit) name body s
  = ((fst (fst (body s)), logged [Log INFO (Profiling name)] (snd (fst (body s)))),
     snd (body s)).
Proof.
  unfold with_Profiler, try_finally. destruct (body s) as [[c1 w1] r]. reflexivity.
Qed.

Lemma Cache__exit___state (c : Cache) (w : World) (s' : Cache * World) (r : result unit) :
  Cache__exit__ env (c, w) = (s', r) ->
  exists s1, trim env (c, w) = (s1, r) /\ fst s' = fst s1.
Proof.
  unfold Cache__exit__, bind. rewrite with_Profiler_io.
  destruct (trim env (c, w)) as [[c1 w1] r1]. simpl.
  destruct r1 as [[]|e]; intros [= <- <-]; by eexists.
Qed.

(** [Cache.__init__] in a directory that is there: the list is loaded, then
    trimmed. *)
Lemma Cache__init___isdir (cd rm : string) (a b c : Z) (w : World) :
  os_path_isdir (fs w) cd = true ->
  Cache__init__ env cd rm a b c w
  = (logged [Log INFO (Profiling "SetupTrimming")]
       (snd (fst (trim env (fresh cd rm a b c (fst (loaded w (os_path_join cd STATE_FILE))),
                            logged (snd (loaded w (os_path_join cd STATE_FILE))) w)))),
     match snd (trim env (fresh cd rm a b c (fst (loaded w (os_path_join cd STATE_FILE))),
                          logged (snd (loaded w (os_path_join cd STATE_FILE))) w)) with
     | Ok _ =>
         Ok (fst (fst (trim env
                         (fresh cd rm a b c (fst (loaded w (os_path_join cd STATE_FILE))),
                          logged (snd (loaded w (os_path_join cd STATE_FILE))) w))))
     | Raise e => Raise e
     end).
Proof.
  intros Hd. destruct w as [fs0 tr0 o0]. simpl in *.
  unfold Cache__init__, loaded, state_file, os_path_isfile, fresh, logged. simpl.
  set (p := os_path_join cd STATE_FILE).
  unfold json_load, with_Profiler, try_except, try_finally, logging, emit, modify,
    io, world, get, update, ret, raise, bind. simpl.
  rewrite Hd. simpl.
  destruct (lookup_path fs0 p) as [[n [ids| |]|n|t]|] eqn:Hl; simpl;
    rewrite ?Hl; simpl; rewrite ?app_nil_r; unfold set_state; simpl;
    match goal with
    | |- context [trim env ?s] => destruct (trim env s) as [[c1 w1] [[]|e]]
    end; reflexivity.
Qed.

(** [Cache.__init__] where the directory is not there: it is made first. *)
Lemma Cache__init___makedirs (cd rm : string) (a b c : Z) (w : World) :
  os_path_isdir (fs w) cd = false ->
  Cache__init__ env cd rm a b c w
  = match lookup_path (fs w) cd with
    | None =>
        Cache__init__ env cd rm a b c (set_fs (<[norm cd := Dir (dir_size env)]> (fs w)) w)
    | Some _ => (w, Raise OSError)
    end.
Proof.
  intros Hd.
  assert (Hd' : os_path_isdir (<[norm cd := Dir (dir_size env)]> (fs w)) cd = true).
  { unfold os_path_isdir, lookup_path. by rewrite lookup_insert_eq. }
  destruct (lookup_path (fs w) cd) as [x|] eqn:Hl.
  - unfold Cache__init__, io, syscall, os_makedirs, world, ret, bind. simpl.
    rewrite Hd. simpl. by rewrite Hl.
  - unfold Cache__init__, io, syscall, os_makedirs, world, ret, bind. simpl.
    rewrite Hd. simpl. rewrite Hl. simpl. by rewrite Hd'.
Qed.

Lemma suffix_NoDup (l1 l2 : list string) : l1 `suffix_of` l2 -> NoDup l2 -> NoDup l1.
Proof. intros [k ->] H. apply NoDup_app in H. tauto. Qed.

Lemma retrieve_NoDup (item : string) (c : Cache) (w : World)
    (s' : Cache * World) (r : result bool) :
  NoDup (state c) -> retrieve env item (c, w) = (s', r) -> NoDup (state (fst s')).
Proof.
  intros Hnd R. destruct (retrieve_state _ _ _ _ _ R) as (_ & [E|[(l1 & l2 & E1 & E2)|(Hn & E)]]).
  - by rewrite E.
  - rewrite E2. rewrite E1 in Hnd.
    assert (Hp : l1 ++ l2 ++ [item] ≡ₚ l1 ++ item :: l2).
    { rewrite (Permutation_app_comm l2 [item]). reflexivity. }
    by rewrite Hp.
  - rewrite E. apply NoDup_app. split; [exact Hnd|]. split.
    + intros x Hx Hx'. apply list_elem_of_singleton in Hx'. by subst.
    + apply NoDup_singleton.
Qed.

Lemma trim_NoDup (c : Cache) (w : World) (s' : Cache * World) (r : result unit) :
  NoDup (state c) -> trim env (c, w) = (s', r) -> NoDup (state (fst s')).
Proof.
  intros Hnd R. destruct (trim_state _ _ _ _ R) as (_ & Hs & _).
  eapply suffix_NoDup; [exact Hs|]. by apply reconciled_NoDup.
Qed.

(** C8, amended.  A resident list without duplicates has none after
    [retrieve], after [trim], after [__exit__] and after [remove_lru_file],
    whatever their outcome; and [__init__] gives such a list when the state
    file it loads is missing, broken, or lists no id twice. *)
Theorem resident_no_duplicates :
  (forall (c : Cache) (w : World),
     NoDup (state c) ->
     (forall item s' r, retrieve env item (c, w) = (s', r) -> NoDup (state (fst s'))) /\
     (forall s' r, trim env (c, w) = (s', r) -> NoDup (state (fst s'))) /\
     (forall s' r, Cache__exit__ env (c, w) = (s', r) -> NoDup (state (fst s'))) /\
     (forall s' r, remove_lru_file (c, w) = (s', r) -> NoDup (state (fst s'))))
  /\
  (forall (cd rm : string) (a b m : Z) (w w' : World) (c : Cache),
     (forall p n ids, fs w !! p = Some (File n (Parsed ids)) -> NoDup ids) ->
     Cache__init__ env cd rm a b m w = (w', Ok c) ->
     NoDup (state c)).
Proof.
  split.
  - intros c w Hnd. split; [|split; [|split]].
    + intros item s' r. by apply retrieve_NoDup.
    + intros s' r. by apply trim_NoDup.
    + intros s' r R. destruct (Cache__exit___state _ _ _ _ R) as (s1 & R1 & ->).
      by eapply trim_NoDup.
    + intros s' r R. destruct (remove_lru_file_evicted _ _ _ R) as (_ & Hs & _).
      by eapply suffix_NoDup.
  - intros cd rm a b m w w' c Hfiles R.
    assert (Hopen : forall w0 : World,
              (forall p n ids, fs w0 !! p = Some (File n (Parsed ids)) -> NoDup ids) ->
              os_path_isdir (fs w0) cd = true ->
              Cache__init__ env cd rm a b m w0 = (w', Ok c) -> NoDup (state c)).
    { intros w0 Hf Hd R0. rewrite (Cache__init___isdir cd rm a b m w0 Hd) in R0.
      destruct (trim env _) as [[c1 w1] r1] eqn:R1. simpl in R0.
      destruct r1 as [[]|e]; [|discriminate]. injection R0 as _ <-.
      eapply (trim_NoDup _ _ _ _ _ R1). Unshelve. simpl.
      unfold loaded, lookup_path.
      destruct (fs w0 !! norm (os_path_join cd STATE_FILE)) as [[n [ids| |]|n|t]|] eqn:Hl;
        simpl; try apply NoDup_nil_2.
      by eapply Hf. }
    destruct (os_path_isdir (fs w) cd) eqn:Hd; [by eapply Hopen|].
    rewrite (Cache__init___makedirs cd rm a b m w Hd) in R.
    destruct (lookup_path (fs w) cd) eqn:Hl; [discriminate|].
    eapply Hopen; [| |exact R]; simpl.
    + intros p n ids Hp. destruct (decide (norm cd = p)) as [<-|Hne].
      * by rewrite lookup_insert_eq in Hp.
      * rewrite lookup_insert_ne in Hp by exact Hne. by eapply Hfiles.
    + unfold os_path_isdir, lookup_path. by rewrite lookup_insert_eq.
Qed.

(** Where the list does not name the state file, [trim] does not put it
    there and evicts no entry of that name, and neither does [retrieve] of
    another id put it there. *)
Lemma state_file_kept_out (c : Cache) (w : World) :
  STATE_FILE ∉ state c ->
  (forall s' r, trim env (c, w) = (s', r) ->
     (STATE_FILE ∉ state (fst s')) /\
     forall e, e ∈ files_removed (fst s') ->
               e ∈ files_removed c \/ fst e <> STATE_FILE) /\
  (forall item s' r, item <> STATE_FILE -> retrieve env item (c, w) = (s', r) ->
     STATE_FILE ∉ state (fst s')).
Proof.
  intros Hn. split.
  - intros s' r R. destruct (trim_state _ _ _ _ R) as (_ & [k Hs] & He).
    pose proof (reconciled_state_file c w Hn) as Hrec. split.
    + intros Hin. apply Hrec. rewrite Hs. apply elem_of_app. by right.
    + intros e Hin. destruct (He e Hin) as [H|H]; [by left|]. right. congruence.
  - intros item s' r Hne R.
    destruct (retrieve_state _ _ _ _ _ R) as (_ & [E|[(l1 & l2 & E1 & E2)|(_ & E)]]).
    + by rewrite E.
    + rewrite E2. rewrite E1 in Hn. rewrite !not_elem_of_app in *.
      rewrite not_elem_of_cons in Hn. split; [tauto|]. split; [tauto|].
      intros H. apply list_elem_of_singleton in H. congruence.
    + rewrite E. rewrite not_elem_of_app. split; [exact Hn|].
      intros H. apply list_elem_of_singleton in H. congruence.
Qed.

End Operations.

Lemma resident_no_duplicates_witness :
  NoDup ["a"; "b"] /\
  NoDup (state (fst (fst (retrieve Sample.posix "a"
                           (Sample.mk_cache 0 0 0 ["a"; "b"], Sample.two_blobs))))) /\
  NoDup (state (fst (fst (trim Sample.posix
                           (Sample.mk_cache 0 0 1 ["a"; "b"], Sample.two_blobs))))).
Proof.
  assert (H : NoDup ["a"; "b"]).
  { apply NoDup_cons. split; [|apply NoDup_singleton].
    intros Hin. apply list_elem_of_singleton in Hin. discriminate. }
  split; [exact H|]. split.
  - destruct (resident_no_duplicates Sample.posix) as [P _].
    destruct (P (Sample.mk_cache 0 0 0 ["a"; "b"]) Sample.two_blobs H) as (Hr & _).
    destruct (retrieve Sample.posix "a" _) as [s' r] eqn:R. by eapply Hr.
  - destruct (resident_no_duplicates Sample.posix) as [P _].
    destruct (P (Sample.mk_cache 0 0 1 ["a"; "b"]) Sample.two_blobs H) as (_ & Ht & _).
    destruct (trim Sample.posix _) as [s' r] eqn:R. by eapply Ht.
Defined.

(** C8 as it is written fails on a state file that lists an id twice:
    [Cache.__init__] takes the list as it is, the file of that name is
    there, so [trim] drops neither entry, and the cache starts with a
    list that has a duplicate. *)
Lemma resident_duplicates_loaded :
  exists c w',
    Cache__init__ Sample.posix "/c" "/r" 0 0 0 Sample.listed_twice = (w', Ok c) /\
    state c = ["a"; "a"] /\
    ~ NoDup (state c).
Proof.
  eexists _, _. split; [vm_compute; reflexivity|]. split; [reflexivity|].
  simpl. intros H. apply NoDup_cons in H as [H _]. apply H. by left.
Qed.

(** C10 at an id that is the name of the state file.  The download fails,
    yet the state file is there, so ['state.json'] enters the list; two
    more retrievals make it the oldest entry and [trim] evicts it as a
    blob. *)
Theorem retrieve_state_file :
  exists c1 w1 c2 w2 c3 w3 c4 w4 n,
    retrieve Sample.posix STATE_FILE (Sample.web_cache 2 ["a"; "b"], Sample.two_blobs)
    = ((c1, w1), Ok true) /\
    state c1 = ["a"; "b"; STATE_FILE] /\
    retrieve Sample.posix "a" (c1, w1) = ((c2, w2), Ok false) /\
    retrieve Sample.posix "b" (c2, w2) = ((c3, w3), Ok false) /\
    state c3 = [STATE_FILE; "a"; "b"] /\
    trim Sample.posix (c3, w3) = ((c4, w4), Ok tt) /\
    state c4 = ["a"; "b"] /\
    files_removed c4 = [(STATE_FILE, n)] /\
    In (Log INFO (Trimming STATE_FILE n)) (trace w4).
Proof.
  eexists _, _, _, _, _, _, _, _, _.
  split; [vm_compute; reflexivity|]. split; [reflexivity|].
  split; [vm_compute; reflexivity|]. split; [vm_compute; reflexivity|].
  split; [reflexivity|]. split; [vm_compute; reflexivity|].
  split; [reflexivity|]. split; [reflexivity|].
  vm_compute. tauto.
Qed.

(** ** Paths of the cache directory *)






Section Opening.
Context (env : Env).




End Opening.


(** ** Linking a file *)

Section Linking.
Context (env : Env).

(** C5, amended.  For an [action] that is one of the three, [link_file]
    raises [MappingError] exactly when [infile] is not a regular file or
    [outfile] is one already, and then the file system is as it was. *)
Theorem link_file_MappingError (outfile infile : string) (action : Z)
    (w w' : World) (r : result unit) :
  action = HARDLINK \/ action = SYMLINK \/ action = COPY ->
  link_file env outfile infile action w = (w', r) ->
  (r = Raise MappingError <->
   os_path_isfile (fs w) infile = false \/ os_path_isfile (fs w) outfile = true) /\
  (r = Raise MappingError -> fs w' = fs w).
Proof.
  intros Hact. unfold link_file, logging, emit, modify, get, raise, bind. simpl.
  assert (Hvalid : negb ((action =? HARDLINK)%Z || (action =? SYMLINK)%Z
                         || (action =? COPY)%Z) = false).
  { destruct Hact as [-> | [-> | ->]]; reflexivity. }
  rewrite Hvalid. simpl.
  destruct (os_path_isfile (fs w) infile) eqn:Hin; simpl.
  2:{ intros [= <- <-]. split; [|done]. split; auto. }
  destruct (os_path_isfile (fs w) outfile) eqn:Hout; simpl.
  { intros [= <- <-]. split; [|done]. split; auto. }
  intros R.
  assert (Hr : r <> Raise MappingError).
  { revert R. unfold copy, symlink, os_link, try_except, syscall, logging, emit,
      modify, raise, bind, ret. simpl.
    repeat case_match; intros; simplify_eq; discriminate. }
  split; [|done]. split; [done|]. intros [H|H]; discriminate.
Qed.

End Linking.

Lemma link_file_MappingError_witness :
  exists w',
    link_file Sample.posix "/out/a" "/c/gone" HARDLINK Sample.two_blobs
    = (w', Raise MappingError) /\
    fs w' = fs Sample.two_blobs.
Proof.
  destruct (link_file Sample.posix "/out/a" "/c/gone" HARDLINK Sample.two_blobs)
    as [w' r] eqn:R.
  destruct (link_file_MappingError Sample.posix "/out/a" "/c/gone" HARDLINK
              Sample.two_blobs w' r) as [[_ H1] H2].
  - by left.
  - exact R.
  - assert (r = Raise MappingError) as -> by (apply H1; left; reflexivity).
    exists w'. split; [reflexivity | by apply H2].
Defined.

(** C5 as it is written fails for an [action] that is none of the three:
    the source is missing, and what is raised is [ValueError]. *)
Lemma link_file_unknown_action :
  os_path_isfile (fs Sample.two_blobs) "/c/gone" = false /\
  exists w', link_file Sample.posix "/out/a" "/c/gone" 0 Sample.two_blobs
             = (w', Raise ValueError).
Proof. split; [reflexivity|]. eexists. vm_compute. reflexivity. Qed.

(** ** The runner *)


(** [rmtree] on Windows while a process holds the files: three attempts,
    a sleep of 2, 4 and 6 seconds after each, and a return without an
    error, the directory still there. *)
Lemma rmtree_gives_up (env : Env) (root : string) (w : World) (n : nat) :
  win32 env = true -> outliving w = (3 + n)%nat ->
  rmtree env root w
  = ({| fs := fs w;
        trace := trace w ++ [MakeWritable root false;
                             Stderr (SubprocessOutliving 2); Slept 2;
                             Stderr (SubprocessOutliving 4); Slept 4;
                             Stderr (SubprocessOutliving 6); Slept 6];
        outliving := n |}, Ok tt).
Proof.
  intros Hw Ho. unfold rmtree, make_writable, emit, modify, bind. simpl.
  rewrite Hw. unfold rmtree_attempts, try_except, shutil_rmtree, emit, modify, bind.
  simpl. rewrite Ho. simpl. by rewrite <- !app_assoc.
Qed.

(** C3 at a manifest without ['files'], or without ['command'].
    [run_tha_test] makes the scratch directory, prints what is missing
    and returns 1: the directory is still there and [rmtree] was not
    called.  With the files and the command in the manifest the same run
    removes it. *)
Theorem scratch_dir_left_behind :
  (exists w',
     run_tha_test Sample.posix Sample.no_files "/c" "/r" 0 0 0 Sample.remote_blob
     = (w', Ok 1%Z) /\
     lookup_path (fs Sample.remote_blob) "/tmp/run_tha_testk3J9" = None /\
     os_path_isdir (fs w') "/tmp/run_tha_testk3J9" = true /\
     In (Stderr NoFileToMap) (trace w') /\
     ~ In (MakeWritable "/tmp/run_tha_testk3J9" false) (trace w')) /\
  (exists w',
     run_tha_test Sample.posix Sample.no_command "/c" "/r" 0 0 0 Sample.remote_blob
     = (w', Ok 1%Z) /\
     os_path_isdir (fs w') "/tmp/run_tha_testk3J9" = true /\
     In (Stderr NoCommandToRun) (trace w') /\
     ~ In (MakeWritable "/tmp/run_tha_testk3J9" false) (trace w')) /\
  (exists w',
     run_tha_test Sample.posix Sample.one_script "/c" "/r" 0 0 0 Sample.remote_blob
     = (w', Ok 0%Z) /\
     lookup_path (fs w') "/tmp/run_tha_testk3J9" = None /\
     In (MakeWritable "/tmp/run_tha_testk3J9" false) (trace w')).
Proof.
  split; [|split].
  - eexists. split; [vm_compute; reflexivity|].
    split; [reflexivity|]. split; [reflexivity|]. split; [vm_compute; tauto|].
    vm_compute. intros H. repeat (destruct H as [H|H]; [discriminate|]). exact H.
  - eexists. split; [vm_compute; reflexivity|].
    split; [reflexivity|]. split; [vm_compute; tauto|].
    vm_compute. intros H. repeat (destruct H as [H|H]; [discriminate|]). exact H.
  - eexists. split; [vm_compute; reflexivity|].
    split; [reflexivity|]. vm_compute. tauto.
Qed.

(** C7 at [--no-run].  [main] does not read the option: it runs the same
    with and without it, and with it the command of the manifest is
    spawned all the same. *)
Theorem no_run_is_not_read :
  (forall (env : Env) (options : Options) (args : list string) (w : World),
     main env (set_no_run true options) args w
     = main env (set_no_run false options) args w) /\
  (exists w',
     no_run Sample.no_run_options = true /\
     main Sample.posix Sample.no_run_options [] Sample.remote_blob = (w', Ok 0%Z) /\
     In (Spawned ["/usr/bin/python"; "x.py"] "/tmp/run_tha_testk3J9/") (trace w')).
Proof.
  split; [reflexivity|].
  eexists. split; [reflexivity|]. split; [vm_compute; reflexivity|].
  vm_compute. tauto.
Qed.

(** * More of the script *)

(** ** Computations that keep a relation *)

Section Preserves.
Context {St : Type} (R : St -> St -> Prop) {HR : PreOrder R}.

Lemma preserves_ret {A} (a : A) : preserves R (@ret St A a).
Proof. intros s s' r [= <- _]. reflexivity. Qed.

Lemma preserves_raise {A} (e : exn) : preserves R (@raise St A e).
Proof. intros s s' r [= <- _]. reflexivity. Qed.

Lemma preserves_get : preserves R (@get St).
Proof. intros s s' r [= <- _]. reflexivity. Qed.

Lemma preserves_bind {A B} (m : M St A) (k : A -> M St B) :
  preserves R m -> (forall a, preserves R (k a)) -> preserves R (bind m k).
Proof.
  intros Hm Hk s s' r. unfold bind. destruct (m s) as [s1 [a|e]] eqn:E.
  - intros Hka. etrans; [exact (Hm _ _ _ E) | exact (Hk _ _ _ _ Hka)].
  - intros [= <- _]. exact (Hm _ _ _ E).
Qed.

Lemma preserves_try_except {A} (body : M St A) (catches : exn -> bool)
    (handler : exn -> M St A) :
  preserves R body -> (forall e, preserves R (handler e)) ->
  preserves R (try_except body catches handler).
Proof.
  intros Hb Hh s s' r. unfold try_except. destruct (body s) as [s1 [a|e]] eqn:E.
  - intros [= <- _]. exact (Hb _ _ _ E).
  - destruct (catches e).
    + intros Hhe. etrans; [exact (Hb _ _ _ E) | exact (Hh _ _ _ _ Hhe)].
    + intros [= <- _]. exact (Hb _ _ _ E).
Qed.

Lemma preserves_try_finally {A} (body : M St A) (cleanup : M St unit) :
  preserves R body -> preserves R cleanup -> preserves R (try_finally body cleanup).
Proof.
  intros Hb Hc s s' r. unfold try_finally.
  destruct (body s) as [s1 r1] eqn:E. destruct (cleanup s1) as [s2 [u|e]] eqn:E2;
    intros [= <- _]; (etrans; [exact (Hb _ _ _ E) | exact (Hc _ _ _ E2)]).
Qed.

Lemma preserves_for_each {A} (l : list A) (body : A -> M St unit) :
  (forall x, preserves R (body x)) -> preserves R (for_each l body).
Proof.
  intros Hb. induction l as [|x l IH]; simpl.
  - apply preserves_ret.
  - apply preserves_bind; [apply Hb | intros _; exact IH].
Qed.

Lemma preserves_while_loop (fuel : nat) (cond : St -> bool) (body : M St unit) :
  preserves R body -> preserves R (while_loop fuel cond body).
Proof.
  intros Hb. induction fuel as [|n IH]; simpl.
  - apply preserves_ret.
  - intros s s' r. destruct (cond s).
    + apply preserves_bind; [exact Hb | intros _; exact IH].
    + intros [= <- _]. reflexivity.
Qed.

End Preserves.

Global Instance keeps_dirs_preorder : PreOrder keeps_dirs.
Proof.
  split.
  - intros w. by split.
  - intros w1 w2 w3 [H1 O1] [H2 O2]. split; [auto | congruence].
Qed.

Global Instance keeps_dirs_of_preorder : PreOrder keeps_dirs_of.
Proof.
  split.
  - intros s. split; reflexivity.
  - intros s1 s2 s3 [H1 C1] [H2 C2]. split; [by etrans | congruence].
Qed.

(** ** What keeps the directories *)

Lemma keeps_emit (e : event) : preserves keeps_dirs (emit e).
Proof. intros w w' r [= <- _]. by split. Qed.

Lemma keeps_syscall (err : exn) (f : gmap string node -> option (gmap string node)) :
  (forall fs0 fs1, f fs0 = Some fs1 ->
     forall k n, fs0 !! k = Some (Dir n) -> fs1 !! k = Some (Dir n)) ->
  preserves keeps_dirs (syscall err f).
Proof.
  intros Hf w w' r. unfold syscall. destruct (f (fs w)) as [fs1|] eqn:E.
  - intros [= <- _]. split; [exact (Hf _ _ E) | reflexivity].
  - intros [= <- _]. reflexivity.
Qed.

Lemma insert_keeps_dirs (fs0 : gmap string node) (p : string) (x : node) :
  (forall n, lookup_path fs0 p <> Some (Dir n)) ->
  forall k n, fs0 !! k = Some (Dir n) -> <[norm p := x]> fs0 !! k = Some (Dir n).
Proof.
  intros Hp k n Hk. destruct (decide (norm p = k)) as [<-|Hne].
  - exfalso. by apply (Hp n).
  - by rewrite lookup_insert_ne.
Qed.

Lemma os_makedirs_keeps (sz : N) (d : string) (fs0 fs1 : gmap string node) :
  os_makedirs sz d fs0 = Some fs1 ->
  forall k n, fs0 !! k = Some (Dir n) -> fs1 !! k = Some (Dir n).
Proof.
  unfold os_makedirs. destruct (lookup_path fs0 d) eqn:E; [discriminate|].
  intros [= <-]. apply insert_keeps_dirs. intros n. by rewrite E.
Qed.

Lemma write_file_keeps (p : string) (x : node) (fs0 fs1 : gmap string node) :
  write_file p x fs0 = Some fs1 ->
  forall k n, fs0 !! k = Some (Dir n) -> fs1 !! k = Some (Dir n).
Proof.
  unfold write_file. destruct (lookup_path fs0 p) as [[| |]|] eqn:E;
    try discriminate; intros [= <-]; apply insert_keeps_dirs; intros n; by rewrite E.
Qed.

Lemma shutil_copy_keeps (src dst : string) (fs0 fs1 : gmap string node) :
  shutil_copy src dst fs0 = Some fs1 ->
  forall k n, fs0 !! k = Some (Dir n) -> fs1 !! k = Some (Dir n).
Proof.
  unfold shutil_copy. destruct (lookup_path fs0 src) as [[| |]|]; try discriminate.
  destruct (os_path_isdir fs0 dst); apply write_file_keeps.
Qed.

Lemma os_symlink_keeps (t dst : string) (fs0 fs1 : gmap string node) :
  os_symlink t dst fs0 = Some fs1 ->
  forall k n, fs0 !! k = Some (Dir n) -> fs1 !! k = Some (Dir n).
Proof.
  unfold os_symlink. destruct (lookup_path fs0 dst) eqn:E; [discriminate|].
  intros [= <-]. apply insert_keeps_dirs. intros n. by rewrite E.
Qed.

Lemma os_remove_keeps (p : string) (fs0 fs1 : gmap string node) :
  os_remove p fs0 = Some fs1 ->
  forall k n, fs0 !! k = Some (Dir n) -> fs1 !! k = Some (Dir n).
Proof.
  unfold os_remove, lookup_path.
  destruct (fs0 !! norm p) as [[| |]|] eqn:E; try discriminate;
    intros [= <-] k n Hk; (destruct (decide (norm p = k)) as [<-|Hne];
      [congruence | by rewrite lookup_delete_ne]).
Qed.

Lemma keeps_hardlink (allowed : bool) (src dst : string) :
  preserves keeps_dirs
    (syscall OSError (fun fs0 =>
       match lookup_path fs0 src, lookup_path fs0 dst with
       | Some (File n d), None =>
           if allowed then Some (<[norm dst := File n d]> fs0) else None
       | _, _ => None
       end)).
Proof.
  apply keeps_syscall. intros fs0 fs1.
  destruct (lookup_path fs0 src) as [[| |]|]; try discriminate.
  destruct (lookup_path fs0 dst) eqn:E; [discriminate|].
  destruct allowed; [|discriminate].
  intros [= <-]. apply insert_keeps_dirs. intros n. by rewrite E.
Qed.

Ltac keeps :=
  repeat first
    [ apply preserves_ret; typeclasses eauto
    | apply preserves_raise; typeclasses eauto
    | apply preserves_get; typeclasses eauto
    | apply keeps_emit
    | apply keeps_hardlink
    | apply keeps_syscall;
      first [ apply shutil_copy_keeps | apply os_symlink_keeps | apply write_file_keeps
            | apply os_makedirs_keeps | apply os_remove_keeps ]
    | apply preserves_bind; [typeclasses eauto | | intros ?]
    | apply preserves_try_except; [typeclasses eauto | | intros ?]
    | apply preserves_try_finally; [typeclasses eauto | | ]
    | apply preserves_for_each; [typeclasses eauto | intros ?]
    | apply preserves_while_loop; [typeclasses eauto | ]
    | match goal with
      | |- preserves _ (if ?b then _ else _) => destruct b
      | |- preserves _ (match ?x with _ => _ end) => destruct x
      end ].

Section Keeps.
Context (env : Env).



Lemma keeps_make_temp_dir (prefix root_dir : string) :
  preserves keeps_dirs (make_temp_dir env prefix root_dir).
Proof. unfold make_temp_dir, is_same_filesystem. keeps. Qed.


End Keeps.

Lemma keeps_of_self : preserves keeps_dirs_of self.
Proof. intros s s' r [= <- _]. reflexivity. Qed.

Lemma keeps_of_world : preserves keeps_dirs_of world.
Proof. intros s s' r [= <- _]. reflexivity. Qed.

Lemma keeps_of_update (f : Cache -> Cache) :
  (forall c, config (f c) = config c) -> preserves keeps_dirs_of (update f).
Proof. intros Hf s s' r [= <- _]. split; [reflexivity | apply Hf]. Qed.

Lemma keeps_of_io {A} (m : M World A) :
  preserves keeps_dirs m -> preserves keeps_dirs_of (io m).
Proof.
  intros Hm [c w] s' r. unfold io. simpl. destruct (m w) as [w' r'] eqn:E.
  intros [= <- _]. split; [exact (Hm _ _ _ E) | reflexivity].
Qed.

Ltac keeps_of_with known :=
  repeat first
    [ known
    | apply preserves_ret; typeclasses eauto
    | apply preserves_raise; typeclasses eauto
    | apply keeps_of_self | apply keeps_of_world
    | apply keeps_of_update; intros ?; reflexivity
    | apply keeps_of_io; keeps
    | apply preserves_bind; [typeclasses eauto | | intros ?]
    | apply preserves_try_except; [typeclasses eauto | | intros ?]
    | apply preserves_try_finally; [typeclasses eauto | | ]
    | apply preserves_for_each; [typeclasses eauto | intros ?]
    | apply preserves_while_loop; [typeclasses eauto | ]
    | match goal with
      | |- preserves _ (if ?b then _ else _) => destruct b
      | |- preserves _ (match ?x with _ => _ end) => destruct x
      end ].

Ltac keeps_of := keeps_of_with fail.

Section KeepsOf.
Context (env : Env).

Lemma keeps_save : preserves keeps_dirs_of (save env).
Proof. unfold save. keeps_of. Qed.

Lemma keeps_remove_lru_file : preserves keeps_dirs_of remove_lru_file.
Proof. unfold remove_lru_file, logging. keeps_of. Qed.

Lemma keeps_trim_sizes (sizes : list N) : preserves keeps_dirs_of (trim_sizes sizes).
Proof.
  induction sizes as [|n sizes IH]; simpl.
  - keeps_of.
  - keeps_of_with ltac:(first [apply keeps_remove_lru_file | exact IH]).
Qed.

Lemma keeps_trim : preserves keeps_dirs_of (trim env).
Proof.
  unfold trim, drop_lost_files, drop_if_lost, absorb_unknown_files, absorb_if_unknown,
    ensure_free_space, ensure_max_cache_size, ensure_max_items, logging.
  keeps_of_with ltac:(first [apply keeps_remove_lru_file | apply keeps_trim_sizes
                            | apply keeps_save]).
Qed.


Lemma keeps_Cache__exit__ : preserves keeps_dirs_of (Cache__exit__ env).
Proof.
  unfold Cache__exit__, with_Profiler, logging. keeps_of_with ltac:(apply keeps_trim).
Qed.



End KeepsOf.

(** ** The scratch directory *)

Section Scratch.
Context (env : Env).

(** [make_temp_dir] asserts absolute paths, picks its parent by the device
    of the cache directory, and makes a directory that was not there: the
    rest of the file system, the trace and the world are as they were. *)
Lemma make_temp_dir_run (prefix root_dir : string) (w w' : World) (r : result string) :
  make_temp_dir env prefix root_dir w = (w', r) ->
  (exists d, r = Ok d /\
     lookup_path (fs w) d = None /\
     w' = set_fs (<[norm d := Dir (dir_size env)]> (fs w)) w /\
     os_path_isdir (fs w') d = true)
  \/ (exists e, r = Raise e /\ w' = w /\
        (e = AssertionError \/ e = OSError \/ e = IndexError)).
Proof.
  unfold make_temp_dir, bind.
  destruct (is_same_filesystem env root_dir (gettempdir env) w) as [w0 r0] eqn:E.
  assert (Hw0 : w0 = w /\ (forall e, r0 = Raise e -> e = AssertionError \/ e = IndexError)).
  { revert E. unfold is_same_filesystem, raise, ret.
    repeat case_match; intros [= <- <-]; split; try done; intros e [= <-]; auto. }
  destruct Hw0 as [-> Hr0]. destruct r0 as [same|e].
  2:{ intros [= <- <-]. right. exists e. destruct (Hr0 e eq_refl); auto. }
  unfold syscall, os_makedirs, ret.
  set (d := mkdtemp_name env prefix (if same then None else Some (os_path_dirname root_dir))).
  destruct (lookup_path (fs w) d) as [x|] eqn:Hl.
  - intros [= <- <-]. right. exists OSError. auto.
  - intros [= <- <-]. left. exists d. split; [done|]. split; [done|]. split; [done|].
    unfold os_path_isdir, lookup_path. simpl. by rewrite lookup_insert_eq.
Qed.




End Scratch.

(** ** Taking a run apart *)

Lemma bind_inv {S A B} (m : M S A) (k : A -> M S B) (s s' : S) (r : result B) :
  bind m k s = (s', r) ->
  (exists a s1, m s = (s1, Ok a) /\ k a s1 = (s', r)) \/
  (exists e, m s = (s', Raise e) /\ r = Raise e).
Proof.
  unfold bind. destruct (m s) as [s1 [a|e]].
  - intros H. left. by exists a, s1.
  - intros [= <- <-]. right. by exists e.
Qed.

Lemma try_finally_inv {S A} (body : M S A) (cleanup : M S unit) (s s' : S)
    (r : result A) :
  try_finally body cleanup s = (s', r) ->
  exists s1 r1 r2, body s = (s1, r1) /\ cleanup s1 = (s', r2) /\
    (r2 = Ok tt -> r = r1) /\ (forall e, r2 = Raise e -> r = Raise e).
Proof.
  unfold try_finally. destruct (body s) as [s1 r1] eqn:E1.
  destruct (cleanup s1) as [s2 [[]|e]] eqn:E2; intros [= <- <-].
  - exists s1, r1, (Ok tt). split_and!; [done | done | done | discriminate].
  - exists s1, r1, (Raise e). split_and!; [done | done | discriminate |].
    by intros ? [= <-].
Qed.

Lemma io_run {A} (m : M World A) (c : Cache) (w w' : World) (r : result A) :
  m w = (w', r) -> io m (c, w) = ((c, w'), r).
Proof. unfold io. simpl. by intros ->. Qed.

Section Cleanup.
Context (env : Env).



End Cleanup.


(** ** Evictions, one by one *)

Section Evictions.
Context (env : Env).

Arguments remove_lru_file : simpl never.
Arguments while_loop : simpl never.

(** The stages of [trim]: the first two and the loop on the free space
    return; the others are reached one after the other. *)
Lemma trim_stages (c : Cache) (w : World) (s' : Cache * World) (r : result unit) :
  trim env (c, w) = (s', r) ->
  exists tr s3 s4 r4,
    ensure_free_space env (set_state (reconciled c w) c, logged tr w) = (s3, Ok tt) /\
    ensure_max_cache_size s3 = (s4, r4) /\
    match r4 with
    | Raise e => s' = s4 /\ r = Raise e
    | Ok _ =>
        exists s5 r5,
          ensure_max_items s4 = (s5, r5) /\
          match r5 with
          | Raise e => s' = s5 /\ r = Raise e
          | Ok _ => save env s5 = (s', r)
          end
    end.
Proof.
  intros R. unfold trim in R.
  destruct (drop_lost_files_spec c w) as (t1 & R1).
  unfold bind at 1 in R. rewrite R1 in R.
  match type of R1 with _ = ((?c1, ?w1), _) =>
    destruct (absorb_unknown_files_spec c1 w1) as (t2 & R2) end.
  unfold bind at 1 in R. rewrite R2 in R. simpl in R.
  rewrite logged_logged in R. fold (reconciled c w) in R.
  change (set_state (reconciled c w) (set_state _ c))
    with (set_state (reconciled c w) c) in R.
  exists (t1 ++ t2).
  unfold bind at 1 in R.
  destruct (ensure_free_space env _) as [s3 r3] eqn:R3.
  destruct (ensure_free_space_spec _ _ _ _ R3) as (-> & _).
  unfold bind at 1 in R.
  destruct (ensure_max_cache_size s3) as [s4 r4] eqn:R4.
  exists s3, s4, r4. split; [done|]. split; [done|].
  destruct r4 as [[]|e]; [|by injection R as <- <-].
  unfold bind at 1 in R.
  destruct (ensure_max_items s4) as [s5 r5] eqn:R5.
  exists s5, r5. split; [done|].
  destruct r5 as [[]|e]; [exact R | by injection R as <- <-].
Qed.


(** With a budget of zero a stage of [trim] is skipped. *)
Lemma ensure_free_space_skip (s : Cache * World) :
  min_free_space (fst s) = 0%Z -> ensure_free_space env s = (s, Ok tt).
Proof.
  intros H. unfold ensure_free_space, bind, self. simpl.
  destruct (length (state (fst s))) as [|n]; [reflexivity|].
  unfold while_loop, lacks_free_space. by rewrite H.
Qed.

Lemma ensure_max_cache_size_skip (s : Cache * World) :
  max_cache_size (fst s) = 0%Z -> ensure_max_cache_size s = (s, Ok tt).
Proof.
  intros H. unfold ensure_max_cache_size, bind, self. simpl. by rewrite H.
Qed.

Lemma ensure_max_cache_size_OSError (s s' : Cache * World) (e : exn) :
  ensure_max_cache_size s = (s', Raise e) ->
  e = OSError /\ max_cache_size (fst s) <> 0%Z /\
  fs (snd s') = fs (snd s) /\
  In (Log ERROR (FileMissing (state (fst s)))) (trace (snd s')).
Proof.
  intros R. destruct (ensure_max_cache_size_spec _ _ _ R) as (_ & [?|[[= ->] Hst]] & _);
    [discriminate|].
  split; [done|]. split.
  - intros H. rewrite (ensure_max_cache_size_skip _ H) in R. discriminate.
  - revert R. unfold ensure_max_cache_size, bind, self, world. simpl.
    destruct (_ && _); [|discriminate]. simpl. rewrite Hst.
    unfold io, logging, emit, modify, raise, bind. simpl.
    intros [= <-]. simpl. split; [done|]. apply in_or_app. right. by left.
Qed.

(** The loop on the number of items pops the oldest entries, as many as
    there are above [max_items], and no more. *)
Lemma while_too_many (n : nat) :
  forall (s s' : Cache * World) (r : result unit),
    (0 <= max_items (fst s))%Z ->
    (length (state (fst s)) <= n + Z.to_nat (max_items (fst s)))%nat ->
    while_loop n too_many_items remove_lru_file s = (s', r) ->
    r = Ok tt /\
    state (fst s')
    = drop (length (state (fst s)) - Z.to_nat (max_items (fst s))) (state (fst s)).
Proof.
  induction n as [|n IH]; intros [c w] s' r Hm Hn R; simpl in *.
  - injection R as <- <-. split; [done|].
    replace (length (state c) - Z.to_nat (max_items c))%nat with O by lia. done.
  - unfold while_loop in R. fold (@while_loop (Cache * World)) in R.
    destruct (too_many_items (c, w)) eqn:Hc.
    + unfold too_many_items in Hc. simpl in Hc. rewrite Z.gtb_ltb in Hc.
      apply Z.ltb_lt in Hc.
      destruct (state c) as [|f rest] eqn:E; [simpl in Hc; lia|].
      destruct (remove_lru_file_cons c w f rest E) as (c1 & w1 & R1 & Hcf & Hs & _).
      unfold bind in R. rewrite R1 in R.
      pose proof (config_max_items _ _ Hcf) as Hm1.
      destruct (IH (c1, w1) s' r) as (-> & Hst); simpl; rewrite ?Hm1, ?Hs.
      * exact Hm.
      * simpl in Hn. lia.
      * exact R.
      * split; [done|]. simpl in Hst. rewrite Hst, Hm1, Hs.
        simpl length in *.
        replace (Datatypes.S (length rest) - Z.to_nat (max_items c))%nat
          with (Datatypes.S (length rest - Z.to_nat (max_items c))) by lia.
        done.
    + injection R as <- <-. split; [done|]. simpl.
      unfold too_many_items in Hc. simpl in Hc. rewrite Z.gtb_ltb in Hc.
      apply Z.ltb_ge in Hc.
      replace (length (state c) - Z.to_nat (max_items c))%nat with O by lia. done.
Qed.

Lemma ensure_max_items_exact (s s' : Cache * World) (r : result unit) :
  (0 <= max_items (fst s))%Z ->
  ensure_max_items s = (s', r) ->
  r = Ok tt /\
  state (fst s')
  = if (max_items (fst s) =? 0)%Z then state (fst s)
    else drop (length (state (fst s)) - Z.to_nat (max_items (fst s))) (state (fst s)).
Proof.
  intros Hm. unfold ensure_max_items, bind, self. simpl.
  destruct (max_items (fst s) =? 0)%Z eqn:Hz; simpl.
  { by intros [= <- <-]. }
  destruct (length (state (fst s)) =? 0)%nat eqn:Hl; simpl.
  - intros [= <- <-]. split; [done|]. apply Nat.eqb_eq in Hl.
    apply length_zero_iff_nil in Hl. by rewrite Hl, drop_nil.
  - intros R. apply (while_too_many _ _ _ _ Hm) in R; [exact R | lia].
Qed.


Lemma isdir_weaken (fs1 fs2 : gmap string node) (p : string) :
  fs1 ⊆ fs2 -> os_path_isdir fs2 p = false -> os_path_isdir fs1 p = false.
Proof.
  intros Hsub. unfold os_path_isdir, lookup_path.
  destruct (fs1 !! norm p) as [x|] eqn:E; [|done].
  by rewrite (lookup_weaken _ _ _ _ E Hsub).
Qed.

(** X2.  On a plain cache (the directory is there and has plain names, as
    has the list, the state file can be opened, and nothing is a symbolic
    link), [drop_lost_files] and [absorb_unknown_files], the two loops at
    the head of [trim], return.  The list they leave has the entries whose
    file exists and the names of the cache directory other than the state
    file, and nothing else; the entries that were known keep their order,
    behind the unknown ones. *)
Theorem reconciled_with_the_directory (c : Cache) (w : World) :
  plain_cache c w = true ->
  exists tr l,
    (drop_lost_files ;;; absorb_unknown_files) (c, w)
    = ((set_state l c, logged tr w), Ok tt) /\
    (forall f, f ∈ l <->
       (f ∈ state c /\ os_path_exists (fs w) (path c f) = true) \/
       (f ∈ os_listdir (fs w) (cache_dir c) /\ f <> STATE_FILE)) /\
    filter (fun f => os_path_exists (fs w) (path c f) = true) (state c) `suffix_of` l.
Proof.
  intros _.
  destruct (drop_lost_files_spec c w) as (t1 & R1).
  match type of R1 with _ = ((?c1, ?w1), _) =>
    destruct (absorb_unknown_files_spec c1 w1) as (t2 & R2) end.
  exists (t1 ++ t2), (reconciled c w). split.
  - unfold bind. rewrite R1, R2. simpl. by rewrite logged_logged.
  - unfold reconciled.
    assert (Hk : forall (names k : list string),
      (forall f, f ∈ absorb names k <-> f ∈ k \/ (f ∈ names /\ f <> STATE_FILE)) /\
      k `suffix_of` absorb names k).
    { induction names as [|n names IH]; intros k.
      - simpl. split; [|done]. intros f. split; [by left|].
        intros [H|[H _]]; [done | by apply elem_of_nil in H].
      - unfold absorb. simpl. fold (absorb names).
        destruct (String.eqb n STATE_FILE) eqn:E; simpl.
        + apply String.eqb_eq in E. subst n.
          destruct (IH k) as [H1 H2]. split; [|done]. intros f. rewrite H1.
          rewrite elem_of_cons. split; [tauto|]. intros [H|[[->|H] Hne]]; tauto.
        + apply String.eqb_neq in E. destruct (list_mem n k) eqn:Hm.
          * apply list_mem_spec in Hm. destruct (IH k) as [H1 H2]. split; [|done].
            intros f. rewrite H1, elem_of_cons. split; [tauto|].
            intros [H|[[->|H] Hne]]; tauto.
          * destruct (IH (n :: k)) as [H1 H2]. split.
            -- intros f. rewrite H1, !elem_of_cons. split.
               ++ intros [[->|H]|H]; tauto.
               ++ intros [H|[[->|H] Hne]]; tauto.
            -- etrans; [|exact H2]. by apply suffix_cons_r. }
    destruct (Hk (os_listdir (fs w) (cache_dir c))
                (filter (fun f => os_path_exists (fs w) (path c f) = true) (state c)))
      as [H1 H2].
    split; [|exact H2]. intros f. rewrite H1, list_elem_of_filter. tauto.
Qed.


(** X3.  A cache whose three budgets are 0 is a leak.  On a plain cache
    whose state file is not a directory, [trim] reconciles the list with
    the directory, evicts nothing and writes the state file; no other path
    of the file system changes. *)
Theorem trim_without_budget (c : Cache) (w : World) :
  min_free_space c = 0%Z -> max_cache_size c = 0%Z -> max_items c = 0%Z ->
  plain_cache c w = true ->
  os_path_isdir (fs w) (state_file c) = false ->
  exists tr,
    trim env (c, w)
    = ((set_state (reconciled c w) c,
        saved env (set_state (reconciled c w) c) (logged tr w)), Ok tt).
Proof.
  intros Hf Hs Hi _ Hd.
  destruct (trim env (c, w)) as [s' r] eqn:R.
  destruct (trim_stages _ _ _ _ R) as (tr & s3 & s4 & r4 & R3 & R4 & H).
  rewrite ensure_free_space_skip in R3 by exact Hf. injection R3 as <-.
  rewrite ensure_max_cache_size_skip in R4 by exact Hs. injection R4 as <- <-.
  destruct H as (s5 & r5 & R5 & H).
  unfold ensure_max_items, bind, self in R5. simpl in R5. rewrite Hi in R5.
  simpl in R5. injection R5 as <- <-.
  rewrite save_ok in H by exact Hd. injection H as <- <-. by exists tr.
Qed.

(** X4.  With [max_items] as the only budget, on a plain cache, [trim]
    keeps the newest entries: what is left of the reconciled list is its
    last [max_items] entries, all of it when it is no longer than that;
    and [trim] returns unless the state file is a directory, which cannot
    be written. *)
Theorem trim_keeps_newest (c : Cache) (w : World) (s' : Cache * World)
    (r : result unit) :
  min_free_space c = 0%Z -> max_cache_size c = 0%Z -> (0 < max_items c)%Z ->
  plain_cache c w = true ->
  trim env (c, w) = (s', r) ->
  state (fst s')
  = drop (length (reconciled c w) - Z.to_nat (max_items c)) (reconciled c w) /\
  (r = Ok tt \/ r = Raise IOError) /\
  (os_path_isdir (fs w) (state_file c) = false -> r = Ok tt).
Proof.
  intros Hf Hs Hi _ R.
  destruct (trim_stages _ _ _ _ R) as (tr & s3 & s4 & r4 & R3 & R4 & H).
  rewrite ensure_free_space_skip in R3 by exact Hf. injection R3 as <-.
  rewrite ensure_max_cache_size_skip in R4 by exact Hs. injection R4 as <- <-.
  destruct H as (s5 & r5 & R5 & H).
  pose proof (ensure_max_items_spec _ _ _ R5) as ((Hc5 & _ & Hsub & _) & _).
  apply ensure_max_items_exact in R5 as (-> & Hst); [|simpl; lia].
  simpl in Hst, Hc5, Hsub.
  assert (Hz : (max_items c =? 0)%Z = false) by (apply Z.eqb_neq; lia).
  rewrite Hz in Hst. destruct s5 as [c5 w5]. simpl in *.
  destruct (save_run env c5 w5) as [(Hd & Rs)|Rs]; rewrite Rs in H;
    injection H as <- <-; (split; [exact Hst|]); (split; [auto|]); [done|].
  intros Hd. exfalso.
  apply (isdir_weaken _ _ _ Hsub) in Hd.
  assert (E : state_file c5 = state_file c)
    by exact (state_file_config (set_state (reconciled c w) c) c5 Hc5).
  rewrite <- E in Hd. rewrite (save_ok env c5 w5 Hd) in Rs. discriminate.
Qed.

(** X5.  What [trim] can raise on a cache directory that is there, with a
    state file that can be opened, in a file system without symbolic
    links.  It returns, or raises [OSError] (one of the sizes could not be
    read, which needs a [max_cache_size] that is not 0), [IndexError] (the
    list ran empty under a negative [max_items]) or [IOError] (the state
    file is a directory); a [ValueError] of [list.remove] does not get
    out. *)
Theorem trim_raises (c : Cache) (w : World) (s' : Cache * World) (e : exn) :
  os_path_isdir (fs w) (cache_dir c) = true ->
  no_symlinks (fs w) = true ->
  can_open (fs w) (state_file c) = true ->
  trim env (c, w) = (s', Raise e) ->
  (e = OSError /\ max_cache_size c <> 0%Z) \/
  (e = IndexError /\ (max_items c < 0)%Z /\ state (fst s') = []) \/
  (e = IOError /\ os_path_isdir (fs (snd s')) (state_file c) = true).
Proof.
  intros _ _ _ R.
  destruct (trim_stages _ _ _ _ R) as (tr & s3 & s4 & r4 & R3 & R4 & H).
  destruct (ensure_free_space_spec _ _ _ _ R3) as (_ & (Hc3 & _) & _).
  change (config (fst s3) = config c) in Hc3.
  destruct r4 as [[]|e4].
  - destruct H as (s5 & r5 & R5 & H).
    destruct (ensure_max_cache_size_spec _ _ _ R4) as ((Hc4 & _) & _).
    destruct (ensure_max_items_spec _ _ _ R5) as ((Hc5 & _) & Hr5 & _ & Hpos).
    destruct r5 as [[]|e5].
    + right. right. destruct s5 as [c5 w5].
      destruct (save_run env c5 w5) as [(_ & Rs)|Rs]; rewrite Rs in H; [discriminate|].
      injection H as <- <-. split; [done|]. simpl in *.
      destruct (os_path_isdir (fs w5) (state_file c5)) eqn:Hd.
      * rewrite <- Hd. f_equal. symmetry. apply state_file_config. congruence.
      * rewrite (save_ok env c5 w5 Hd) in Rs. discriminate.
    + right. left. destruct H as [-> [= ->]].
      destruct Hr5 as [?|[= ->]]; [discriminate|]. split; [done|].
      assert (Hm : max_items (fst s4) = max_items c).
      { apply config_max_items. congruence. }
      rewrite Hm in Hpos. split.
      * destruct (Z.lt_ge_cases (max_items c) 0) as [Hlt|Hge]; [exact Hlt|].
        by specialize (Hpos Hge).
      * revert R5. unfold ensure_max_items, bind, self. simpl.
        destruct (_ && _); [|discriminate]. intros R5.
        by destruct (while_remove_lru _ _ _ _ _ R5) as (_ & [(? & _)|(_ & ? & _)]).
  - destruct H as [-> [= ->]]. left.
    destruct (ensure_max_cache_size_OSError _ _ _ R4) as (-> & Hne & _).
    split; [done|]. intros Hz. apply Hne.
    rewrite (config_max_cache_size _ _ Hc3). exact Hz.
Qed.

End Evictions.

Lemma reconciled_with_the_directory_witness :
  exists tr l,
    (drop_lost_files ;;; absorb_unknown_files)
      (Sample.mk_cache 0 0 0 ["b"; "gone"], Sample.two_blobs)
    = ((set_state l (Sample.mk_cache 0 0 0 ["b"; "gone"]), logged tr Sample.two_blobs),
       Ok tt) /\
    ["b"] `suffix_of` l.
Proof.
  destruct (reconciled_with_the_directory (Sample.mk_cache 0 0 0 ["b"; "gone"])
              Sample.two_blobs eq_refl) as (tr & l & R & _ & H).
  exists tr, l. split; [exact R | exact H].
Defined.

Lemma trim_without_budget_witness :
  exists tr,
    trim Sample.posix (Sample.mk_cache 0 0 0 ["b"], Sample.two_blobs)
    = ((Sample.mk_cache 0 0 0 ["a"; "b"],
        saved Sample.posix (Sample.mk_cache 0 0 0 ["a"; "b"])
          (logged tr Sample.two_blobs)), Ok tt).
Proof.
  exact (trim_without_budget Sample.posix (Sample.mk_cache 0 0 0 ["b"]) Sample.two_blobs
           eq_refl eq_refl eq_refl eq_refl eq_refl).
Defined.

Lemma trim_keeps_newest_witness :
  state (fst (fst (trim Sample.posix
                     (Sample.mk_cache 0 0 1 ["a"; "b"], Sample.two_blobs)))) = ["b"].
Proof.
  destruct (trim Sample.posix _) as [s' r] eqn:R.
  destruct (trim_keeps_newest Sample.posix (Sample.mk_cache 0 0 1 ["a"; "b"])
              Sample.two_blobs s' r eq_refl eq_refl eq_refl eq_refl R) as (H & _).
  simpl. rewrite H. vm_compute. reflexivity.
Defined.

Lemma trim_raises_witness :
  exists s',
    trim Sample.posix (Sample.mk_cache 0 0 (-1) ["a"; "b"], Sample.two_blobs)
    = (s', Raise IndexError) /\
    state (fst s') = [].
Proof.
  destruct (trim Sample.posix _) as [s' r] eqn:R.
  assert (Hr : snd (trim Sample.posix
                      (Sample.mk_cache 0 0 (-1) ["a"; "b"], Sample.two_blobs))
               = Raise IndexError) by (vm_compute; reflexivity).
  rewrite R in Hr. simpl in Hr. subst r. exists s'. split; [reflexivity|].
  destruct (trim_raises Sample.posix (Sample.mk_cache 0 0 (-1) ["a"; "b"])
              Sample.two_blobs s' IndexError eq_refl eq_refl eq_refl R)
    as [(H & _)|[(_ & _ & H)|(H & _)]]; [discriminate H | exact H | discriminate H].
Defined.

(** ** Paths next to the state file *)

Section Fetching.
Context (env : Env).


End Fetching.

(** ** What [link_file] leaves *)

Section Placing.
Context (env : Env).

(** A link or a copy of a regular file to a free destination. *)
Lemma link_file_copies (outfile infile : string) (action : Z) (w w' : World)
    (r : result unit) (n : N) (d : json_doc) :
  action = HARDLINK \/ action = COPY \/ (action = SYMLINK /\ win32 env = true) ->
  lookup_path (fs w) infile = Some (File n d) ->
  os_path_exists (fs w) outfile = false ->
  link_file env outfile infile action w = (w', r) ->
  r = Ok tt /\ fs w' = <[norm outfile := File n d]> (fs w).
Proof.
  intros Hact Hin Hout.
  assert (Hf : os_path_isfile (fs w) infile = true)
    by (unfold os_path_isfile; by rewrite Hin).
  assert (Ho : os_path_isfile (fs w) outfile = false /\
               os_path_isdir (fs w) outfile = false /\
               forall x, lookup_path (fs w) outfile <> Some (Dir x)).
  { unfold os_path_exists, os_path_isfile, os_path_isdir in *.
    destruct (lookup_path (fs w) outfile) as [[| |]|]; try discriminate; done. }
  destruct Ho as (Ho1 & Ho2 & Ho3).
  assert (Hcopy : shutil_copy infile outfile (fs w)
                  = Some (<[norm outfile := File n d]> (fs w))).
  { unfold shutil_copy, write_file. rewrite Hin, Ho2.
    destruct (lookup_path (fs w) outfile) as [[| |]|] eqn:E; try done.
    by destruct (Ho3 size). }
  destruct Hact as [-> | [-> | [-> Hwin]]];
    unfold link_file, logging, emit, modify, get, raise, bind; simpl;
    rewrite Hf, Ho1; simpl; rewrite ?Hwin; simpl.
  - unfold try_except, os_link, syscall, emit, modify, bind. simpl. rewrite Hin.
    destruct (lookup_path (fs w) outfile) as [x|]; simpl;
      [|destruct (can_link env infile outfile); simpl];
      unfold copy, logging, syscall, emit, modify, bind; simpl; rewrite ?Hcopy; simpl;
      by intros [= <- <-].
  - unfold copy, syscall, emit, modify, bind. simpl. rewrite Hcopy. simpl.
    by intros [= <- <-].
  - unfold try_except, os_link, syscall, emit, modify, bind. simpl. rewrite Hin.
    destruct (lookup_path (fs w) outfile) as [x|]; simpl;
      [|destruct (can_link env infile outfile); simpl];
      unfold copy, logging, syscall, emit, modify, bind; simpl; rewrite ?Hcopy; simpl;
      by intros [= <- <-].
Qed.

(** X8.  [link_file] with the action [HARDLINK] or [COPY] (or [SYMLINK] on
    Windows, where it is a hard link), a source that is a regular file
    that can be read and a destination that is a free plain name in a
    directory that is there returns, and the destination is then a
    regular file with the content of the source; no other path changes.
    Whether the link was made or the file copied does not show in the
    file system. *)
Theorem link_file_places (outfile infile : string) (action : Z) (w w' : World)
    (r : result unit) (n : N) (d : json_doc) :
  action = HARDLINK \/ action = COPY \/ (action = SYMLINK /\ win32 env = true) ->
  lookup_path (fs w) infile = Some (File n d) ->
  d <> Unreadable ->
  os_path_isdir (fs w) (os_path_dirname outfile) = true ->
  plain_name (os_path_basename outfile) = true ->
  lookup_path (fs w) outfile = None ->
  link_file env outfile infile action w = (w', r) ->
  r = Ok tt /\ fs w' = <[norm outfile := File n d]> (fs w).
Proof.
  intros Hact Hin _ _ _ Hout. apply link_file_copies; [exact Hact | exact Hin |].
  unfold os_path_exists. by rewrite Hout.
Qed.

(** X9.  A [link_file] that raises has touched nothing: the file system is
    as it was, and only the line on the mapping has been logged before a
    [ValueError] or a [MappingError].  An action that is none of the three
    gives [ValueError], whatever the files are: the action is checked
    before they are looked at. *)
Theorem link_file_raises (outfile infile : string) (action : Z) (w w' : World)
    (e : exn) :
  link_file env outfile infile action w = (w', Raise e) ->
  fs w' = fs w /\
  (e = ValueError \/ e = MappingError ->
   trace w' = trace w ++ [Log DEBUG (Mapping infile outfile)]) /\
  (~ (action = HARDLINK \/ action = SYMLINK \/ action = COPY) -> e = ValueError).
Proof.
  unfold link_file, logging, emit, modify, get, raise, bind. simpl.
  destruct ((action =? HARDLINK)%Z || (action =? SYMLINK)%Z || (action =? COPY)%Z)
    eqn:Hact; simpl.
  - assert (Hv : action = HARDLINK \/ action = SYMLINK \/ action = COPY).
    { apply orb_true_iff in Hact. destruct Hact as [Hact|Hact].
      - apply orb_true_iff in Hact. destruct Hact as [Hact|Hact];
          apply Z.eqb_eq in Hact; auto.
      - apply Z.eqb_eq in Hact. auto. }
    intros R.
    assert (H : fs w' = fs w /\ e <> ValueError /\
                (e = MappingError ->
                 trace w' = trace w ++ [Log DEBUG (Mapping infile outfile)])).
    { revert R.
      unfold copy, symlink, os_link, try_except, syscall, logging, emit, modify,
        raise, bind, ret. simpl.
      repeat case_match; intros; simplify_eq; simpl; split_and!; done. }
    destruct H as (Hfs & Hne & Htr). split; [exact Hfs|]. split; [|tauto].
    intros [He|He]; [done | by apply Htr].
  - intros [= <- <-]. simpl. split; [done|]. split; done.
Qed.

End Placing.

Lemma link_file_places_witness :
  exists w',
    link_file (Sample.host true false) "/tmp/a" "/c/a" SYMLINK Sample.with_tmp
    = (w', Ok tt) /\
    fs w' = <[norm "/tmp/a" := File 10 Malformed]> (fs Sample.with_tmp).
Proof.
  destruct (link_file (Sample.host true false) "/tmp/a" "/c/a" SYMLINK Sample.with_tmp)
    as [w' r] eqn:R.
  destruct (link_file_places (Sample.host true false) "/tmp/a" "/c/a" SYMLINK
              Sample.with_tmp w' r 10 Malformed) as (-> & H).
  - right. right. split; reflexivity.
  - reflexivity.
  - discriminate.
  - reflexivity.
  - reflexivity.
  - reflexivity.
  - exact R.
  - by exists w'.
Defined.

Lemma link_file_raises_witness :
  exists w',
    link_file Sample.posix "/out/a" "/c/a" 7 Sample.two_blobs = (w', Raise ValueError) /\
    fs w' = fs Sample.two_blobs.
Proof.
  destruct (link_file Sample.posix "/out/a" "/c/a" 7 Sample.two_blobs) as [w' r] eqn:R.
  assert (Hr : snd (link_file Sample.posix "/out/a" "/c/a" 7 Sample.two_blobs)
               = Raise ValueError) by (vm_compute; reflexivity).
  rewrite R in Hr. simpl in Hr. subst r. exists w'. split; [reflexivity|].
  exact (proj1 (link_file_raises Sample.posix "/out/a" "/c/a" 7 Sample.two_blobs w'
                  ValueError R)).
Defined.

(** ** Removing a tree *)




(** ** Small functions *)

(** X11.  Where the interpreter is not itself named ['python'] or [*.py],
    a command that [fix_python_path] returns is left as it is by a second
    call.  The command returned ends with the arguments given: the
    interpreter takes the place of a first word ['python'], stands before
    a first word that ends in [.py], and any other command is returned
    as it is. *)
Theorem fix_python_path_fixed (env : Env) (cmd out : list string) :
  sys_executable env <> "python" ->
  endswith ".py" (sys_executable env) = false ->
  fix_python_path env cmd = Ok out ->
  fix_python_path env out = Ok out /\
  (exists c0 rest,
     cmd = c0 :: rest /\ rest `suffix_of` out /\
     (length cmd <= length out <= Datatypes.S (length cmd))%nat /\
     (c0 = "python" -> out = sys_executable env :: rest) /\
     (c0 <> "python" -> endswith ".py" c0 = true ->
      out = sys_executable env :: c0 :: rest) /\
     (c0 <> "python" -> endswith ".py" c0 = false -> out = cmd)).
Proof.
  intros Hp Hpy. unfold fix_python_path. destruct cmd as [|c0 rest]; [discriminate|].
  assert (Hexe : String.eqb (sys_executable env) "python" = false)
    by (by apply String.eqb_neq).
  destruct (String.eqb c0 "python") eqn:E0.
  - apply String.eqb_eq in E0. subst c0. intros [= <-]. rewrite Hexe, Hpy.
    split; [done|]. exists "python", rest.
    split_and!; try done; try (by apply suffix_cons_r); simpl; lia.
  - pose proof E0 as N0. apply String.eqb_neq in N0.
    destruct (endswith ".py" c0) eqn:E1; intros [= <-].
    + rewrite Hexe, Hpy. split; [done|]. exists c0, rest.
      split_and!; try done; try (by do 2 apply suffix_cons_r); try (simpl; lia).
      intros _ E2. rewrite E1 in E2. discriminate E2.
    + rewrite E0, E1. split; [done|]. exists c0, rest.
      split_and!; try done; try (by apply suffix_cons_r); try (simpl; lia).
      intros _ E2. rewrite E1 in E2. discriminate E2.
Qed.

Lemma fix_python_path_fixed_witness :
  fix_python_path Sample.posix ["/usr/bin/python"; "x.py"; "--fast"]
  = Ok ["/usr/bin/python"; "x.py"; "--fast"].
Proof.
  exact (proj1 (fix_python_path_fixed Sample.posix ["x.py"; "--fast"]
                  ["/usr/bin/python"; "x.py"; "--fast"]
                  ltac:(discriminate) eq_refl eq_refl)).
Defined.

(** X12.  The mode that [_set_write_bit] hands to [chmod].  With
    [read_only] it is [st_mode & 0500]: no write bit, no bit of group or
    others, and no file type, so that without [lchmod] the test for a
    symbolic link is always false and [os.chmod] is called on links too.
    Without [read_only] it is [st_mode | 0200]: the owner may write, the
    other bits and the file type are those of [st_mode], and without
    [lchmod] a symbolic link is skipped. *)
Theorem _set_write_bit_mode (has_lchmod : bool) (st_mode : Z) :
  (_set_write_bit has_lchmod st_mode true
   = (if has_lchmod then os_lchmod else os_chmod) (Z.land st_mode 320) /\
   Z.land (Z.land st_mode 320) 146 = 0%Z /\
   Z.land (Z.land st_mode 320) (Z.lnot 320) = 0%Z) /\
  (_set_write_bit has_lchmod st_mode false
   = (if has_lchmod then os_lchmod (Z.lor st_mode 128)
      else if S_ISLNK st_mode then skip_symlink
      else os_chmod (Z.lor st_mode 128)) /\
   Z.testbit (Z.lor st_mode 128) 7 = true /\
   forall i, (0 <= i)%Z -> i <> 7%Z ->
             Z.testbit (Z.lor st_mode 128) i = Z.testbit st_mode i).
Proof.
  split.
  - assert (Hl : S_ISLNK (Z.land st_mode 320) = false).
    { unfold S_ISLNK, S_IFMT, S_IFLNK. rewrite <- Z.land_assoc.
      change (Z.land 320 61440) with 0%Z. by rewrite Z.land_0_r. }
    unfold _set_write_bit. rewrite Hl. split; [by destruct has_lchmod|]. split.
    + rewrite <- Z.land_assoc. change (Z.land 320 146) with 0%Z. apply Z.land_0_r.
    + rewrite <- Z.land_assoc. change (Z.land 320 (Z.lnot 320)) with 0%Z.
      apply Z.land_0_r.
  - assert (Hl : S_ISLNK (Z.lor st_mode 128) = S_ISLNK st_mode).
    { unfold S_ISLNK, S_IFMT, S_IFLNK. rewrite Z.land_lor_distr_l.
      change (Z.land 128 61440) with 0%Z. by rewrite Z.lor_0_r. }
    unfold _set_write_bit. rewrite Hl. split; [done|]. split.
    + rewrite Z.lor_spec. change (Z.testbit 128 7) with true. apply orb_true_r.
    + intros i Hi Hne. rewrite Z.lor_spec.
      replace (Z.testbit 128 i) with false; [apply orb_false_r|].
      symmetry. change 128%Z with (2 ^ 7)%Z. rewrite Z.pow2_bits_eqb by lia.
      apply Z.eqb_neq. congruence.
Qed.

(** ** The temporary directory *)

Section Temporary.
Context (env : Env).

(** X13.  [is_same_filesystem] changes nothing and asserts that both paths
    are absolute.  On Windows both must start with a drive, and two
    drives that differ, letter case apart, are never the same file
    system, whatever [os.stat] says of their devices. *)
Theorem is_same_filesystem_outcome (path1 path2 : string) (w w' : World)
    (r : result bool) :
  is_same_filesystem env path1 path2 w = (w', r) ->
  w' = w /\
  (os_path_isabs env path1 = false \/ os_path_isabs env path2 = false ->
   r = Raise AssertionError) /\
  (forall same, r = Ok same ->
     os_path_isabs env path1 = true /\ os_path_isabs env path2 = true /\
     (win32 env = false -> same = same_device env path1 path2) /\
     (win32 env = true ->
        has_drive path1 = true /\ has_drive path2 = true /\
        exists a b rest1 rest2,
          path1 = String a rest1 /\ path2 = String b rest2 /\
          same = Ascii.eqb (lower a) (lower b) && same_device env path1 path2)).
Proof.
  unfold is_same_filesystem, raise, ret.
  destruct (os_path_isabs env path1) eqn:A1; simpl.
  2:{ intros [= <- <-]. split; [done|]. split; [done|]. discriminate. }
  destruct (os_path_isabs env path2) eqn:A2; simpl.
  2:{ intros [= <- <-]. split; [done|]. split; [done|]. discriminate. }
  destruct (win32 env) eqn:Hw.
  - destruct (has_drive path1) eqn:D1; simpl.
    2:{ intros [= <- <-]. split; [done|]. split; [intros [?|?]; discriminate|].
        discriminate. }
    destruct (has_drive path2) eqn:D2; simpl.
    2:{ intros [= <- <-]. split; [done|]. split; [intros [?|?]; discriminate|].
        discriminate. }
    destruct path1 as [|a rest1]; [discriminate|].
    destruct path2 as [|b rest2]; [discriminate|].
    destruct (Ascii.eqb (lower a) (lower b)) eqn:E; simpl; intros [= <- <-];
      (split; [done|]); (split; [intros [?|?]; discriminate|]);
      intros same [= <-]; split_and!; try done; intros _; split_and!; try done;
      exists a, b, rest1, rest2; by rewrite E.
  - intros [= <- <-]. split; [done|]. split; [intros [?|?]; discriminate|].
    intros same [= <-]. split_and!; try done.
Qed.

(** X14.  [make_temp_dir] with a relative [root_dir] fails its assertion
    and makes nothing.  When it returns, the directory it names was not
    there before and is there now, and no other path, nor the trace, has
    changed. *)
Theorem make_temp_dir_outcome (prefix root_dir : string) (w w' : World)
    (r : result string) :
  make_temp_dir env prefix root_dir w = (w', r) ->
  (os_path_isabs env root_dir = false -> r = Raise AssertionError /\ w' = w) /\
  (forall d, r = Ok d ->
     lookup_path (fs w) d = None /\
     os_path_isdir (fs w') d = true /\
     (forall k, k <> norm d -> fs w' !! k = fs w !! k) /\
     trace w' = trace w) /\
  (forall e, r = Raise e -> w' = w).
Proof.
  intros R. split; [|split].
  - intros Ha. revert R. unfold make_temp_dir, is_same_filesystem, bind, raise.
    rewrite Ha. simpl. by intros [= <- <-].
  - intros d ->.
    destruct (make_temp_dir_run env _ _ _ _ _ R)
      as [(d' & [= <-] & Hfresh & -> & Hdir) | (e & ? & _)]; [|discriminate].
    split; [exact Hfresh|]. split; [exact Hdir|]. split; [|done].
    intros k Hk. simpl. by rewrite lookup_insert_ne.
  - intros e ->.
    destruct (make_temp_dir_run env _ _ _ _ _ R)
      as [(d' & ? & _) | (e' & _ & -> & _)]; [discriminate | done].
Qed.

End Temporary.

Lemma is_same_filesystem_outcome_witness :
  is_same_filesystem (Sample.host true true) "c:\cache" "D:\tmp" Sample.two_blobs
  = (Sample.two_blobs, Ok false).
Proof.
  destruct (is_same_filesystem (Sample.host true true) "c:\cache" "D:\tmp"
              Sample.two_blobs) as [w' r] eqn:R.
  destruct (is_same_filesystem_outcome (Sample.host true true) _ _ _ _ _ R)
    as (-> & _ & H).
  destruct r as [same|e]; [|vm_compute in R; discriminate R].
  destruct (H same eq_refl) as (_ & _ & _ & Hwin).
  destruct (Hwin eq_refl) as (_ & _ & a & b & r1 & r2 & [= <- <-] & [= <- <-] & ->).
  reflexivity.
Defined.

Lemma make_temp_dir_outcome_witness :
  make_temp_dir Sample.posix "run_tha_test" "cache" Sample.two_blobs
  = (Sample.two_blobs, Raise AssertionError).
Proof.
  destruct (make_temp_dir Sample.posix "run_tha_test" "cache" Sample.two_blobs)
    as [w' r] eqn:R.
  destruct (make_temp_dir_outcome Sample.posix _ _ _ _ _ R) as (H & _).
  by destruct (H eq_refl) as (-> & ->).
Defined.

(** ** One eviction *)

(** X15.  [remove_lru_file] on a list that is not empty always returns and
    pops the oldest entry.  A regular file is deleted and counted as
    removed.  A directory is counted as removed as well, but
    [os.remove] fails on it: the error is logged and the directory
    stays.  An entry whose file cannot be read by [os.stat] leaves the
    list with an error in the log and nothing else. *)
Theorem remove_lru_file_outcome (c : Cache) (w : World) (f : string)
    (rest : list string) (s' : Cache * World) (r : result unit) :
  state c = f :: rest ->
  remove_lru_file (c, w) = (s', r) ->
  r = Ok tt /\ state (fst s') = rest /\ config (fst s') = config c /\
  files_added (fst s') = files_added c /\ outliving (snd s') = outliving w /\
  match lookup_path (fs w) (path c f) with
  | Some (File n _) =>
      fs (snd s') = delete (norm (path c f)) (fs w) /\
      files_removed (fst s') = files_removed c ++ [(f, n)] /\
      trace (snd s') = trace w ++ [Log INFO (Trimming f n)]
  | Some (Dir n) =>
      fs (snd s') = fs w /\
      files_removed (fst s') = files_removed c ++ [(f, n)] /\
      trace (snd s') = trace w ++ [Log INFO (Trimming f n); Log ERROR ErrorDeleting]
  | _ =>
      fs (snd s') = fs w /\
      files_removed (fst s') = files_removed c /\
      trace (snd s') = trace w ++ [Log ERROR ErrorDeleting]
  end.
Proof.
  intros E. unfold remove_lru_file, bind, self. simpl. rewrite E.
  unfold try_except, update, world, io, logging, emit, modify, syscall, raise,
    os_stat_size, os_remove. simpl.
  destruct (lookup_path (fs w) (path c f)) as [[n d|n|t]|] eqn:Hl; simpl;
    rewrite ?Hl; simpl; intros [= <- <-]; simpl; rewrite <- ?app_assoc;
    by split_and!.
Qed.

Lemma remove_lru_file_outcome_witness :
  exists s',
    remove_lru_file (Sample.mk_cache 0 0 0 ["a"; "a/b"], Sample.nested) = (s', Ok tt) /\
    state (fst s') = ["a/b"] /\
    os_path_isdir (fs (snd s')) "/c/a" = true /\
    files_removed (fst s') = [("a", 4096%N)].
Proof.
  destruct (remove_lru_file (Sample.mk_cache 0 0 0 ["a"; "a/b"], Sample.nested))
    as [s' r] eqn:R.
  destruct (remove_lru_file_outcome (Sample.mk_cache 0 0 0 ["a"; "a/b"]) Sample.nested
              "a" ["a/b"] s' r eq_refl R) as (-> & Hs & _ & _ & _ & H).
  change (lookup_path (fs Sample.nested) (path (Sample.mk_cache 0 0 0 ["a"; "a/b"]) "a"))
    with (Some (Dir 4096)) in H.
  destruct H as (Hfs & Hrm & _). exists s'. split; [reflexivity|].
  split; [exact Hs|]. split; [by rewrite Hfs | exact Hrm].
Defined.

(** ** What is returned and what is raised *)

Section Outcomes.
Context {St : Type}.

Lemma returns_ret {A} (P : A -> Prop) (a : A) : P a -> returns P (@ret St A a).
Proof. by intros H s s' b [= _ <-]. Qed.

Lemma returns_raise {A} (P : A -> Prop) (e : exn) : returns P (@raise St A e).
Proof. intros s s' b. discriminate. Qed.

Lemma returns_bind {A B} (P : B -> Prop) (m : M St A) (k : A -> M St B) :
  (forall a, returns P (k a)) -> returns P (bind m k).
Proof.
  intros Hk s s' b. unfold bind. destruct (m s) as [s1 [a|e]]; [apply Hk | discriminate].
Qed.

Lemma returns_try_except {A} (P : A -> Prop) (body : M St A) (catches : exn -> bool)
    (handler : exn -> M St A) :
  returns P body -> (forall e, returns P (handler e)) ->
  returns P (try_except body catches handler).
Proof.
  intros Hb Hh s s' a. unfold try_except. destruct (body s) as [s1 [a1|e]] eqn:E.
  - intros [= <- <-]. exact (Hb _ _ _ E).
  - destruct (catches e); [apply Hh | discriminate].
Qed.

Lemma returns_try_finally {A} (P : A -> Prop) (body : M St A) (cleanup : M St unit) :
  returns P body -> returns P (try_finally body cleanup).
Proof.
  intros Hb s s' a. unfold try_finally. destruct (body s) as [s1 r1] eqn:E.
  destruct (cleanup s1) as [s2 [[]|e]]; [|discriminate].
  intros [= <- ->]. exact (Hb _ _ _ E).
Qed.

Lemma raises_ret {A} (Q : exn -> Prop) (a : A) : raises Q (@ret St A a).
Proof. intros s s' e. discriminate. Qed.

Lemma raises_raise {A} (Q : exn -> Prop) (e : exn) : Q e -> raises Q (@raise St A e).
Proof. by intros H s s' e' [= _ <-]. Qed.

Lemma raises_get (Q : exn -> Prop) : raises Q (@get St).
Proof. intros s s' e. discriminate. Qed.

Lemma raises_modify (Q : exn -> Prop) (f : St -> St) : raises Q (modify f).
Proof. intros s s' e. discriminate. Qed.

Lemma raises_bind {A B} (Q : exn -> Prop) (m : M St A) (k : A -> M St B) :
  raises Q m -> (forall a, raises Q (k a)) -> raises Q (bind m k).
Proof.
  intros Hm Hk s s' e. unfold bind. destruct (m s) as [s1 [a|e1]] eqn:E.
  - apply Hk.
  - intros [= <- <-]. exact (Hm _ _ _ E).
Qed.

Lemma raises_try_except {A} (Q : exn -> Prop) (body : M St A) (catches : exn -> bool)
    (handler : exn -> M St A) :
  raises Q body -> (forall e, Q e -> raises Q (handler e)) ->
  raises Q (try_except body catches handler).
Proof.
  intros Hb Hh s s' e. unfold try_except. destruct (body s) as [s1 [a1|e1]] eqn:E.
  - discriminate.
  - pose proof (Hb _ _ _ E) as He1. destruct (catches e1).
    + by apply Hh.
    + by intros [= <- <-].
Qed.

Lemma raises_try_finally {A} (Q : exn -> Prop) (body : M St A) (cleanup : M St unit) :
  raises Q body -> raises Q cleanup -> raises Q (try_finally body cleanup).
Proof.
  intros Hb Hc s s' e. unfold try_finally. destruct (body s) as [s1 r1] eqn:E.
  destruct (cleanup s1) as [s2 [[]|e2]] eqn:E2.
  - intros [= <- ->]. exact (Hb _ _ _ E).
  - intros [= <- <-]. exact (Hc _ _ _ E2).
Qed.

Lemma raises_for_each {A} (Q : exn -> Prop) (l : list A) (body : A -> M St unit) :
  (forall x, raises Q (body x)) -> raises Q (for_each l body).
Proof.
  intros Hb. induction l as [|x l IH]; simpl.
  - apply raises_ret.
  - apply raises_bind; [apply Hb | intros _; exact IH].
Qed.

Lemma raises_while_loop (Q : exn -> Prop) (fuel : nat) (cond : St -> bool)
    (body : M St unit) :
  raises Q body -> raises Q (while_loop fuel cond body).
Proof.
  intros Hb. induction fuel as [|n IH]; simpl.
  - apply raises_ret.
  - intros s s' e. destruct (cond s); [|discriminate].
    apply raises_bind; [exact Hb | intros _; exact IH].
Qed.

End Outcomes.

Lemma raises_emit (Q : exn -> Prop) (ev : event) : raises Q (emit ev).
Proof. apply raises_modify. Qed.

Lemma raises_syscall (Q : exn -> Prop) (err : exn)
    (f : gmap string node -> option (gmap string node)) :
  Q err -> raises Q (syscall err f).
Proof.
  intros H w w' e. unfold syscall. destruct (f (fs w)); [discriminate|].
  by intros [= _ <-].
Qed.

Lemma raises_self (Q : exn -> Prop) : raises Q self.
Proof. intros s s' e. discriminate. Qed.

Lemma raises_world (Q : exn -> Prop) : raises Q world.
Proof. intros s s' e. discriminate. Qed.

Lemma raises_update (Q : exn -> Prop) (f : Cache -> Cache) : raises Q (update f).
Proof. intros s s' e. discriminate. Qed.

Lemma raises_io {A} (Q : exn -> Prop) (m : M World A) : raises Q m -> raises Q (io m).
Proof.
  intros Hm [c w] s' e. unfold io. simpl. destruct (m w) as [w' r] eqn:E.
  intros [= _ ->]. exact (Hm _ _ _ E).
Qed.

Lemma returns_io {A} (P : A -> Prop) (m : M World A) : returns P m -> returns P (io m).
Proof.
  intros Hm [c w] s' a. unfold io. simpl. destruct (m w) as [w' r] eqn:E.
  intros [= _ ->]. exact (Hm _ _ _ E).
Qed.

Ltac raises_with known :=
  repeat first
    [ known
    | assumption
    | apply raises_ret
    | apply raises_raise; first [reflexivity | assumption]
    | apply raises_get
    | apply raises_emit
    | apply raises_syscall; reflexivity
    | apply raises_self | apply raises_world | apply raises_update
    | apply raises_io
    | apply raises_bind; [ | intros ?]
    | apply raises_try_except; [ | intros ? ?]
    | apply raises_try_finally
    | apply raises_for_each; intros ?
    | apply raises_while_loop
    | match goal with
      | |- raises _ (if ?b then _ else _) => destruct b
      | |- raises _ (match ?x with _ => _ end) => destruct x
      end ].

Section NoExit.
Context (env : Env).

Lemma no_exit_remove_lru_file : raises no_exit remove_lru_file.
Proof. unfold remove_lru_file, logging. raises_with fail. Qed.

Lemma no_exit_trim_sizes (sizes : list N) : raises no_exit (trim_sizes sizes).
Proof.
  induction sizes as [|n sizes IH]; simpl.
  - raises_with fail.
  - raises_with ltac:(first [apply no_exit_remove_lru_file | exact IH]).
Qed.

Lemma no_exit_save : raises no_exit (save env).
Proof. unfold save. raises_with fail. Qed.

Lemma no_exit_trim : raises no_exit (trim env).
Proof.
  unfold trim, drop_lost_files, drop_if_lost, absorb_unknown_files, absorb_if_unknown,
    ensure_free_space, ensure_max_cache_size, ensure_max_items, logging.
  raises_with ltac:(first [apply no_exit_remove_lru_file | apply no_exit_trim_sizes
                          | apply no_exit_save]).
Qed.

Lemma no_exit_link_file (outfile infile : string) (action : Z) :
  raises no_exit (link_file env outfile infile action).
Proof.
  unfold link_file, copy, symlink, os_link, logging. raises_with fail.
Qed.

Lemma no_exit_download_or_copy (url dest : string) :
  raises no_exit (download_or_copy env url dest).
Proof. unfold download_or_copy, copy, logging. raises_with fail. Qed.

Lemma no_exit_retrieve (item : string) : raises no_exit (retrieve env item).
Proof.
  unfold retrieve, touch_resident, fetch_missing, logging.
  raises_with ltac:(first [apply no_exit_save
                          | apply raises_io, no_exit_download_or_copy]).
Qed.

Lemma no_exit_Cache__exit__ : raises no_exit (Cache__exit__ env).
Proof.
  unfold Cache__exit__, with_Profiler, logging. raises_with ltac:(apply no_exit_trim).
Qed.

Lemma no_exit_map_entry (outdir : string) (entry : string * Properties) :
  raises no_exit (map_entry env outdir entry).
Proof.
  unfold map_entry, symlink. destruct entry as [filepath properties].
  raises_with ltac:(first [apply no_exit_retrieve
                          | apply raises_io, no_exit_link_file]).
Qed.

Lemma no_exit_make_temp_dir (prefix root_dir : string) :
  raises no_exit (make_temp_dir env prefix root_dir).
Proof. unfold make_temp_dir, is_same_filesystem. raises_with fail. Qed.

Lemma no_exit_rmtree (root : string) : raises no_exit (rmtree env root).
Proof.
  unfold rmtree, make_writable.
  assert (Hs : raises no_exit (shutil_rmtree root)).
  { intros w w' e. unfold shutil_rmtree.
    destruct (outliving w); [destruct (os_path_isdir (fs w) root)|];
      intros [= _ <-]; reflexivity. }
  assert (Ha : forall n i, raises no_exit (rmtree_attempts root i n)).
  { induction n as [|n IH]; intros i; simpl; raises_with ltac:(apply IH). }
  raises_with ltac:(apply Ha).
Qed.

Lemma no_exit_call (cmd : list string) (cwd : string) :
  raises no_exit (call env cmd cwd).
Proof. unfold call. raises_with fail. Qed.

Lemma no_exit_Cache__init__ (cd rm : string) (a b m : Z) :
  raises no_exit (Cache__init__ env cd rm a b m).
Proof.
  intros w w' e. unfold Cache__init__.
  match goal with |- context [?body (?c0, w)] =>
    assert (Hb : raises no_exit body);
    [|destruct (body (c0, w)) as [[c1 w1] [u|e1]] eqn:E;
      [discriminate | intros [= _ <-]; exact (Hb _ _ _ E)]]
  end.
  unfold with_Profiler, json_load, logging.
  raises_with ltac:(apply no_exit_trim).
Qed.

Lemma fix_python_path_raises (cmd : list string) (e : exn) :
  fix_python_path env cmd = Raise e -> e = IndexError.
Proof.
  unfold fix_python_path. destruct cmd as [|c0 rest]; [by intros [= <-]|].
  destruct (String.eqb c0 "python"); [discriminate|].
  destruct (endswith ".py" c0); discriminate.
Qed.

Lemma no_exit_run_tha_test (manifest : Manifest) (cd rm : string) (a b m : Z) :
  raises no_exit (run_tha_test env manifest cd rm a b m).
Proof.
  intros w w' e. unfold run_tha_test.
  destruct (Cache__init__ env cd rm a b m w) as [w1 [cache|e1]] eqn:E1.
  2:{ intros [= _ <-]. exact (no_exit_Cache__init__ _ _ _ _ _ _ _ _ E1). }
  match goal with |- context [try_finally ?body ?cleanup (cache, w1)] =>
    assert (Hb : raises no_exit (try_finally body cleanup));
    [|destruct (try_finally body cleanup (cache, w1)) as [[c2 w2] r2] eqn:E;
      intros [= _ ->]; exact (Hb _ _ _ E)]
  end.
  unfold with_Profiler, logging, make_writable.
  raises_with ltac:(first
    [ apply no_exit_Cache__exit__ | apply no_exit_map_entry
    | apply raises_io, no_exit_make_temp_dir
    | apply raises_io, no_exit_rmtree
    | apply raises_io, no_exit_call
    | match goal with
      | |- raises _ (match fix_python_path ?e ?c with _ => _ end) =>
          let F := fresh "F" in
          destruct (fix_python_path e c) as [?|?] eqn:F;
          [|apply fix_python_path_raises in F; subst]
      end ]).
Qed.

(** X16.  Once [parser.parse_args] has returned the options and the
    arguments, [main] ends with the exit status 2 of [parser.error]
    exactly on a wrong combination of them (both or neither of
    [--manifest] and [--hash], no [--remote], an argument left over) or a
    manifest that cannot be read; the file system has not been touched
    then.  No exception of the run itself is a [SystemExit]. *)
Theorem main_exit_status (options : Options) (args : list string) (w w' : World)
    (r : result Z) :
  main env options args w = (w', r) ->
  let usage :=
    Bool.eqb (truthy (opt_manifest options)) (truthy (opt_hash options)) = true
    \/ truthy (opt_remote options) = false
    \/ args <> []
    \/ load_manifest env (manifest_ref options) = LoadIOError in
  (usage -> r = Raise (SystemExit 2) /\ fs w' = fs w) /\
  (forall code, r = Raise (SystemExit code) -> usage).
Proof.
  unfold main, parser_error, raise. fold (manifest_ref options).
  destruct (Bool.eqb (truthy (opt_manifest options)) (truthy (opt_hash options))) eqn:H1.
  { intros [= <- <-]. simpl. split; auto. }
  destruct (truthy (opt_remote options)) eqn:H2; simpl.
  2:{ intros [= <- <-]. split; auto. }
  destruct args as [|x args]; simpl.
  2:{ intros [= <- <-]. split; [auto|]. intros _ _. right. right. left. discriminate. }
  destruct (load_manifest env (manifest_ref options)) as [manifest| |] eqn:H3.
  - intros R. split.
    + intros [H|[H|[H|H]]]; try discriminate. by destruct H.
    + intros code ->. exfalso.
      pose proof (no_exit_run_tha_test _ _ _ _ _ _ _ _ _ R) as H. discriminate H.
  - intros [= <- <-]. split; auto.
  - intros [= <- <-]. split.
    + intros [H|[H|[H|H]]]; try discriminate. by destruct H.
    + discriminate.
Qed.

End NoExit.

Lemma main_exit_status_witness :
  exists w',
    main Sample.posix Sample.no_run_options ["x"] Sample.remote_blob
    = (w', Raise (SystemExit 2)) /\
    fs w' = fs Sample.remote_blob.
Proof.
  destruct (main Sample.posix Sample.no_run_options ["x"] Sample.remote_blob)
    as [w' r] eqn:R.
  destruct (main_exit_status Sample.posix _ _ _ _ _ R) as (H & _).
  destruct H as (-> & H); [|by exists w']. right. right. left. discriminate.
Defined.


(** ** The run *)

Section Run.
Context (env : Env).

Lemma returns_call (cmd : list string) (cwd : string) :
  returns (fun z => subprocess_call env cmd cwd = Exited z) (call env cmd cwd).
Proof.
  intros w w' z. unfold call, emit, modify, bind, ret, raise.
  destruct (subprocess_call env cmd cwd); [|discriminate]. by intros [= _ <-].
Qed.

(** X18.  What [run_tha_test] returns.  It is 1 when the manifest has no
    ['files'] or no ['command'], and otherwise the exit status of the
    command, run in [outdir/relative_cwd] with the slashes of its first
    word turned into the separator of the host and its head fixed by
    [fix_python_path]. *)
Theorem run_tha_test_exit_code (manifest : Manifest) (cd rm : string) (a b m : Z)
    (w w' : World) (z : Z) :
  run_tha_test env manifest cd rm a b m w = (w', Ok z) ->
  exists w1 w2 cache outdir,
    Cache__init__ env cd rm a b m w = (w1, Ok cache) /\
    make_temp_dir env "run_tha_test" cd w1 = (w2, Ok outdir) /\
    ((z = 1%Z /\ (files manifest = None \/ command manifest = None))
     \/ exists manifest_files c0 args cmd,
          files manifest = Some manifest_files /\
          command manifest = Some (c0 :: args) /\
          fix_python_path env (replace_slash (os_path_sep env) c0 :: args) = Ok cmd /\
          subprocess_call env cmd
            (os_path_join outdir
               (match relative_cwd manifest with Some d => d | None => "" end))
          = Exited z).
Proof.
  intros R. unfold run_tha_test in R.
  destruct (Cache__init__ env cd rm a b m w) as [w1 [cache|e]] eqn:Hinit;
    [|discriminate R].
  destruct (try_finally _ _ (cache, w1)) as [[c' w''] r'] eqn:E in R.
  injection R as <- ->.
  apply try_finally_inv in E as (s1 & r1 & r2 & Eb & Ec & Hok & Herr).
  assert (r1 = Ok z) as ->.
  { destruct r2 as [[]|e]; [symmetry; by apply Hok|]. by specialize (Herr e eq_refl). }
  apply bind_inv in Eb as [(outdir & s2 & Ed & Eb) | (e & _ & ?)]; [|discriminate].
  unfold io in Ed. simpl in Ed.
  destruct (make_temp_dir env "run_tha_test" cd w1) as [w2 r] eqn:Htemp.
  injection Ed as <- ->.
  exists w1, w2, cache, outdir. split; [done|]. split; [done|].
  destruct (files manifest) as [manifest_files|] eqn:Hfiles.
  2:{ left. revert Eb. unfold io, emit, modify, bind, ret. simpl.
      intros [= _ <-]. auto. }
  destruct (command manifest) as [manifest_command|] eqn:Hcmd.
  2:{ left. revert Eb. unfold io, emit, modify, bind, ret. simpl.
      intros [= _ <-]. auto. }
  right. exists manifest_files. clear Hok Herr. revert z Eb.
  match goal with |- forall z, ?body ?s = (?s1, Ok z) -> @?G z =>
    enough (Hr : returns G body) by (intros z Eb; exact (Hr _ _ _ Eb))
  end.
  apply returns_try_finally. do 4 (apply returns_bind; intros ?).
  destruct manifest_command as [|c0 args]; [apply returns_raise|].
  destruct (fix_python_path env _) as [cmd|e] eqn:Hfix; [|apply returns_raise].
  apply returns_bind; intros _. apply returns_try_except.
  - unfold with_Profiler. apply returns_try_finally.
    intros s s' z' Hcall. apply (returns_io _ _ (returns_call _ _)) in Hcall.
    exists c0, args, cmd. split_and!; [done | done | exact Hfix | exact Hcall].
  - intros e. apply returns_bind; intros _. apply returns_raise.
Qed.

(** X19.  A manifest without ['files'] or without ['command'] leaves the
    scratch directory behind, on every host: [run_tha_test] has made it
    by then, returns before the [try] whose [finally] removes it, and
    [Cache.__exit__] does not remove directories. *)
Theorem scratch_dir_kept (manifest : Manifest) (cd rm : string) (a b m : Z)
    (w w1 w2 w' : World) (cache : Cache) (outdir : string) (r : result Z) :
  files manifest = None \/ command manifest = None ->
  Cache__init__ env cd rm a b m w = (w1, Ok cache) ->
  make_temp_dir env "run_tha_test" cd w1 = (w2, Ok outdir) ->
  run_tha_test env manifest cd rm a b m w = (w', r) ->
  lookup_path (fs w1) outdir = None /\
  os_path_isdir (fs w') outdir = true /\
  (r = Ok 1%Z \/ r = Raise OSError \/ r = Raise IndexError \/ r = Raise IOError).
Proof.
  intros Hmiss Hinit Htemp R.
  unfold run_tha_test in R. rewrite Hinit in R.
  destruct (try_finally _ _ (cache, w1)) as [[c' w''] r'] eqn:E in R.
  injection R as <- <-.
  apply try_finally_inv in E as (s1 & r1 & r2 & Eb & Ec & Hok & Herr).
  apply bind_inv in Eb as [(d & s2 & Ed & Eb) | (e & Ed & _)];
    rewrite (io_run _ _ _ _ _ Htemp) in Ed; [|discriminate].
  injection Ed as <- <-.
  destruct (make_temp_dir_run env _ _ _ _ _ Htemp)
    as [(d & [= <-] & Hfresh & Hw2 & Hdir) | (e & ? & _)]; [|discriminate].
  split; [exact Hfresh|].
  assert (Hb : r1 = Ok 1%Z /\ fs (snd s1) = fs w2).
  { destruct (files manifest); [destruct (command manifest)|];
      try (destruct Hmiss; discriminate);
      revert Eb; unfold io, emit, modify, bind, ret; simpl; by intros [= <- <-]. }
  destruct Hb as (-> & Hfs).
  destruct (keeps_Cache__exit__ env _ _ _ Ec) as ((Hk & _) & _). simpl in Hk.
  split.
  - unfold os_path_isdir, lookup_path in *. rewrite <- Hfs in Hdir.
    destruct (fs (snd s1) !! norm outdir) as [[| |]|] eqn:E1; try discriminate.
    by rewrite (Hk _ _ E1).
  - destruct r2 as [[]|e].
    + left. by apply Hok.
    + right. rewrite (Herr e eq_refl). destruct s1 as [c1 w3].
      destruct (Cache__exit___state env _ _ _ _ Ec) as (s3 & Rt & _).
      destruct (trim_run env _ _ _ _ Rt) as (_ & _ & _ & _ & _ & Hr & _).
      destruct Hr as [? | [[= ->] | [[= ->] | [= ->]]]]; [discriminate | auto..].
Qed.

End Run.

Lemma run_tha_test_exit_code_witness :
  exists cmd,
    fix_python_path Sample.posix ["python"; "x.py"] = Ok cmd /\
    subprocess_call Sample.posix cmd "/tmp/run_tha_testk3J9/" = Exited 0.
Proof.
  assert (R : run_tha_test Sample.posix Sample.one_script "/c" "/r" 0 0 0
                Sample.remote_blob
              = (fst (run_tha_test Sample.posix Sample.one_script "/c" "/r" 0 0 0
                        Sample.remote_blob), Ok 0%Z)).
  { vm_compute. reflexivity. }
  destruct (run_tha_test_exit_code Sample.posix _ _ _ _ _ _ _ _ _ R)
    as (w1 & w2 & cache & outdir & Hinit & Htemp & H).
  destruct H as [(_ & [H|H])|(fl & c0 & args & cmd & _ & Hc & Hfix & Hcall)];
    [discriminate H | discriminate H |].
  injection Hc as <- <-.
  assert (Ho : outdir = "/tmp/run_tha_testk3J9").
  { destruct (make_temp_dir_run Sample.posix _ _ _ _ _ Htemp)
      as [(d & [= <-] & _)|(e & He & _)]; [|discriminate He].
    revert Htemp. unfold make_temp_dir, is_same_filesystem, bind, ret, syscall. simpl.
    destruct (os_makedirs _ _ _); [|discriminate]. by intros [= _ <-]. }
  subst outdir. exists cmd. split; [exact Hfix | exact Hcall].
Defined.

Lemma scratch_dir_kept_witness :
  os_path_isdir
    (fs (fst (run_tha_test Sample.posix Sample.no_files "/c" "/r" 0 0 0
                Sample.remote_blob)))
    "/tmp/run_tha_testk3J9" = true.
Proof.
  pose (i := Cache__init__ Sample.posix "/c" "/r" 0 0 0 Sample.remote_blob).
  pose (cache := match snd i with Ok c => c | Raise _ => Sample.mk_cache 0 0 0 [] end).
  pose (t := make_temp_dir Sample.posix "run_tha_test" "/c" (fst i)).
  refine (proj1 (proj2 (scratch_dir_kept Sample.posix Sample.no_files "/c" "/r" 0 0 0
           Sample.remote_blob (fst i) (fst t) _ cache "/tmp/run_tha_testk3J9"
           (snd (run_tha_test Sample.posix Sample.no_files "/c" "/r" 0 0 0
                   Sample.remote_blob))
           (or_introl eq_refl) _ _ _))).
  - vm_compute. reflexivity.
  - vm_compute. reflexivity.
  - by destruct (run_tha_test _ _ _ _ _ _ _ _).
Defined.

(** ** Mapping one entry *)

Section Mapping.
Context (env : Env).

Lemma saved_lookup_ne (c : Cache) (w : World) (p : string) :
  norm p <> norm (state_file c) ->
  lookup_path (fs (saved env c w)) p = lookup_path (fs w) p.
Proof.
  intros Hne. unfold lookup_path, saved. simpl. rewrite lookup_insert_ne; [done|].
  congruence.
Qed.

(** A download that fails, from a web server and from a directory. *)
Lemma download_or_copy_fails (src dest : string) (w : World) :
  (is_http_url src = true -> urlretrieve env src = None) ->
  (is_http_url src = false -> os_path_isfile (fs w) src = false) ->
  download_or_copy env src dest w
  = if is_http_url src
    then (logged [DownloadOrCopy src dest; Log ERROR (FailedToDownload src)] w, Ok tt)
    else (logged [DownloadOrCopy src dest] w, Raise IOError).
Proof.
  intros Hu Hf. unfold download_or_copy, copy, try_except, logging, emit, modify,
    syscall, raise, bind. simpl.
  destruct (is_http_url src).
  - rewrite (Hu eq_refl). simpl. unfold logged. simpl. by rewrite <- app_assoc.
  - specialize (Hf eq_refl). unfold shutil_copy, os_path_isfile, logged in *.
    cbn [fs trace outliving].
    destruct (lookup_path (fs w) src) as [[| |]|]; simpl; try discriminate Hf;
      reflexivity.
Qed.



End Mapping.



(** ** The free space and the state file *)

Section Persistence.
Context (env : Env).

(** X22.  The loop of [trim] on the free space always returns.  It pops
    the oldest entries only, none when [min_free_space] is 0, and stops
    as soon as the disk has the space asked for or the list is empty. *)
Theorem enough_free_space (s s' : Cache * World) (r : result unit) :
  ensure_free_space env s = (s', r) ->
  r = Ok tt /\
  config (fst s') = config (fst s) /\
  state (fst s') `suffix_of` state (fst s) /\
  fs (snd s') ⊆ fs (snd s) /\
  (min_free_space (fst s) = 0%Z -> s' = s) /\
  (min_free_space (fst s) <> 0%Z ->
     state (fst s') = [] \/
     (min_free_space (fst s)
      <= get_free_space env (fs (snd s')) (cache_dir (fst s')))%Z).
Proof.
  intros R. pose proof (ensure_free_space_spec env _ _ _ R) as (-> & Hev & Hl).
  destruct Hev as (Hc & Hs & Hf & _).
  split; [done|]. split; [done|]. split; [done|]. split; [done|]. split.
  - intros Hz. rewrite ensure_free_space_skip in R by exact Hz. by injection R.
  - intros Hnz. unfold lacks_free_space in Hl.
    assert (Hm : min_free_space (fst s') = min_free_space (fst s))
      by (unfold config in Hc; congruence).
    assert (Hcd : cache_dir (fst s') = cache_dir (fst s))
      by (unfold config in Hc; congruence).
    rewrite Hm in Hl.
    apply Z.eqb_neq in Hnz. rewrite Hnz in Hl. simpl in Hl.
    destruct (state (fst s')) as [|f l]; [by left|]. right. simpl in Hl.
    by apply Z.ltb_ge in Hl.
Qed.

End Persistence.

Lemma enough_free_space_witness :
  state (fst (fst (ensure_free_space Sample.posix
                     (Sample.mk_cache 0 2000 0 ["a"; "b"], Sample.two_blobs)))) = [].
Proof.
  destruct (ensure_free_space Sample.posix _) as [s' r] eqn:R.
  destruct (enough_free_space Sample.posix
              (Sample.mk_cache 0 2000 0 ["a"; "b"], Sample.two_blobs) s' r R)
    as (_ & _ & _ & _ & _ & H).
  destruct H as [H|H]; [discriminate | exact H |].
  exfalso. revert H. vm_compute. intros H. by apply H.
Defined.


(** ** The budget in bytes *)

Section Bytes.
Context (env : Env).

Arguments remove_lru_file : simpl never.

Lemma stat_sizes_length (fs0 : gmap string node) (c : Cache) :
  forall (l : list string) (sizes : list N),
    stat_sizes fs0 c l = Some sizes -> length sizes = length l.
Proof.
  induction l as [|f l IH]; intros sizes; simpl.
  - by intros [= <-].
  - destruct (os_stat_size fs0 (path c f)); [|discriminate].
    destruct (stat_sizes fs0 c l) as [sz|]; [|discriminate].
    intros [= <-]. simpl. f_equal. by apply IH.
Qed.

Lemma stat_sizes_config (fs0 : gmap string node) (c c' : Cache) :
  cache_dir c' = cache_dir c ->
  forall l, stat_sizes fs0 c' l = stat_sizes fs0 c l.
Proof.
  intros E. induction l as [|f l IH]; simpl; [done|].
  unfold path. by rewrite E, IH.
Qed.

(** The loop on the sizes pops one entry for each size it drops, while what
    is left of the sizes is above the budget. *)
Lemma trim_sizes_exact :
  forall (sizes : list N) (s s' : Cache * World) (r : result unit),
    length (state (fst s)) = length sizes ->
    trim_sizes sizes s = (s', r) ->
    r = Ok tt /\ config (fst s') = config (fst s) /\
    exists k,
      (k <= length sizes)%nat /\
      state (fst s') = drop k (state (fst s)) /\
      (k = length sizes \/ (sum_sizes (drop k sizes) <= max_cache_size (fst s))%Z) /\
      forall j, (j < k)%nat -> (sum_sizes (drop j sizes) > max_cache_size (fst s))%Z.
Proof.
  induction sizes as [|n sizes IH]; intros [c w] s' r Hlen R.
  - simpl in R. injection R as <- <-. split; [done|]. split; [done|].
    exists O. split_and!; [done | done | by left | intros j Hj; lia].
  - cbn [trim_sizes] in R. unfold bind at 1, self in R. cbn [fst snd] in R.
    destruct (sum_sizes (n :: sizes) >? max_cache_size c)%Z eqn:Hgt.
    + cbn [fst] in Hlen. destruct (state c) as [|f rest] eqn:E; [discriminate Hlen|].
      destruct (remove_lru_file_cons c w f rest E) as (c1 & w1 & R1 & Hcf & Hs & _).
      unfold bind in R. rewrite R1 in R.
      destruct (IH (c1, w1) s' r) as (-> & Hc' & k & Hk & Hst & Hle & Hmin).
      * cbn [fst]. rewrite Hs. simpl in Hlen. lia.
      * exact R.
      * cbn [fst] in *. rewrite (config_max_cache_size _ _ Hcf) in Hle, Hmin.
        split; [done|]. split; [congruence|].
        exists (Datatypes.S k). split_and!.
        -- simpl. lia.
        -- rewrite Hst, Hs, E. reflexivity.
        -- destruct Hle as [-> | Hle]; [by left | by right].
        -- intros [|j] Hj.
           ++ rewrite drop_0. by apply Z.gtb_gt.
           ++ simpl. apply Hmin. lia.
    + injection R as <- <-. split; [done|]. split; [done|].
      exists O. split_and!; [lia | done | | intros j Hj; lia].
      right. rewrite drop_0. cbn [fst]. rewrite Z.gtb_ltb in Hgt.
      by apply Z.ltb_ge in Hgt.
Qed.

(** X24.  With [max_cache_size] as the only budget and sizes that
    [os.stat] can read, on a plain cache, [trim] evicts the oldest entries
    and no more of them than the budget asks for: with [sizes] the sizes
    read for the reconciled list, what is left is the list without its
    first [k] entries, where the sizes from [k] on are within the budget
    (or nothing is left) and the sizes from any [j < k] on are above
    it. *)
Theorem trim_within_bytes (c : Cache) (w : World) (sizes : list N)
    (s' : Cache * World) (r : result unit) :
  min_free_space c = 0%Z -> max_items c = 0%Z -> max_cache_size c <> 0%Z ->
  plain_cache c w = true ->
  stat_sizes (fs w) c (reconciled c w) = Some sizes ->
  trim env (c, w) = (s', r) ->
  (r = Ok tt \/ r = Raise IOError) /\
  exists k,
    (k <= length (reconciled c w))%nat /\
    state (fst s') = drop k (reconciled c w) /\
    (k = length (reconciled c w) \/ (sum_sizes (drop k sizes) <= max_cache_size c)%Z) /\
    forall j, (j < k)%nat -> (sum_sizes (drop j sizes) > max_cache_size c)%Z.
Proof.
  intros Hf Hi Hs _ Hst R.
  destruct (trim_stages env _ _ _ _ R) as (tr & s3 & s4 & r4 & R3 & R4 & H).
  rewrite ensure_free_space_skip in R3 by exact Hf. injection R3 as <-.
  pose proof (stat_sizes_length _ _ _ _ Hst) as Hlen.
  assert (R4' : r4 = Ok tt /\ config (fst s4) = config c /\
                exists k,
                  (k <= length (reconciled c w))%nat /\
                  state (fst s4) = drop k (reconciled c w) /\
                  (k = length (reconciled c w)
                   \/ (sum_sizes (drop k sizes) <= max_cache_size c)%Z) /\
                  forall j, (j < k)%nat ->
                            (sum_sizes (drop j sizes) > max_cache_size c)%Z).
  { revert R4. unfold ensure_max_cache_size, bind, self, world. cbn [fst snd].
    change (max_cache_size (set_state (reconciled c w) c)) with (max_cache_size c).
    change (state (set_state (reconciled c w) c)) with (reconciled c w).
    apply Z.eqb_neq in Hs. rewrite Hs. cbn [negb andb].
    destruct (length (reconciled c w) =? 0)%nat eqn:Hz; cbn [negb].
    - intros [= <- <-]. split; [done|]. split; [done|]. exists O.
      apply Nat.eqb_eq in Hz. split_and!; [lia | done | left; lia | intros j Hj; lia].
    - cbn [fs logged].
      rewrite (stat_sizes_config (fs w) c (set_state (reconciled c w) c) eq_refl).
      rewrite Hst. intros R4.
      destruct (trim_sizes_exact sizes (set_state (reconciled c w) c, logged tr w)
                  s4 r4 (eq_sym Hlen) R4)
        as (-> & Hc & k & Hk & Hst' & Hle & Hmin).
      split; [done|]. split; [exact Hc|]. exists k. rewrite <- Hlen.
      split_and!; [exact Hk | exact Hst' | exact Hle | exact Hmin]. }
  destruct R4' as (-> & Hc4 & k & Hk & Hst4 & Hle & Hmin).
  destruct H as (s5 & r5 & R5 & H).
  assert (Hi4 : max_items (fst s4) = 0%Z).
  { rewrite (config_max_items _ _ Hc4). exact Hi. }
  unfold ensure_max_items, bind, self in R5. cbn [fst snd] in R5.
  rewrite Hi4 in R5. cbn in R5. injection R5 as <- <-.
  destruct s4 as [c4 w4]. pose proof (save_fst env _ _ _ _ H) as Hfst.
  split.
  - destruct (save_run env c4 w4) as [(_ & Rs)|Rs]; rewrite Rs in H;
      injection H as _ <-; auto.
  - exists k. rewrite Hfst. split_and!; [exact Hk | exact Hst4 | exact Hle | exact Hmin].
Qed.

End Bytes.

Lemma trim_within_bytes_witness :
  exists k,
    (k <= 2)%nat /\
    state (fst (fst (trim Sample.posix
                       (Sample.mk_cache 25 0 0 ["a"; "b"], Sample.two_blobs))))
    = drop k ["a"; "b"] /\
    (k = 2%nat \/ (sum_sizes (drop k [10%N; 20%N]) <= 25)%Z) /\
    forall j, (j < k)%nat -> (sum_sizes (drop j [10%N; 20%N]) > 25)%Z.
Proof.
  destruct (trim Sample.posix _) as [s' r] eqn:R.
  exact (proj2 (trim_within_bytes Sample.posix (Sample.mk_cache 25 0 0 ["a"; "b"])
                  Sample.two_blobs [10%N; 20%N] s' r eq_refl eq_refl
                  ltac:(discriminate) eq_refl eq_refl R)).
Defined.

(** ** Plain names *)

Lemma plain_name_no_slash (f : string) : plain_name f = true -> has_slash f = false.
Proof.
  unfold plain_name. intros H. apply negb_true_iff in H.
  apply orb_false_iff in H. tauto.
Qed.

(** ** A regular file of the manifest *)

Section Materializing.
Context (env : Env).

(** [link_file] with the action [HARDLINK], from a regular file to a free
    name: the link where the platform grants it, the copy where not. *)
Lemma link_file_HARDLINK (outfile infile : string) (w : World) (n : N) (d : json_doc) :
  lookup_path (fs w) infile = Some (File n d) ->
  lookup_path (fs w) outfile = None ->
  link_file env outfile infile HARDLINK w
  = (set_fs (<[norm outfile := File n d]> (fs w))
       (logged (Log DEBUG (Mapping infile outfile) ::
                if can_link env infile outfile then [HardLinked infile outfile]
                else [Log WARN (FailedToHardlink infile outfile);
                      Copied infile outfile]) w),
     Ok tt).
Proof.
  intros Hin Hout.
  unfold link_file, logging, emit, modify, get, raise, bind. simpl.
  unfold os_path_isfile. simpl. rewrite Hin, Hout. simpl.
  unfold try_except, os_link, syscall, emit, modify, bind. simpl. rewrite Hin, Hout.
  destruct (can_link env infile outfile); simpl.
  - unfold set_fs, logged. simpl. by rewrite <- app_assoc.
  - unfold copy, logging, syscall, emit, modify, bind, shutil_copy, write_file,
      os_path_isdir. simpl. rewrite Hin, Hout. simpl.
    unfold set_fs, logged. simpl. by rewrite <- !app_assoc.
Qed.

(** C4, amended.  An entry with a ['sha-1'] whose blob is in the cache and
    can be read, mapped to a free plain name of a directory that is there,
    is placed by [link_file] with the action [HARDLINK]: where the
    platform grants the hard link the blob is linked and nothing else is
    tried; where it refuses, the failure is logged and the blob is copied.
    The destination is a regular file with the content of the blob either
    way, and no symbolic link is made. *)
Theorem regular_file_hardlink_then_copy (outdir filepath h : string)
    (properties : Properties) (c : Cache) (w : World) (n : N) (d : json_doc)
    (s' : Cache * World) (r : result unit) :
  let outfile := os_path_join outdir filepath in
  let infile := path c h in
  sha_1 properties = Some h ->
  plain_name h = true ->
  h ∈ state c ->
  os_path_isdir (fs w) (cache_dir c) = true ->
  lookup_path (fs w) infile = Some (File n d) ->
  d <> Unreadable ->
  os_path_isdir (fs w) (state_file c) = false ->
  can_open (fs w) (state_file c) = true ->
  norm infile <> norm (state_file c) ->
  os_path_isdir (fs w) (os_path_dirname outfile) = true ->
  plain_name (os_path_basename outfile) = true ->
  lookup_path (fs w) outfile = None ->
  norm outfile <> norm (state_file c) ->
  map_entry env outdir (filepath, properties) (c, w) = (s', r) ->
  r = Ok tt /\
  lookup_path (fs (snd s')) outfile = Some (File n d) /\
  trace (snd s')
  = trace w ++ Log DEBUG (Mapping infile outfile) ::
      (if can_link env infile outfile then [HardLinked infile outfile]
       else [Log WARN (FailedToHardlink infile outfile); Copied infile outfile])
      ++ match mode properties with Some m => [Chmod outfile m] | None => [] end.
Proof.
  intros outfile infile Hsha Hp Hin _ Hblob _ Hsf _ Hne Hdir _ Hout Hno.
  pose proof (plain_name_no_slash h Hp) as Hs.
  unfold map_entry. fold outfile. rewrite Hsha.
  unfold bind at 1, world. simpl. rewrite Hdir. simpl.
  unfold bind at 1, ret. unfold bind at 1. unfold bind at 1.
  destruct (retrieve_hit_step env c w h Hs Hin Hsf) as (l1 & l2 & E & _ & ->).
  set (c1 := set_state (l1 ++ l2 ++ [h]) c).
  unfold bind at 1, self. simpl.
  change (path c1 h) with infile.
  unfold io at 1. simpl.
  rewrite (link_file_HARDLINK outfile infile (saved env c1 w) n d).
  2:{ subst infile. rewrite saved_lookup_ne; [exact Hblob | exact Hne]. }
  2:{ rewrite saved_lookup_ne; [exact Hout | exact Hno]. }
  simpl.
  destruct (mode properties) as [md|]; unfold io, emit, modify, ret; simpl;
    intros [= <- <-]; simpl; (split; [done|]); (split;
      [unfold lookup_path; by rewrite lookup_insert_eq|]);
    destruct (can_link env infile outfile); simpl;
    rewrite <- ?app_assoc; simpl; by rewrite ?app_nil_r.
Qed.

End Materializing.

Lemma regular_file_hardlink_then_copy_witness :
  exists s',
    map_entry Sample.posix "/tmp"
      ("a", {| sha_1 := Some "a"; link := None; mode := None |})
      (Sample.mk_cache 0 0 0 ["a"; "b"], Sample.with_tmp)
    = (s', Ok tt) /\
    lookup_path (fs (snd s')) "/tmp/a" = Some (File 10 Malformed) /\
    trace (snd s') = [Log DEBUG (Mapping "/c/a" "/tmp/a"); HardLinked "/c/a" "/tmp/a"].
Proof.
  destruct (map_entry Sample.posix "/tmp" _ _) as [s' r] eqn:R.
  destruct (regular_file_hardlink_then_copy Sample.posix "/tmp" "a" "a"
              {| sha_1 := Some "a"; link := None; mode := None |}
              (Sample.mk_cache 0 0 0 ["a"; "b"]) Sample.with_tmp
              10 Malformed s' r) as (-> & H1 & H2).
  - reflexivity.
  - reflexivity.
  - by left.
  - reflexivity.
  - reflexivity.
  - discriminate.
  - reflexivity.
  - reflexivity.
  - vm_compute. discriminate.
  - reflexivity.
  - reflexivity.
  - reflexivity.
  - vm_compute. discriminate.
  - exact R.
  - exists s'. split; [reflexivity|]. split; [exact H1 | exact H2].
Defined.

(** C4 as it is written fails on a host that refuses the hard link and
    would take a symbolic link: the blob is copied, the destination is a
    regular file, and no symbolic link has been tried. *)
Lemma regular_file_never_symlinked :
  (exists fs', os_symlink "/c/a" "/tmp/a" (fs Sample.with_tmp) = Some fs') /\
  exists s',
    map_entry (Sample.host false false) "/tmp"
      ("a", {| sha_1 := Some "a"; link := None; mode := None |})
      (Sample.mk_cache 0 0 0 ["a"; "b"], Sample.with_tmp)
    = (s', Ok tt) /\
    trace (snd s') = [Log DEBUG (Mapping "/c/a" "/tmp/a");
                      Log WARN (FailedToHardlink "/c/a" "/tmp/a");
                      Copied "/c/a" "/tmp/a"] /\
    lookup_path (fs (snd s')) "/tmp/a" = Some (File 10 Malformed).
Proof.
  split; [eexists; reflexivity|].
  eexists. split; [vm_compute; reflexivity|]. split; reflexivity.
Qed.

(** ** A blob that is not in the cache *)

Section Missing.
Context (env : Env).

(** A copy from a directory to a free name. *)
Lemma download_or_copy_copies (src dest : string) (w : World) (n : N) (d : json_doc) :
  is_http_url src = false ->
  lookup_path (fs w) src = Some (File n d) ->
  lookup_path (fs w) dest = None ->
  download_or_copy env src dest w
  = (set_fs (<[norm dest := File n d]> (fs w))
       (logged [DownloadOrCopy src dest; Copied src dest] w), Ok tt).
Proof.
  intros Hu Hsrc Hdest.
  unfold download_or_copy, copy, syscall, emit, modify, bind. simpl. rewrite Hu.
  unfold shutil_copy, write_file, os_path_isdir. simpl. rewrite Hsrc, Hdest. simpl.
  unfold set_fs, logged. simpl. by rewrite <- app_assoc.
Qed.

(** X7.  [retrieve] of a plain id that is not in the list, from a remote
    that is a directory, into a cache directory that is there and has no
    entry of that name; the file of the remote and the state file can be
    opened.  Where the remote has the file, it is copied, the id is
    appended to the list and the file counted as added with its size, and
    [retrieve] returns [True]; where it has not, the [IOError] of the copy
    gets out and the cache is as it was.  The state file is written
    either way. *)
Theorem retrieve_miss (item : string) (c : Cache) (w : World)
    (s' : Cache * World) (r : result bool) :
  let src := (rstrip_slash (remote c) ++ "/" ++ item)%string in
  plain_name item = true ->
  (item ∉ state c) ->
  is_http_url src = false ->
  os_path_isdir (fs w) (cache_dir c) = true ->
  no_symlinks (fs w) = true ->
  can_open (fs w) src = true ->
  lookup_path (fs w) (path c item) = None ->
  os_path_isdir (fs w) (state_file c) = false ->
  can_open (fs w) (state_file c) = true ->
  norm (path c item) <> norm (state_file c) ->
  retrieve env item (c, w) = (s', r) ->
  match lookup_path (fs w) src with
  | Some (File n d) =>
      r = Ok true /\
      state (fst s') = state c ++ [item] /\
      files_added (fst s') = files_added c ++ [(path c item, n)] /\
      lookup_path (fs (snd s')) (path c item) = Some (File n d)
  | _ => r = Raise IOError /\ fst s' = c
  end /\
  lookup_path (fs (snd s')) (state_file c)
  = Some (File (json_size env (state (fst s'))) (Parsed (state (fst s')))).
Proof.
  intros src Hp Hn Hu _ _ _ Hdest Hsf _ Hne.
  pose proof (plain_name_no_slash item Hp) as Hs.
  unfold retrieve. rewrite Hs. unfold try_finally, try_except.
  destruct (touch_resident_run item c w) as [(_ & ->)|(l1 & l2 & E & _ & _)].
  2:{ exfalso. apply Hn. rewrite E. apply elem_of_app. right. by left. }
  simpl. unfold fetch_missing, bind at 1, self. simpl. unfold bind at 1, io at 1.
  simpl. fold src.
  destruct (lookup_path (fs w) src) as [[n d|n|t]|] eqn:Hsrc.
  - rewrite (download_or_copy_copies src (path c item) w n d Hu Hsrc Hdest). simpl.
    unfold bind, world, self, update, ret. simpl.
    unfold os_path_exists, os_stat_size, lookup_path. simpl.
    rewrite lookup_insert_eq. simpl.
    set (c1 := add_file_added (path c item, n) (set_state (state c ++ [item]) c)).
    set (w1 := set_fs _ _).
    assert (Hsf1 : os_path_isdir (fs w1) (state_file c1) = false).
    { unfold os_path_isdir, lookup_path in *. subst w1. simpl.
      change (state_file c1) with (state_file c).
      rewrite lookup_insert_ne by congruence. exact Hsf. }
    rewrite (save_ok env c1 w1 Hsf1). intros [= <- <-]. cbn [fst snd].
    split; [|apply (saved_lookup env c1 w1)].
    split; [done|]. split; [done|]. split; [done|].
    change (lookup_path (fs (saved env c1 w1)) (path c item) = Some (File n d)).
    rewrite saved_lookup_ne by exact Hne. subst w1. unfold lookup_path. simpl.
    by rewrite lookup_insert_eq.
  - rewrite (download_or_copy_fails env src (path c item) w).
    2:{ intros H. congruence. }
    2:{ intros _. unfold os_path_isfile. by rewrite Hsrc. }
    rewrite Hu. simpl.
    rewrite save_ok by exact Hsf. intros [= <- <-]. cbn [fst snd].
    split; [done|]. apply saved_lookup.
  - rewrite (download_or_copy_fails env src (path c item) w).
    2:{ intros H. congruence. }
    2:{ intros _. unfold os_path_isfile. by rewrite Hsrc. }
    rewrite Hu. simpl.
    rewrite save_ok by exact Hsf. intros [= <- <-]. cbn [fst snd].
    split; [done|]. apply saved_lookup.
  - rewrite (download_or_copy_fails env src (path c item) w).
    2:{ intros H. congruence. }
    2:{ intros _. unfold os_path_isfile. by rewrite Hsrc. }
    rewrite Hu. simpl.
    rewrite save_ok by exact Hsf. intros [= <- <-]. cbn [fst snd].
    split; [done|]. apply saved_lookup.
Qed.

End Missing.

Lemma retrieve_miss_witness :
  exists s',
    retrieve Sample.posix "x" (Sample.mk_cache 0 0 0 ["a"; "b"], Sample.with_tmp)
    = (s', Ok true) /\
    state (fst s') = ["a"; "b"; "x"] /\
    files_added (fst s') = [("/c/x", 7%N)] /\
    lookup_path (fs (snd s')) "/c/x" = Some (File 7 Malformed).
Proof.
  destruct (retrieve Sample.posix "x" (Sample.mk_cache 0 0 0 ["a"; "b"], Sample.with_tmp))
    as [s' r] eqn:R.
  destruct (retrieve_miss Sample.posix "x" (Sample.mk_cache 0 0 0 ["a"; "b"])
              Sample.with_tmp s' r) as ((-> & H1 & H2 & H3) & _).
  - reflexivity.
  - intros Hin.
    repeat (apply elem_of_cons in Hin; destruct Hin as [Hin|Hin]; [discriminate Hin|]).
    by apply elem_of_nil in Hin.
  - reflexivity.
  - reflexivity.
  - reflexivity.
  - reflexivity.
  - reflexivity.
  - reflexivity.
  - reflexivity.
  - vm_compute. discriminate.
  - exact R.
  - exists s'. split; [reflexivity|]. split; [exact H1|]. split; [exact H2 | exact H3].
Defined.
